(** * QRBasedClassReminder: admin sessions, password resets, error envelope,
      signup form and dashboard listing

    A shallow embedding of
      - backend/shared/utils/errors.js                      (module [Errors])
      - backend/auth-service/lib/utils.js                   (module [Utils])
      - backend/auth-service/repositories/adminSessionRepository.js
                                                            (module [AdminSessionRepository])
      - backend/auth-service/repositories/passwordResetRepository.js
                                                            (module [PasswordResetRepository])
      - frontend/src/utils/formatters.js, frontend/src/store/studentStore.js
                                                            (modules [StudentStore], [AdminStore])

    Asynchronous functions are modelled as computations over an explicit
    world (tables, pending database faults, log); a rejected promise is the
    outcome [Thrown].  Every [new Date()] of the source is an explicit clock
    reading passed as an argument, in the order of the source. *)

From Stdlib Require Import ZArith Lia.
From stdpp Require Import base option list strings sorting gmap.

Local Open Scope string_scope.
Local Open Scope Z_scope.

(** ** JavaScript primitives used by the sources *)
Module Js.

(** Truthiness of a string: only the empty string is falsy. *)
Definition truthy (s : string) : bool :=
  match s with EmptyString => false | _ => true end.

(** Truthiness of a nullable string ([null], [undefined] and [''] are falsy). *)
Definition truthy_opt (o : option string) : bool :=
  match o with Some s => truthy s | None => false end.

(** [s.startsWith(p)]. *)
Definition startsWith (s p : string) : bool := String.prefix p s.

(** [s.endsWith(p)]. *)
Definition endsWith (s p : string) : bool :=
  String.prefix (String.rev p) (String.rev s).

(** [l.join(sep)]. *)
Fixpoint join (sep : string) (l : list string) : string :=
  match l with
  | [] => ""
  | [x] => x
  | x :: rest => x +:+ sep +:+ join sep rest
  end.

(** Code units that [String.prototype.trim] strips, for strings of code
    units below 256: TAB, LF, VT, FF, CR, SPACE and NBSP. *)
Definition isWhiteSpace (c : Ascii.ascii) : bool :=
  let n := Ascii.nat_of_ascii c in
  ((9 <=? n) && (n <=? 13) || (n =? 32) || (n =? 160))%nat.

Fixpoint trimStart (s : string) : string :=
  match s with
  | EmptyString => EmptyString
  | String c r => if isWhiteSpace c then trimStart r else s
  end.

(** [s.trim()]. *)
Definition trim (s : string) : string :=
  String.rev (trimStart (String.rev (trimStart s))).

(** [s.includes(q)]: [q] occurs in [s] as a substring. *)
Fixpoint includes (s q : string) : bool :=
  String.prefix q s ||
  match s with
  | EmptyString => false
  | String _ r => includes r q
  end.

(** A [Date]: its time value in milliseconds, [None] for an Invalid Date
    (time value NaN).  Every relational comparison with NaN is false. *)
Definition Date := option Z.

Definition date_gt (a b : Date) : bool :=
  match a, b with Some x, Some y => y <? x | _, _ => false end.
Definition date_lt (a b : Date) : bool :=
  match a, b with Some x, Some y => x <? y | _, _ => false end.
Definition date_le (a b : Date) : bool :=
  match a, b with Some x, Some y => x <=? y | _, _ => false end.

End Js.

(** ** backend/shared/utils/errors.js *)
Module Errors.

(** One entry of a ZodError's [errors] / [issues] array. *)
Record ZodIssue := {
  zpath : option (list string);
  zmessage : string;
  zcode : string;
}.

(** One element of [validationDetails]. *)
Record ValidationDetail := {
  field : string;
  vmessage : string;
  vcode : string;
}.

(** The metadata objects the module builds. *)
Inductive Metadata :=
| MetaEmpty
| MetaZod (validationErrors : list ValidationDetail) (context : string)
          (fieldCount : option nat)
| MetaDb (operation : string) (prismaCode : option string) (message : string)
| MetaOriginal (originalError : string) (context : string).

(** A thrown JavaScript error object, with the properties this module
    reads or writes; [None] is [undefined]. *)
Record JsError := {
  name : string;
  message : string;
  code : option string;
  metadata : option Metadata;
  instanceofZodError : bool;
  errors : option (list ZodIssue);
  issues : option (list ZodIssue);
  meta_target : option (list string);
}.

(** [new Error(message)]. *)
Definition newError (msg : string) : JsError :=
  {| name := "Error"; message := msg; code := None; metadata := None;
     instanceofZodError := false; errors := None; issues := None;
     meta_target := None |}.

(** shared/constants/errorCodes.js is not part of the sources at hand: its
    constants are parameters of the development. *)
Record ErrorCodes := {
  VALIDATION_ERROR : string;
  CONFLICT_ERROR : string;
  NOT_FOUND : string;
  BUSINESS_LOGIC_ERROR : string;
  DATABASE_ERROR : string;
  AUTHENTICATION_ERROR : string;
  AUTHORIZATION_ERROR : string;
  UNIQUE_VIOLATION : string;
  RECORD_NOT_FOUND : string;
  DB_OPERATION_FAILED : string;
}.

(** [createErrorFactory(name, defaultCode)]: the returned factory, applied
    to [(message, code, metadata)]. The [timestamp] property and the stack
    trace are not modelled. *)
Definition createErrorFactory (nm defaultCode : string)
    (msg : string) (cd : option string) (md : option Metadata) : JsError :=
  {| name := nm; message := msg;
     code := Some (default defaultCode cd);
     metadata := Some (default MetaEmpty md);
     instanceofZodError := false; errors := None; issues := None;
     meta_target := None |}.

(** A code that [transformError] below leaves to its custom-error branch:
    truthy and not of the form Prisma's codes have. *)
Definition plainCode (c : string) : Prop :=
  Js.truthy c = true ∧ Js.startsWith c "P" = false.

Section WithCodes.
Context (ERROR_CODES : ErrorCodes).

Definition ValidationError := createErrorFactory "ValidationError" (VALIDATION_ERROR ERROR_CODES).
Definition ConflictError := createErrorFactory "ConflictError" (CONFLICT_ERROR ERROR_CODES).
Definition NotFoundError := createErrorFactory "NotFoundError" (NOT_FOUND ERROR_CODES).
Definition BusinessLogicError := createErrorFactory "BusinessLogicError" (BUSINESS_LOGIC_ERROR ERROR_CODES).
Definition DatabaseError := createErrorFactory "DatabaseError" (DATABASE_ERROR ERROR_CODES).
Definition AuthenticationError := createErrorFactory "AuthenticationError" (AUTHENTICATION_ERROR ERROR_CODES).
Definition AuthorizationError := createErrorFactory "AuthorizationError" (AUTHORIZATION_ERROR ERROR_CODES).

Definition isValidationError (e : JsError) : bool := bool_decide (name e = "ValidationError").
Definition isConflictError (e : JsError) : bool := bool_decide (name e = "ConflictError").
Definition isNotFoundError (e : JsError) : bool := bool_decide (name e = "NotFoundError").

Definition isZodError (e : JsError) : bool :=
  instanceofZodError e
  || bool_decide (name e = "ZodError")
  || match errors e with
     | Some l => bool_decide (0 < length l)%nat
     | None => false
     end.

(** The [context ? a : b] of the source: an empty context is falsy. *)
Definition withContext (context a b : string) : string :=
  if Js.truthy context then a else b.

Definition toValidationDetail (i : ZodIssue) : ValidationDetail :=
  {| field := match zpath i with
              | Some p => Js.join "." p
              | None => "root"
              end;
     vmessage := if Js.truthy (zmessage i) then zmessage i else "Invalid value";
     vcode := if Js.truthy (zcode i) then zcode i else "invalid" |}.

Definition fieldMessage (d : ValidationDetail) : string :=
  if bool_decide (field d = "root") then vmessage d
  else field d +:+ ": " +:+ vmessage d.

Definition transformZodError (zodError : JsError) (context : string) : JsError :=
  if negb (isZodError zodError) then zodError
  else
    let errs :=
      match errors zodError with
      | Some l => l
      | None => default [] (issues zodError)
      end in
    match errs with
    | [] =>
        ValidationError
          (withContext context (context +:+ ": Invalid input provided")
                               "Invalid input provided")
          (Some (VALIDATION_ERROR ERROR_CODES))
          (Some (MetaZod [] context None))
    | _ =>
        let validationDetails := toValidationDetail <$> errs in
        let primaryMessage := Js.join "; " (fieldMessage <$> validationDetails) in
        let fullMessage :=
          withContext context (context +:+ " - " +:+ primaryMessage) primaryMessage in
        ValidationError fullMessage (Some (VALIDATION_ERROR ERROR_CODES))
          (Some (MetaZod validationDetails context
                         (Some (length validationDetails))))
    end.

(** The [switch (prismaError.code)] of the source; the [console.error]
    line writes to the console only. *)
Definition transformPrismaError (prismaError : JsError) (operation : string) : JsError :=
  match code prismaError with
  | Some "P2002" =>
      let fld :=
        match meta_target prismaError with
        | Some (f :: _) => if Js.truthy f then f else "field"
        | _ => "field"
        end in
      ConflictError (fld +:+ " already exists")
                    (Some (UNIQUE_VIOLATION ERROR_CODES)) None
  | Some "P2025" =>
      NotFoundError "Resource not found" (Some (RECORD_NOT_FOUND ERROR_CODES)) None
  | Some "P2003" =>
      BusinessLogicError "Cannot delete resource with existing dependencies"
                         (Some (BUSINESS_LOGIC_ERROR ERROR_CODES)) None
  | _ =>
      DatabaseError "Database operation failed"
                    (Some (DB_OPERATION_FAILED ERROR_CODES))
                    (Some (MetaDb operation (code prismaError) (message prismaError)))
  end.

Definition transformError (error : JsError) (context : string) : JsError :=
  if isZodError error then transformZodError error context
  else if match code error with
          | Some c => Js.truthy c && Js.startsWith c "P"
          | None => false
          end
  then transformPrismaError error context
  else if Js.truthy (name error) && Js.endsWith (name error) "Error"
          && Js.truthy_opt (code error)
  then error
  else
    BusinessLogicError
      (if Js.truthy (message error) then message error
       else "An unexpected error occurred")
      (Some (BUSINESS_LOGIC_ERROR ERROR_CODES))
      (Some (MetaOriginal (name error) context)).

End WithCodes.

End Errors.

(** ** backend/auth-service/lib/utils.js: the error response *)
Module Utils.
Import Errors.

(** The [error] object of the envelope; [e_metadata] is present exactly
    when [transformedError.metadata] is truthy (every object is). *)
Record ErrorPayload := {
  e_message : string;
  e_code : option string;
  e_metadata : option Metadata;
}.

Record ErrorEnvelope := {
  success : bool;
  error : ErrorPayload;
  timestamp : Z;
}.

(** What [res.status(statusCode).json(body)] sends. *)
Record Response := {
  status : Z;
  json : ErrorEnvelope;
}.

(** [createErrorResponse(res, error, context)]; [now] is the reading of
    [new Date()] that is rendered by [toISOString()]. *)
Definition createErrorResponse (ERROR_CODES : ErrorCodes)
    (error : JsError) (context : string) (now : Z) : Response :=
  let transformedError := transformError ERROR_CODES error context in
  let statusCode := 500 in
  let statusCode := if isValidationError transformedError then 400 else statusCode in
  let statusCode := if isConflictError transformedError then 409 else statusCode in
  let statusCode := if isNotFoundError transformedError then 404 else statusCode in
  {| status := statusCode;
     json := {| success := false;
                error := {| e_message := message transformedError;
                            e_code := code transformedError;
                            e_metadata := metadata transformedError |};
                timestamp := now |} |}.

End Utils.

(** ** Signup ingestion, as the spec describes it *)
Module SignupIngestion.
Import Errors Utils.






End SignupIngestion.

(** ** The world of the repositories: tables, faults and the log *)
Module World.
Import Errors.

(** A row of [admin_sessions]. The Prisma schema is not part of the sources
    at hand; the columns are those the repository reads and writes. *)
Record AdminSession := {
  id : string;
  adminId : string;
  token : string;
  refreshToken : string;
  expiresAt : Z;
  ipAddress : option string;
  userAgent : option string;
  createdAt : Z;
  updatedAt : Z;
}.

(** A row of [admins], as far as [findByToken] joins it. *)
Record Admin := {
  a_id : string;
  a_email : string;
  a_name : string;
  a_role : string;
  a_isActive : bool;
}.

(** A row of [password_resets]. *)
Record PasswordReset := {
  r_id : string;
  r_adminId : string;
  r_email : string;
  r_token : string;
  r_expiresAt : Z;
  r_isUsed : bool;
  r_usedAt : option Z;
  r_attempts : Z;
  r_createdAt : Z;
}.

Inductive Level := LInfo | LWarn | LError | LDebug.

#[export] Instance Level_eq_dec : EqDecision Level.
Proof. solve_decision. Defined.

(** One call of the logger: level and message (the structured payload is
    left out). *)
Record LogEntry := { level : Level; text : string }.

(** The state the repositories act on. [faults] schedules the outcome of
    the coming database calls: each call takes the head; [Some e] makes
    that call reject with [e] (connection loss, a constraint of the
    schema, ...), [None] or an exhausted schedule lets it run. *)
Record State := {
  adminSessions : list AdminSession;
  passwordResets : list PasswordReset;
  admins : list Admin;
  faults : list (option JsError);
  log : list LogEntry;
}.

Definition set_adminSessions (l : list AdminSession) (w : State) : State :=
  {| adminSessions := l; passwordResets := passwordResets w; admins := admins w;
     faults := faults w; log := log w |}.
Definition set_passwordResets (l : list PasswordReset) (w : State) : State :=
  {| adminSessions := adminSessions w; passwordResets := l; admins := admins w;
     faults := faults w; log := log w |}.
Definition set_faults (f : list (option JsError)) (w : State) : State :=
  {| adminSessions := adminSessions w; passwordResets := passwordResets w;
     admins := admins w; faults := f; log := log w |}.
Definition add_log (e : LogEntry) (w : State) : State :=
  {| adminSessions := adminSessions w; passwordResets := passwordResets w;
     admins := admins w; faults := faults w; log := log w ++ [e] |}.

(** How an awaited call ends. *)
Inductive Outcome (A : Type) :=
| Returned (a : A)
| Thrown (e : JsError).
Arguments Returned {A} a.
Arguments Thrown {A} e.

(** An asynchronous repository function. *)
Definition Async (A : Type) : Type := State -> Outcome A * State.

Definition ret {A} (a : A) : Async A := fun w => (Returned a, w).
Definition throw {A} (e : JsError) : Async A := fun w => (Thrown e, w).
Definition bind {A B} (m : Async A) (k : A -> Async B) : Async B :=
  fun w => match m w with
           | (Returned a, w') => k a w'
           | (Thrown e, w') => (Thrown e, w')
           end.
(** [try { body } catch (error) { handler }]. *)
Definition try_catch {A} (body : Async A) (handler : JsError -> Async A) : Async A :=
  fun w => match body w with
           | (Returned a, w') => (Returned a, w')
           | (Thrown e, w') => handler e w'
           end.
(** A synchronous call that returns or throws, such as [schema.parse]. *)
Definition lift {A} (o : Outcome A) : Async A := fun w => (o, w).

Definition logger (l : Level) (msg : string) : Async unit :=
  fun w => (Returned tt, add_log {| level := l; text := msg |} w).

(** The coming database call is not scheduled to reject. *)
Definition nextCallRuns (w : State) : Prop :=
  match faults w with
  | Some _ :: _ => False
  | _ => True
  end.

(** The state once a call that was not rejected has taken its entry of
    the schedule. *)
Definition afterCall (w : State) : State :=
  match faults w with
  | _ :: rest => set_faults rest w
  | [] => w
  end.

(** One database call: consult the fault schedule, then run [q]. *)
Definition dbCall {A} (q : State -> Outcome A * State) : Async A :=
  fun w => match faults w with
           | Some e :: rest => (Thrown e, set_faults rest w)
           | None :: rest => q (set_faults rest w)
           | [] => q w
           end.

(** stdpp's monad notation [x ← m; k] for [Async]. *)
#[export] Instance async_ret : MRet Async := @ret.
#[export] Instance async_bind : MBind Async := fun A B k m => bind m k.

(** The entries logged at error level. *)
Definition errorEntries (l : list LogEntry) : list LogEntry :=
  filter (fun e => level e = LError) l.

(** A run of [m] from [w] that returns met no failure on its way: the
    database calls it made took only [None] entries of the schedule, and
    nothing was logged at error level. *)
Definition returnsOnlyUnfailed {A} (m : Async A) : Prop :=
  ∀ w a w', m w = (Returned a, w') ->
    (∃ k, faults w = (replicate k None ++ faults w')%list)
    ∧ errorEntries (log w') = errorEntries (log w).

(** [m] never rejects. *)
Definition neverThrows {A} (m : Async A) : Prop :=
  ∀ w, ∃ a w', m w = (Returned a, w').

(** The error a run of [m] from [w] ends with, when it throws. *)
Definition thrownBy {A} (m : Async A) (w : State) : option JsError :=
  match (m w).1 with
  | Thrown e => Some e
  | Returned _ => None
  end.

(** The failure an operation meets, if any: its input validation throws,
    or else the database call it makes with the validated input rejects
    (through the fault schedule, or because the query itself fails). *)
Definition firstFailure {V A} (validation : Outcome V) (call : V -> Async A)
    (w : State) : option JsError :=
  match validation with
  | Thrown e => Some e
  | Returned v => thrownBy (call v) w
  end.

(** A Prisma error with the given code, as the client raises it. *)
Definition prismaError (c msg : string) : JsError :=
  {| name := "PrismaClientKnownRequestError"; message := msg; code := Some c;
     metadata := None; instanceofZodError := false; errors := None;
     issues := None; meta_target := None |}.

(** [Promise.all([a, b, c])]: all three are issued; the first rejection,
    in the order of the array, is the one thrown. *)
Definition promiseAll3 {A B C} (a : Async A) (b : Async B) (c : Async C)
    : Async (A * B * C) :=
  fun w =>
    let '(r1, w1) := a w in
    let '(r2, w2) := b w1 in
    let '(r3, w3) := c w2 in
    match r1, r2, r3 with
    | Returned x, Returned y, Returned z => (Returned (x, y, z), w3)
    | Thrown e, _, _ => (Thrown e, w3)
    | _, Thrown e, _ => (Thrown e, w3)
    | _, _, Thrown e => (Thrown e, w3)
    end.

End World.

(** ** Prisma's table operations, and the backend modules outside the sources *)
Module Prisma.
Import Errors World.

(** [select]: which columns of a session the caller gets back. *)
Record SessionSelect := {
  sel_id : bool; sel_adminId : bool; sel_token : bool; sel_refreshToken : bool;
  sel_expiresAt : bool; sel_ipAddress : bool; sel_userAgent : bool;
  sel_createdAt : bool; sel_updatedAt : bool;
}.

(** The object a query with a [select] returns: a column that was not
    selected reads as [undefined] ([None]). [v_ipAddress] and [v_userAgent]
    also read [None] for a NULL column. *)
Record SessionView := {
  v_id : option string;
  v_adminId : option string;
  v_token : option string;
  v_refreshToken : option string;
  v_expiresAt : option Z;
  v_ipAddress : option string;
  v_userAgent : option string;
  v_createdAt : option Z;
  v_updatedAt : option Z;
}.

Definition pick {A} (b : bool) (a : A) : option A := if b then Some a else None.

Definition select (sel : SessionSelect) (s : AdminSession) : SessionView :=
  {| v_id := pick (sel_id sel) (id s);
     v_adminId := pick (sel_adminId sel) (adminId s);
     v_token := pick (sel_token sel) (token s);
     v_refreshToken := pick (sel_refreshToken sel) (refreshToken s);
     v_expiresAt := pick (sel_expiresAt sel) (expiresAt s);
     v_ipAddress := if sel_ipAddress sel then ipAddress s else None;
     v_userAgent := if sel_userAgent sel then userAgent s else None;
     v_createdAt := pick (sel_createdAt sel) (createdAt s);
     v_updatedAt := pick (sel_updatedAt sel) (updatedAt s) |}.

(** The argument of [createSession]. *)
Record SessionData := {
  d_adminId : string;
  d_token : string;
  d_refreshToken : string;
  d_expiresAt : Z;
  d_ipAddress : option string;
  d_userAgent : option string;
}.

(** The argument of [createPasswordReset]. *)
Record ResetData := {
  rd_adminId : string;
  rd_email : string;
  rd_token : string;
  rd_expiresAt : Z;
}.

(** A value in an update object. *)
Inductive FieldValue :=
| VString (s : string)
| VDate (t : Z).

(** The modules of the backend that are not part of the sources at hand:
    shared/constants/errorCodes, models/adminSchema (the zod schemas; [parse]
    returns the parsed value or throws) and lib/constants. *)
Class Env := {
  ERROR_CODES : ErrorCodes;
  uuidSchema : string -> Outcome string;
  createSessionSchema : SessionData -> Outcome SessionData;
  createPasswordResetSchema : ResetData -> Outcome ResetData;
  SESSION_FIELDS_withTokens : SessionSelect;
  SESSION_FIELDS_public : SessionSelect;
  ALLOWED_SESSION_UPDATE_FIELDS : list string;
}.

(** [ORDER BY createdAt DESC], as a stable sort. *)
Definition createdAt_desc (a b : AdminSession) : Prop := createdAt b <= createdAt a.
#[export] Instance createdAt_desc_dec : RelDecision createdAt_desc :=
  fun a b => decide (createdAt b <= createdAt a).
Definition orderByCreatedAtDesc (l : list AdminSession) : list AdminSession :=
  merge_sort createdAt_desc l.

Definition r_createdAt_desc (a b : PasswordReset) : Prop := r_createdAt b <= r_createdAt a.
#[export] Instance r_createdAt_desc_dec : RelDecision r_createdAt_desc :=
  fun a b => decide (r_createdAt b <= r_createdAt a).
Definition orderByResetCreatedAtDesc (l : list PasswordReset) : list PasswordReset :=
  merge_sort r_createdAt_desc l.

Section Session.
Context (P : AdminSession -> Prop) `{!∀ s, Decision (P s)}.

(** [db.adminSession.findUnique] / [findFirst]: the first row that matches. *)
Definition session_findFirst : Async (option AdminSession) :=
  dbCall (fun w => (Returned (head (filter P (adminSessions w))), w)).

(** [db.adminSession.findFirst] with [orderBy: { createdAt: "desc" }]. *)
Definition session_findFirst_desc : Async (option AdminSession) :=
  dbCall (fun w =>
    (Returned (head (orderByCreatedAtDesc (filter P (adminSessions w)))), w)).

(** [db.adminSession.findMany] with [orderBy: { createdAt: "desc" }]. *)
Definition session_findMany_desc : Async (list AdminSession) :=
  dbCall (fun w => (Returned (orderByCreatedAtDesc (filter P (adminSessions w))), w)).

(** [db.adminSession.count]. *)
Definition session_count : Async nat :=
  dbCall (fun w => (Returned (length (filter P (adminSessions w))), w)).

(** [db.adminSession.deleteMany]: removes the matching rows and returns
    their number. *)
Definition session_deleteMany : Async nat :=
  dbCall (fun w =>
    (Returned (length (filter P (adminSessions w))),
     set_adminSessions (filter (fun s => ¬ P s) (adminSessions w)) w)).

(** [db.adminSession.delete]: the row must exist (P2025 otherwise). *)
Definition session_delete : Async AdminSession :=
  dbCall (fun w =>
    match head (filter P (adminSessions w)) with
    | Some s => (Returned s,
                 set_adminSessions (filter (fun s => ¬ P s) (adminSessions w)) w)
    | None => (Thrown (prismaError "P2025" "Record to delete does not exist."), w)
    end).

(** [db.adminSession.update]: the client first validates the data
    ([valid]), then the row must exist (P2025 otherwise). *)
Definition session_update (valid : bool) (f : AdminSession -> AdminSession)
    : Async AdminSession :=
  dbCall (fun w =>
    if negb valid then
      (Thrown {| name := "PrismaClientValidationError";
                 message := "Invalid `prisma.adminSession.update()` invocation";
                 code := None; metadata := None; instanceofZodError := false;
                 errors := None; issues := None; meta_target := None |}, w)
    else
    match head (filter P (adminSessions w)) with
    | Some s => (Returned (f s),
                 set_adminSessions
                   ((fun r => if decide (P r) then f r else r) <$> adminSessions w) w)
    | None => (Thrown (prismaError "P2025" "Record to update not found."), w)
    end).
End Session.

(** [db.adminSession.create]: the database supplies [id], [createdAt] and
    [updatedAt]. *)
Definition session_create (d : SessionData) (newId : string) (dbNow : Z)
    : Async AdminSession :=
  dbCall (fun w =>
    let row := {| id := newId; adminId := d_adminId d; token := d_token d;
                  refreshToken := d_refreshToken d; expiresAt := d_expiresAt d;
                  ipAddress := d_ipAddress d; userAgent := d_userAgent d;
                  createdAt := dbNow; updatedAt := dbNow |} in
    (Returned row, set_adminSessions (adminSessions w ++ [row]) w)).

Section Reset.
Context (P : PasswordReset -> Prop) `{!∀ r, Decision (P r)}.

Definition reset_findFirst : Async (option PasswordReset) :=
  dbCall (fun w => (Returned (head (filter P (passwordResets w))), w)).

Definition reset_findFirst_desc : Async (option PasswordReset) :=
  dbCall (fun w =>
    (Returned (head (orderByResetCreatedAtDesc (filter P (passwordResets w)))), w)).

Definition reset_count : Async nat :=
  dbCall (fun w => (Returned (length (filter P (passwordResets w))), w)).

Definition reset_deleteMany : Async nat :=
  dbCall (fun w =>
    (Returned (length (filter P (passwordResets w))),
     set_passwordResets (filter (fun r => ¬ P r) (passwordResets w)) w)).

Definition reset_update (f : PasswordReset -> PasswordReset) : Async PasswordReset :=
  dbCall (fun w =>
    match head (filter P (passwordResets w)) with
    | Some r => (Returned (f r),
                 set_passwordResets
                   ((fun x => if decide (P x) then f x else x) <$> passwordResets w) w)
    | None => (Thrown (prismaError "P2025" "Record to update not found."), w)
    end).
End Reset.

(** [db.passwordReset.create]: the database supplies [id], [isUsed],
    [attempts] and [createdAt]. *)
Definition reset_create (d : ResetData) (newId : string) (dbNow : Z)
    : Async PasswordReset :=
  dbCall (fun w =>
    let row := {| r_id := newId; r_adminId := rd_adminId d; r_email := rd_email d;
                  r_token := rd_token d; r_expiresAt := rd_expiresAt d;
                  r_isUsed := false; r_usedAt := None; r_attempts := 0;
                  r_createdAt := dbNow |} in
    (Returned row, set_passwordResets (passwordResets w ++ [row]) w)).

End Prisma.

(** ** backend/auth-service/repositories/adminSessionRepository.js *)
Module AdminSessionRepository.
Import Errors World Prisma.

(** Writing one column of a session; [None] when the column does not exist
    or the value has the wrong type. *)
Definition setColumn (k : string) (v : FieldValue) (s : AdminSession)
    : option AdminSession :=
  match k, v with
  | "adminId", VString x =>
      Some {| id := id s; adminId := x; token := token s; refreshToken := refreshToken s;
              expiresAt := expiresAt s; ipAddress := ipAddress s; userAgent := userAgent s;
              createdAt := createdAt s; updatedAt := updatedAt s |}
  | "token", VString x =>
      Some {| id := id s; adminId := adminId s; token := x; refreshToken := refreshToken s;
              expiresAt := expiresAt s; ipAddress := ipAddress s; userAgent := userAgent s;
              createdAt := createdAt s; updatedAt := updatedAt s |}
  | "refreshToken", VString x =>
      Some {| id := id s; adminId := adminId s; token := token s; refreshToken := x;
              expiresAt := expiresAt s; ipAddress := ipAddress s; userAgent := userAgent s;
              createdAt := createdAt s; updatedAt := updatedAt s |}
  | "expiresAt", VDate t =>
      Some {| id := id s; adminId := adminId s; token := token s; refreshToken := refreshToken s;
              expiresAt := t; ipAddress := ipAddress s; userAgent := userAgent s;
              createdAt := createdAt s; updatedAt := updatedAt s |}
  | "ipAddress", VString x =>
      Some {| id := id s; adminId := adminId s; token := token s; refreshToken := refreshToken s;
              expiresAt := expiresAt s; ipAddress := Some x; userAgent := userAgent s;
              createdAt := createdAt s; updatedAt := updatedAt s |}
  | "userAgent", VString x =>
      Some {| id := id s; adminId := adminId s; token := token s; refreshToken := refreshToken s;
              expiresAt := expiresAt s; ipAddress := ipAddress s; userAgent := Some x;
              createdAt := createdAt s; updatedAt := updatedAt s |}
  | "updatedAt", VDate t =>
      Some {| id := id s; adminId := adminId s; token := token s; refreshToken := refreshToken s;
              expiresAt := expiresAt s; ipAddress := ipAddress s; userAgent := userAgent s;
              createdAt := createdAt s; updatedAt := t |}
  | _, _ => None
  end.

Definition validColumn (kv : string * FieldValue) : bool :=
  match kv with
  | ("adminId", VString _) | ("token", VString _) | ("refreshToken", VString _)
  | ("ipAddress", VString _) | ("userAgent", VString _)
  | ("expiresAt", VDate _) | ("updatedAt", VDate _) => true
  | _ => false
  end.

(** Writing the columns of [data] in order (a later key overrides). *)
Definition applyData (data : list (string * FieldValue)) (s : AdminSession) : AdminSession :=
  foldl (fun acc kv => default acc (setColumn kv.1 kv.2 acc)) s data.

Section Repo.
Context `{Env}.

(** The [catch] block shared by the re-throwing functions:
    [logger.error(msg, ...); throw transformError(error, fn)]. *)
Definition rethrow {A} (msg fn : string) (error : JsError) : Async A :=
  logger LError msg ≫= fun _ => throw (transformError ERROR_CODES error fn).

(** [m] logs and re-throws: a run that returns met no failure, and a run
    that throws has logged at error level last and throws what
    [transformError] made of the error. *)
Definition logsAndRethrows {A} (m : Async A) : Prop :=
  returnsOnlyUnfailed m
  ∧ ∀ w e w', m w = (Thrown e, w') ->
      ∃ e0 fn msg l,
        e = transformError ERROR_CODES e0 fn
        ∧ log w' = (l ++ [ {| level := LError; text := msg |} ])%list.

(** [m] logs and re-throws every failure, [failure w] being the failure a
    run from [w] meets: when there is one, [m] throws what [transformError]
    makes of that very error under the context [fn], and the last line it
    logged, the only one at error level, is [msg]; when there is none, [m]
    returns, having consumed no rejecting entry of the fault schedule and
    logged nothing at error level. *)
Definition logsAndRethrowsEvery {A} (m : Async A) (msg fn : string)
    (failure : State -> option JsError) : Prop :=
  ∀ w,
    match failure w with
    | Some e0 =>
        ∃ w' l,
          m w = (Thrown (transformError ERROR_CODES e0 fn), w')
          ∧ log w' = (log w ++ l ++ [ {| level := LError; text := msg |} ])%list
          ∧ errorEntries l = []
    | None =>
        ∃ a w',
          m w = (Returned a, w')
          ∧ (∃ k, faults w = (replicate k None ++ faults w')%list)
          ∧ errorEntries (log w') = errorEntries (log w)
    end.

Definition createSession (sessionData : SessionData) (newId : string) (dbNow : Z)
    : Async SessionView :=
  try_catch
    (validatedSessionData ← lift (createSessionSchema sessionData);
     _ ← logger LInfo "Creating admin session";
     newSession ← session_create validatedSessionData newId dbNow;
     (* [create] resolves to the created row, so the [!newSession] guard
        of the source never fires *)
     let newSession := select SESSION_FIELDS_withTokens newSession in
     _ ← logger LInfo "Admin session created successfully";
     mret newSession)
    (rethrow "Failed to create admin session" "createSession").

Definition findByAccessToken (token : option string) : Async (option SessionView) :=
  try_catch
    (match token with
     | Some t =>
         if Js.truthy t then
           session ← session_findFirst (fun s => World.token s = t);
           mret (select SESSION_FIELDS_withTokens <$> session)
         else throw (ValidationError ERROR_CODES "Token is required" None None)
     | None => throw (ValidationError ERROR_CODES "Token is required" None None)
     end)
    (rethrow "Failed to find session by access token" "findByAccessToken").

Definition findByRefreshToken (refreshToken : option string) : Async (option SessionView) :=
  try_catch
    (match refreshToken with
     | Some t =>
         if Js.truthy t then
           session ← session_findFirst (fun s => World.refreshToken s = t);
           mret (select SESSION_FIELDS_withTokens <$> session)
         else throw (ValidationError ERROR_CODES "Refresh token is required" None None)
     | None => throw (ValidationError ERROR_CODES "Refresh token is required" None None)
     end)
    (rethrow "Failed to find session by refresh token" "findByRefreshToken").

Definition findById (sessionId : string) : Async (option SessionView) :=
  try_catch
    (validId ← lift (uuidSchema sessionId);
     session ← session_findFirst (fun s => id s = validId);
     mret (select SESSION_FIELDS_withTokens <$> session))
    (rethrow "Failed to find session by ID" "findById").

Definition updateSession (sessionId : string)
    (updateData : option (list (string * option FieldValue))) (now : Z)
    : Async SessionView :=
  try_catch
    (validId ← lift (uuidSchema sessionId);
     match updateData with
     | None | Some [] =>
         throw (ValidationError ERROR_CODES "Update data cannot be empty" None None)
     | Some entries =>
         let cleanData : list (string * FieldValue) :=
           omap (fun kv : string * option FieldValue =>
                   if bool_decide (kv.1 ∈ ALLOWED_SESSION_UPDATE_FIELDS)
                   then (fun v => (kv.1, v)) <$> kv.2 else None) entries in
         match cleanData with
         | [] => throw (ValidationError ERROR_CODES "No valid fields to update" None None)
         | _ =>
             let data := (cleanData ++ [("updatedAt", VDate now)])%list in
             updatedSession ←
               session_update (fun s => id s = validId)
                              (forallb validColumn data) (applyData data);
             mret (select SESSION_FIELDS_withTokens updatedSession)
         end
     end)
    (rethrow "Failed to update session" "updateSession").

Definition deleteSession (sessionId : string) : Async (bool * string) :=
  try_catch
    (validId ← lift (uuidSchema sessionId);
     deletedSession ← session_delete (fun s => id s = validId);
     _ ← logger LInfo "Session deleted";
     mret (true, id deletedSession))
    (rethrow "Failed to delete session" "deleteSession").

(** The result of [getAdminSessions]. *)
Record SessionList := {
  sessions : list SessionView;
  total : nat;
  active : nat;
  expired : nat;
}.

(** [now] is the clock reading in the [where] clause, [currentTime] the
    later one the counts are taken against. *)
Definition getAdminSessions (adminId : string) (includeExpired : bool)
    (now currentTime : Z) : Async SessionList :=
  try_catch
    (validId ← lift (uuidSchema adminId);
     rows ← (if negb includeExpired
             then session_findMany_desc
                    (fun s => World.adminId s = validId ∧ now < expiresAt s)
             else session_findMany_desc (fun s => World.adminId s = validId));
     let sessions := select SESSION_FIELDS_public <$> rows in
     let activeSessions :=
       filter (fun s => Js.date_gt (v_expiresAt s) (Some currentTime)) sessions in
     let expiredSessions :=
       filter (fun s => Js.date_le (v_expiresAt s) (Some currentTime)) sessions in
     mret {| sessions := sessions;
             total := length sessions;
             active := length activeSessions;
             expired := length expiredSessions |})
    (rethrow "Failed to get admin sessions" "getAdminSessions").

(** Returns [deletedCount]. *)
Definition invalidateAllSessions (adminId : string) : Async nat :=
  try_catch
    (validId ← lift (uuidSchema adminId);
     count ← session_deleteMany (fun s => World.adminId s = validId);
     _ ← logger LInfo "All admin sessions invalidated";
     mret count)
    (rethrow "Failed to invalidate all sessions" "invalidateAllSessions").

(** The last session is reduced to [createdAt], [ipAddress], [userAgent]. *)
Definition getSessionStats (adminId : string) (now : Z)
    : Async (nat * nat * option (Z * option string * option string)) :=
  try_catch
    (validId ← lift (uuidSchema adminId);
     '(activeSessions, totalSessions, lastSession) ←
       promiseAll3
         (session_count (fun s => World.adminId s = validId ∧ now < expiresAt s))
         (session_count (fun s => World.adminId s = validId))
         (session_findFirst_desc (fun s => World.adminId s = validId));
     mret (activeSessions, totalSessions,
           (fun s => (createdAt s, ipAddress s, userAgent s)) <$> lastSession))
    (rethrow "Failed to get session stats" "getSessionStats").

(** [now] is the clock reading of the comparison. *)
Definition isSessionValid (sessionId : string) (now : Z) : Async bool :=
  try_catch
    (session ← findById sessionId;
     match session with
     | None => mret false
     | Some session => mret (Js.date_gt (v_expiresAt session) (Some now))
     end)
    (fun error =>
       _ ← logger LError "Failed to check session validity";
       mret false).

Definition validateSessionIP (sessionId currentIP : string) : Async bool :=
  try_catch
    (session ← session_findFirst (fun s => id s = sessionId);
     match session with
     | None =>
         _ ← logger LWarn "Session not found for IP validation";
         mret false
     | Some session =>
         if negb (Js.truthy_opt (ipAddress session)) then
           _ ← logger LDebug "No IP stored for session, allowing access";
           mret true
         else
           let ipMatches := bool_decide (ipAddress session = Some currentIP) in
           _ ← logger LDebug "Session IP validation";
           mret ipMatches
     end)
    (fun error =>
       _ ← logger LError "Failed to validate session IP";
       mret false).

(** Returns [deletedCount]; [now] is the clock reading in the [where]
    clause. *)
Definition cleanupExpiredSessions (now : Z) : Async nat :=
  try_catch
    (count ← session_deleteMany (fun s => expiresAt s < now);
     _ ← logger LInfo "Expired sessions cleaned up";
     mret count)
    (rethrow "Failed to cleanup expired sessions" "cleanupExpiredSessions").

(** The guard [if (!token) throw ValidationError(msg)] of the two token
    lookups, as the validation of their input. *)
Definition tokenGuard (msg : string) (token : option string) : Outcome string :=
  match token with
  | Some t =>
      if Js.truthy t then Returned t
      else Thrown (ValidationError ERROR_CODES msg None None)
  | None => Thrown (ValidationError ERROR_CODES msg None None)
  end.

(** The checks of [updateSession] that precede its database call, as the
    validation of its input: the id, then the two guards on the update
    object. The value is the id and the [data] handed to [update]. *)
Definition updateGuards (sessionId : string)
    (updateData : option (list (string * option FieldValue))) (now : Z)
    : Outcome (string * list (string * FieldValue)) :=
  match uuidSchema sessionId with
  | Thrown e => Thrown e
  | Returned validId =>
      match updateData with
      | None | Some [] =>
          Thrown (ValidationError ERROR_CODES "Update data cannot be empty" None None)
      | Some entries =>
          match omap (fun kv : string * option FieldValue =>
                        if bool_decide (kv.1 ∈ ALLOWED_SESSION_UPDATE_FIELDS)
                        then (fun v => (kv.1, v)) <$> kv.2 else None) entries with
          | [] => Thrown (ValidationError ERROR_CODES "No valid fields to update" None None)
          | cleanData =>
              Returned (validId, (cleanData ++ [("updatedAt", VDate now)])%list)
          end
      end
  end.

End Repo.

End AdminSessionRepository.

(** ** backend/auth-service/repositories/passwordResetRepository.js *)
Module PasswordResetRepository.
Import Errors World Prisma.

Section Repo.
Context `{Env}.

Definition rethrow {A} (msg fn : string) (error : JsError) : Async A :=
  logger LError msg ≫= fun _ => throw (transformError ERROR_CODES error fn).

Definition createPasswordReset (resetData : ResetData) (newId : string) (dbNow : Z)
    : Async PasswordReset :=
  try_catch
    (validatedResetData ← lift (createPasswordResetSchema resetData);
     (* Delete any existing reset tokens for this admin *)
     _ ← reset_deleteMany (fun r => r_adminId r = rd_adminId validatedResetData);
     _ ← logger LInfo "Creating password reset token";
     newReset ← reset_create validatedResetData newId dbNow;
     _ ← logger LInfo "Password reset token created successfully";
     mret newReset)
    (rethrow "Failed to create password reset token" "createPasswordReset").

(** The [admin] relation of the [select]: the admin the reset points to. *)
Definition adminOf (w : State) (r : PasswordReset) : option Admin :=
  head (filter (fun a => a_id a = r_adminId r) (admins w)).

(** [now] is the clock reading in the [where] clause. *)
Definition findByToken (token : option string) (now : Z)
    : Async (option (PasswordReset * option Admin)) :=
  try_catch
    (match token with
     | Some t =>
         if Js.truthy t then
           reset ← reset_findFirst
                     (fun r => r_token r = t ∧ r_isUsed r = false ∧ now < r_expiresAt r);
           reset ← (fun w => (Returned ((fun r => (r, adminOf w r)) <$> reset), w));
           match reset with
           | None =>
               _ ← logger LWarn "Password reset token not found or expired";
               mret reset
           | Some _ => mret reset
           end
         else throw (ValidationError ERROR_CODES "Reset token is required" None None)
     | None => throw (ValidationError ERROR_CODES "Reset token is required" None None)
     end)
    (rethrow "Failed to find password reset by token" "findByToken").

(** [now] is the clock reading stored in [usedAt]. *)
Definition markAsUsed (resetId : string) (now : Z) : Async PasswordReset :=
  try_catch
    (validResetId ← lift (uuidSchema resetId);
     updatedReset ←
       reset_update (fun r => r_id r = validResetId)
         (fun r => {| r_id := r_id r; r_adminId := r_adminId r; r_email := r_email r;
                      r_token := r_token r; r_expiresAt := r_expiresAt r;
                      r_isUsed := true; r_usedAt := Some now;
                      r_attempts := r_attempts r; r_createdAt := r_createdAt r |});
     _ ← logger LInfo "Password reset marked as used";
     mret updatedReset)
    (rethrow "Failed to mark password reset as used" "markAsUsed").

(** [now] is the clock reading in the [where] clause. *)
Definition findActiveByAdminId (adminId : string) (now : Z)
    : Async (option PasswordReset) :=
  try_catch
    (validAdminId ← lift (uuidSchema adminId);
     reset_findFirst_desc
       (fun r => r_adminId r = validAdminId ∧ r_isUsed r = false ∧ now < r_expiresAt r))
    (rethrow "Failed to find active password reset" "findActiveByAdminId").

Definition incrementAttempts (resetId : string) : Async PasswordReset :=
  try_catch
    (validResetId ← lift (uuidSchema resetId);
     reset_update (fun r => r_id r = validResetId)
       (fun r => {| r_id := r_id r; r_adminId := r_adminId r; r_email := r_email r;
                    r_token := r_token r; r_expiresAt := r_expiresAt r;
                    r_isUsed := r_isUsed r; r_usedAt := r_usedAt r;
                    r_attempts := r_attempts r + 1; r_createdAt := r_createdAt r |}))
    (rethrow "Failed to increment reset attempts" "incrementAttempts").

(** Returns [deletedCount]; [now] is the clock reading in the [where] clause. *)
Definition cleanupExpired (now : Z) : Async nat :=
  try_catch
    (deletedResets ← reset_deleteMany (fun r => r_expiresAt r < now ∨ r_isUsed r = true);
     _ ← logger LInfo "Expired password resets cleaned up";
     mret deletedResets)
    (rethrow "Failed to cleanup expired password resets" "cleanupExpired").

(** The last reset is reduced to [createdAt], [isUsed], [expiresAt]. *)
Definition getResetStats (adminId : string) (now : Z)
    : Async (nat * nat * option (Z * bool * Z)) :=
  try_catch
    (validAdminId ← lift (uuidSchema adminId);
     '(totalResets, activeResets, lastReset) ←
       promiseAll3
         (reset_count (fun r => r_adminId r = validAdminId))
         (reset_count (fun r => r_adminId r = validAdminId ∧ r_isUsed r = false
                                ∧ now < r_expiresAt r))
         (reset_findFirst_desc (fun r => r_adminId r = validAdminId));
     mret (totalResets, activeResets,
           (fun r => (r_createdAt r, r_isUsed r, r_expiresAt r)) <$> lastReset))
    (rethrow "Failed to get password reset stats" "getResetStats").

End Repo.

End PasswordResetRepository.

(** ** frontend/src/utils/formatters.js: the validators *)
Module Formatters.

Definition allChars (p : Ascii.ascii -> bool) (s : string) : bool :=
  forallb p (String.list_ascii_of_string s).

Definition countChars (p : Ascii.ascii -> bool) (s : string) : nat :=
  length (List.filter p (String.list_ascii_of_string s)).

Definition isAt (c : Ascii.ascii) : bool := (Ascii.nat_of_ascii c =? 64)%nat.
Definition isDot (c : Ascii.ascii) : bool := (Ascii.nat_of_ascii c =? 46)%nat.
Definition isDigit (c : Ascii.ascii) : bool :=
  let n := Ascii.nat_of_ascii c in ((48 <=? n) && (n <=? 57))%nat.
(** The class [[^\s@]]. *)
Definition isPlain (c : Ascii.ascii) : bool := negb (Js.isWhiteSpace c) && negb (isAt c).
(** The class [[\d\s\-()]]. *)
Definition isPhoneChar (c : Ascii.ascii) : bool :=
  let n := Ascii.nat_of_ascii c in
  isDigit c || Js.isWhiteSpace c || (n =? 45)%nat || (n =? 40)%nat || (n =? 41)%nat.

(** [[^\s@]+\.[^\s@]+$] on the rest of the string: some dot has at least
    one character before it and one after it, and all characters are plain. *)
Fixpoint domainMatches (seenBefore : bool) (l : list Ascii.ascii) : bool :=
  match l with
  | [] => false
  | c :: rest =>
      isPlain c &&
      ((seenBefore && isDot c && negb (bool_decide (rest = [])) && forallb isPlain rest)
       || domainMatches true rest)
  end.

(** [/^[^\s@]+@[^\s@]+\.[^\s@]+$/.test(l)]; [seenLocal] tells whether a
    plain character was read already. *)
Fixpoint emailMatches (seenLocal : bool) (l : list Ascii.ascii) : bool :=
  match l with
  | [] => false
  | c :: rest =>
      if isAt c then seenLocal && domainMatches false rest
      else isPlain c && emailMatches true rest
  end.

Definition isValidEmail (email : string) : bool :=
  if negb (Js.truthy email) then false
  else emailMatches false (String.list_ascii_of_string email).

(** [/^\+?[\d\s\-()]{10,}$/.test(phone)]. *)
Definition phoneRegex (phone : string) : bool :=
  let body :=
    match phone with
    | String c rest => if (Ascii.nat_of_ascii c =? 43)%nat then rest else phone
    | EmptyString => phone
    end in
  allChars isPhoneChar body && (10 <=? String.length body)%nat.

Definition isValidPhone (phone : string) : bool :=
  if negb (Js.truthy phone) then false
  else
    (* phone.replace(/\D/g, '') keeps the digits *)
    let cleanedPhoneLength := countChars isDigit phone in
    phoneRegex phone && (10 <=? cleanedPhoneLength)%nat.

End Formatters.

(** ** frontend/src/store/studentStore.js: the signup form store *)
Module StudentStore.
Import Formatters.

(** What [createSignup] posts to [/api/students/signup]. *)
Record SignupData := {
  sd_classType : option string;
  sd_email : option string;
  sd_phone : option string;
}.

(** The rejection value built by the response interceptor of
    services/api.js. *)
Record ApiError := {
  err_message : option string;
  err_code : option string;
  err_status : option Z;
}.

(** The response body after the interceptor; [data] is kept as JSON text. *)
Record ApiResponse := { data : option string }.

(** [@utils/constants] is not part of the sources at hand: the messages are
    parameters. *)
Class Constants := {
  REQUIRED_FIELD : string -> string;
  INVALID_EMAIL : string;
  INVALID_PHONE : string;
  SUBMISSION_ERROR : string;
}.

Record Store := {
  selectedClassType : option string;
  formData_email : string;
  formData_phone : string;
  errors : gmap string string;
  isSubmitting : bool;
  submitSuccess : bool;
  submitError : option string;
  signupResult : option string;
  showConfirmation : bool;
}.

Definition set_errors (e : gmap string string) (st : Store) : Store :=
  {| selectedClassType := selectedClassType st; formData_email := formData_email st;
     formData_phone := formData_phone st; errors := e; isSubmitting := isSubmitting st;
     submitSuccess := submitSuccess st; submitError := submitError st;
     signupResult := signupResult st; showConfirmation := showConfirmation st |}.

Definition set_submission (submitting success : bool) (err result : option string)
    (st : Store) : Store :=
  {| selectedClassType := selectedClassType st; formData_email := formData_email st;
     formData_phone := formData_phone st; errors := errors st; isSubmitting := submitting;
     submitSuccess := success; submitError := err;
     signupResult := result; showConfirmation := showConfirmation st |}.

Section Store.
Context `{Constants}.

(** The [errors] object [validateForm] builds. *)
Definition formErrors (st : Store) : gmap string string :=
  let errors : gmap string string := ∅ in
  let errors :=
    if negb (Js.truthy_opt (selectedClassType st))
    then <["classType" := "Please select a training type"]> errors else errors in
  let hasEmail :=
    Js.truthy (formData_email st) && negb (bool_decide (Js.trim (formData_email st) = "")) in
  let hasPhone :=
    Js.truthy (formData_phone st) && negb (bool_decide (Js.trim (formData_phone st) = "")) in
  let errors :=
    if negb hasEmail && negb hasPhone then
      <["phone" := REQUIRED_FIELD "Email or Phone"]>
        (<["email" := REQUIRED_FIELD "Email or Phone"]>
           (<["contact" := "Please provide either email or phone number"]> errors))
    else errors in
  let errors :=
    if hasEmail && negb (isValidEmail (formData_email st))
    then <["email" := INVALID_EMAIL]> errors else errors in
  let errors :=
    if hasPhone && negb (isValidPhone (formData_phone st))
    then <["phone" := INVALID_PHONE]> errors else errors in
  errors.

(** [validateForm()]: stores the errors and tells whether there are none. *)
Definition validateForm (st : Store) : bool * Store :=
  let errors := formErrors st in
  (bool_decide (size errors = 0%nat), set_errors errors st).

Definition showConfirmationScreen (st : Store) : bool * Store :=
  let '(isValid, st) := validateForm st in
  if isValid then
    (isValid,
     {| selectedClassType := selectedClassType st; formData_email := formData_email st;
        formData_phone := formData_phone st; errors := errors st;
        isSubmitting := isSubmitting st; submitSuccess := submitSuccess st;
        submitError := submitError st; signupResult := signupResult st;
        showConfirmation := true |})
  else (isValid, st).

Definition includesOpt (m : option string) (q : string) : bool :=
  match m with Some s => Js.includes s q | None => false end.

Definition alreadyRegistered : string :=
  "This email or phone number is already registered. Please use a different contact method.".

(** The message the [catch] block of [submitSignup] stores. *)
Definition submitErrorMessage (error : ApiError) : string :=
  let errorMessage :=
    match err_message error with
    | Some m => if Js.truthy m then m else SUBMISSION_ERROR
    | None => SUBMISSION_ERROR
    end in
  if bool_decide (err_code error = Some "P2002")
     || includesOpt (err_message error) "Unique constraint"
  then alreadyRegistered
  else if bool_decide (err_status error = Some 409)
          || includesOpt (err_message error) "already exists"
  then alreadyRegistered
  else errorMessage.

(** [formData.email || null]. *)
Definition orNull (s : string) : option string :=
  if Js.truthy s then Some s else None.

(** [submitSignup()]. [post] is the outcome the server gives to a posted
    signup; the third component lists the calls of [createSignup] made,
    in order. The reminder date computed before the call is not used by
    the source and is left out. *)
Definition submitSignup (post : SignupData -> ApiError + ApiResponse) (st : Store)
    : bool * Store * list SignupData :=
  let formData_email0 := formData_email st in
  let formData_phone0 := formData_phone st in
  let selectedClassType0 := selectedClassType st in
  let '(ok, st) := validateForm st in
  if negb ok then (false, st, [])
  else
    let st := set_submission true (submitSuccess st) None (signupResult st) st in
    let signupData :=
      {| sd_classType := selectedClassType0;
         sd_email := orNull formData_email0;
         sd_phone := orNull formData_phone0 |} in
    match post signupData with
    | inr result =>
        (true, set_submission false true None (data result) st, [signupData])
    | inl error =>
        (false,
         set_submission false false (Some (submitErrorMessage error)) (signupResult st) st,
         [signupData])
    end.

End Store.

End StudentStore.

(** ** frontend/src/store/studentStore.js: the admin dashboard store *)
Module AdminStore.

(** A JavaScript value as a property of a signup holds it: the backend
    serialises every column as a string or as [null], so the numeric and
    [Date] branch of the comparator is never entered; [student] is an
    object. *)
Inductive JsValue :=
| VUndefined
| VNull
| VStr (s : string)
| VObject.

(** [signup.student]. *)
Record Student := {
  s_email : option string;
  s_phone : option string;
}.

(** One element of [allSignups], as the backend serialises it. *)
Record Signup := {
  id : string;
  classType : string;
  status : string;
  createdAt : string;
  reminderScheduledDate : string;
  reminderSentAt : option string;
  student : option Student;
}.

(** [signup[field]]. *)
Definition getField (field : string) (s : Signup) : JsValue :=
  match field with
  | "id" => VStr (id s)
  | "classType" => VStr (classType s)
  | "status" => VStr (status s)
  | "createdAt" => VStr (createdAt s)
  | "reminderScheduledDate" => VStr (reminderScheduledDate s)
  | "reminderSentAt" => match reminderSentAt s with Some d => VStr d | None => VNull end
  | "student" => match student s with Some _ => VObject | None => VNull end
  | _ => VUndefined
  end.

Record DateRange := { start : option string; end_ : option string }.

Record Filters := {
  f_classType : option string;
  f_status : option string;
  dateRange : DateRange;
  reminderStatus : option string;
}.

Record SortConfig := { field : string; direction : string }.

Record Store := {
  allSignups : list Signup;
  currentPage : Z;
  pageSize : Z;
  filters : Filters;
  searchQuery : string;
  sortConfig : SortConfig;
}.

(** The parts of the platform and of [@utils/constants] the getters rely
    on: the [Date] constructor on a string, [String.prototype.toLowerCase],
    [String.prototype.localeCompare], [Array.prototype.sort] with a
    comparator, and the constant [SIGNUP_STATUS.FAILED]. *)
Class Platform := {
  newDate : string -> Js.Date;
  toLowerCase : string -> string;
  localeCompare : string -> string -> Z;
  Array_sort : (Signup -> Signup -> Z) -> list Signup -> list Signup;
  SIGNUP_STATUS_FAILED : string;
}.

Inductive FilterKind := ByClassType | ByStatus | ByDateRange | ByReminderStatus.

(** [g] keeps the signups that satisfy a predicate of the signup alone. *)
Inductive Keeps (g : list Signup -> list Signup) : Prop :=
| keeps (P : Signup -> Prop) (dec : ∀ s, Decision (P s))
    (Hg : ∀ l, g l = filter P l).

(** A number the getters can return. *)
Inductive JsNumber :=
| Num (n : Z)
| Infinity
| NaN.

(** [Math.ceil(a / b)] for integers [a >= 0] and [b]. *)
Definition Math_ceil_div (a b : Z) : JsNumber :=
  if b =? 0 then (if a =? 0 then NaN else Infinity)
  else Num (- ((- a) / b)).

(** [l.slice(start, end)] for integer arguments. *)
Definition slice {A} (l : list A) (start end_ : Z) : list A :=
  let len := Z.of_nat (length l) in
  let k := if start <? 0 then Z.max (len + start) 0 else Z.min start len in
  let final := if end_ <? 0 then Z.max (len + end_) 0 else Z.min end_ len in
  take (Z.to_nat (final - k)) (drop (Z.to_nat k) l).

Section Getters.
Context `{Platform}.

(** The class type stage of [getFilteredAndSearchedSignups]. *)
Definition applyClassTypeFilter (f : Filters) (filtered : list Signup) : list Signup :=
  if Js.truthy_opt (f_classType f)
  then filter (fun signup => Some (classType signup) = f_classType f) filtered
  else filtered.

(** The status stage. *)
Definition applyStatusFilter (f : Filters) (filtered : list Signup) : list Signup :=
  if Js.truthy_opt (f_status f)
  then filter (fun signup => Some (status signup) = f_status f) filtered
  else filtered.

(** [filters.dateRange.start ? new Date(filters.dateRange.start) : null]. *)
Definition boundOf (b : option string) : option Js.Date :=
  match b with
  | Some s => if Js.truthy s then Some (newDate s) else None
  | None => None
  end.

Definition inDateRange (f : Filters) (signup : Signup) : bool :=
  let signupDate := newDate (createdAt signup) in
  let start := boundOf (start (dateRange f)) in
  let end_ := boundOf (end_ (dateRange f)) in
  if match start with Some d => Js.date_lt signupDate d | None => false end then false
  else if match end_ with Some d => Js.date_gt signupDate d | None => false end then false
  else true.

(** The date range stage. *)
Definition applyDateRangeFilter (f : Filters) (filtered : list Signup) : list Signup :=
  if Js.truthy_opt (start (dateRange f)) || Js.truthy_opt (end_ (dateRange f))
  then filter (fun signup => inDateRange f signup) filtered
  else filtered.

Definition matchesReminderStatus (f : Filters) (signup : Signup) : bool :=
  if bool_decide (reminderStatus f = Some "sent")
  then negb (bool_decide (reminderSentAt signup = None))
  else if bool_decide (reminderStatus f = Some "pending")
  then bool_decide (reminderSentAt signup = None)
  else if bool_decide (reminderStatus f = Some "failed")
  then bool_decide (status signup = SIGNUP_STATUS_FAILED)
  else true.

(** The reminder status stage. *)
Definition applyReminderStatusFilter (f : Filters) (filtered : list Signup) : list Signup :=
  if Js.truthy_opt (reminderStatus f)
  then filter (fun signup => matchesReminderStatus f signup) filtered
  else filtered.

(** [x?.toLowerCase() || '']. *)
Definition lowerOrEmpty (o : option string) : string :=
  match o with Some s => toLowerCase s | None => "" end.

Definition matchesSearch (query : string) (signup : Signup) : bool :=
  let email := lowerOrEmpty (student signup ≫= s_email) in
  let phone := lowerOrEmpty (student signup ≫= s_phone) in
  let classType := toLowerCase (classType signup) in
  let status := toLowerCase (status signup) in
  Js.includes email query || Js.includes phone query
  || Js.includes classType query || Js.includes status query.

(** The search stage. *)
Definition applySearch (searchQuery : string) (filtered : list Signup) : list Signup :=
  if Js.truthy searchQuery && negb (bool_decide (Js.trim searchQuery = ""))
  then
    let query := Js.trim (toLowerCase searchQuery) in
    filter (fun signup => matchesSearch query signup) filtered
  else filtered.

(** The comparator handed to [sort]. *)
Definition compareSignups (c : SortConfig) (a b : Signup) : Z :=
  let aValue := getField (field c) a in
  let bValue := getField (field c) b in
  match aValue, bValue with
  | (VNull | VUndefined), _ => 1
  | _, (VNull | VUndefined) => -1
  | _, _ =>
      let comparison :=
        match aValue, bValue with
        | VStr x, VStr y => localeCompare x y
        | _, _ => 0
        end in
      if bool_decide (direction c = "asc") then comparison else - comparison
  end.

Definition getFilteredAndSearchedSignups (st : Store) : list Signup :=
  let filtered := allSignups st in
  let filtered := applyClassTypeFilter (filters st) filtered in
  let filtered := applyStatusFilter (filters st) filtered in
  let filtered := applyDateRangeFilter (filters st) filtered in
  let filtered := applyReminderStatusFilter (filters st) filtered in
  let filtered := applySearch (searchQuery st) filtered in
  Array_sort (compareSignups (sortConfig st)) filtered.

(** The four filters of the dashboard, each with the stage of
    [getFilteredAndSearchedSignups] that applies it. *)
Definition applyFilter (k : FilterKind) (f : Filters) (filtered : list Signup)
  : list Signup :=
  match k with
  | ByClassType => applyClassTypeFilter f filtered
  | ByStatus => applyStatusFilter f filtered
  | ByDateRange => applyDateRangeFilter f filtered
  | ByReminderStatus => applyReminderStatusFilter f filtered
  end.

Definition getPaginatedSignups (st : Store) : list Signup :=
  let filtered := getFilteredAndSearchedSignups st in
  let startIndex := (currentPage st - 1) * pageSize st in
  let endIndex := startIndex + pageSize st in
  slice filtered startIndex endIndex.

Definition getTotalPages (st : Store) : JsNumber :=
  let filtered := getFilteredAndSearchedSignups st in
  Math_ceil_div (Z.of_nat (length filtered)) (pageSize st).

Definition getTotalCount (st : Store) : nat :=
  length (getFilteredAndSearchedSignups st).

(** [setCurrentPage(page)]. *)
Definition setCurrentPage (page : Z) (st : Store) : Store :=
  {| allSignups := allSignups st; currentPage := page; pageSize := pageSize st;
     filters := filters st; searchQuery := searchQuery st; sortConfig := sortConfig st |}.

End Getters.

End AdminStore.

(** ** Concrete instances of the parts outside the sources, and sample data *)
Module Samples.
Import Errors World Prisma.

(** Error codes named after their keys. *)
Definition codes : ErrorCodes :=
  {| VALIDATION_ERROR := "VALIDATION_ERROR"; CONFLICT_ERROR := "CONFLICT_ERROR";
     NOT_FOUND := "NOT_FOUND"; BUSINESS_LOGIC_ERROR := "BUSINESS_LOGIC_ERROR";
     DATABASE_ERROR := "DATABASE_ERROR"; AUTHENTICATION_ERROR := "AUTHENTICATION_ERROR";
     AUTHORIZATION_ERROR := "AUTHORIZATION_ERROR"; UNIQUE_VIOLATION := "UNIQUE_VIOLATION";
     RECORD_NOT_FOUND := "RECORD_NOT_FOUND"; DB_OPERATION_FAILED := "DB_OPERATION_FAILED" |}.

Definition isHex (c : Ascii.ascii) : bool :=
  let n := Ascii.nat_of_ascii c in
  ((48 <=? n) && (n <=? 57) || (65 <=? n) && (n <=? 70) || (97 <=? n) && (n <=? 102))%nat.

(** The shape 8-4-4-4-12 of a UUID. *)
Fixpoint uuidShape (i : nat) (l : list Ascii.ascii) : bool :=
  match l with
  | [] => (i =? 36)%nat
  | c :: rest =>
      (if bool_decide (i ∈ [8; 13; 18; 23]%nat)
       then (Ascii.nat_of_ascii c =? 45)%nat else isHex c)
      && uuidShape (S i) rest
  end.

Definition zodError (msg : string) : JsError :=
  {| name := "ZodError"; message := msg; code := None; metadata := None;
     instanceofZodError := true;
     errors := Some [ {| zpath := Some []; zmessage := msg; zcode := "invalid_string" |} ];
     issues := Some [ {| zpath := Some []; zmessage := msg; zcode := "invalid_string" |} ];
     meta_target := None |}.

(** [z.string().uuid()]. *)
Definition uuid (s : string) : Outcome string :=
  if uuidShape 0 (String.list_ascii_of_string s) then Returned s
  else Thrown (zodError "Invalid uuid").

Definition allColumns : SessionSelect :=
  {| sel_id := true; sel_adminId := true; sel_token := true; sel_refreshToken := true;
     sel_expiresAt := true; sel_ipAddress := true; sel_userAgent := true;
     sel_createdAt := true; sel_updatedAt := true |}.

Definition publicColumns : SessionSelect :=
  {| sel_id := true; sel_adminId := true; sel_token := false; sel_refreshToken := false;
     sel_expiresAt := true; sel_ipAddress := true; sel_userAgent := true;
     sel_createdAt := true; sel_updatedAt := true |}.

#[export] Instance env : Env :=
  {| ERROR_CODES := codes;
     uuidSchema := uuid;
     createSessionSchema := fun d =>
       match uuid (d_adminId d) with Returned _ => Returned d | Thrown e => Thrown e end;
     createPasswordResetSchema := fun d =>
       match uuid (rd_adminId d) with Returned _ => Returned d | Thrown e => Thrown e end;
     SESSION_FIELDS_withTokens := allColumns;
     SESSION_FIELDS_public := publicColumns;
     ALLOWED_SESSION_UPDATE_FIELDS := ["token"; "refreshToken"; "expiresAt"] |}.

Definition alice : string := "11111111-1111-4111-8111-111111111111".
Definition bob : string := "22222222-2222-4222-8222-222222222222".

Definition session (i a : string) (exp created : Z) : AdminSession :=
  {| id := i; adminId := a; token := "access-" +:+ i; refreshToken := "refresh-" +:+ i;
     expiresAt := exp; ipAddress := Some "10.0.0.1"; userAgent := None;
     createdAt := created; updatedAt := created |}.

Definition s1 : AdminSession := session "aaaaaaaa-aaaa-4aaa-8aaa-aaaaaaaaaaa1" alice 1000 10.
Definition s2 : AdminSession := session "aaaaaaaa-aaaa-4aaa-8aaa-aaaaaaaaaaa2" alice 3000 20.
Definition s3 : AdminSession := session "aaaaaaaa-aaaa-4aaa-8aaa-aaaaaaaaaaa3" bob 500 30.
Definition s4 : AdminSession := session "aaaaaaaa-aaaa-4aaa-8aaa-aaaaaaaaaaa4" bob 4000 40.

Definition reset (i a tok : string) (exp : Z) (used : bool) : PasswordReset :=
  {| r_id := i; r_adminId := a; r_email := "admin@example.org"; r_token := tok;
     r_expiresAt := exp; r_isUsed := used; r_usedAt := None; r_attempts := 0;
     r_createdAt := 5 |}.

Definition world : State :=
  {| adminSessions := [s1; s2; s3; s4];
     passwordResets := [reset "bbbbbbbb-bbbb-4bbb-8bbb-bbbbbbbbbbb1" alice "tok-a" 2500 false];
     admins := [ {| a_id := alice; a_email := "alice@example.org"; a_name := "Alice";
                    a_role := "admin"; a_isActive := true |} ];
     faults := [];
     log := [] |}.

(** The same tables behind a database that is down for the coming call. *)
Definition brokenWorld : State :=
  set_faults [Some (prismaError "P1001" "Can't reach database server")] world.

(** A unique-constraint violation on [email], as Prisma raises it. *)
Definition p2002 : JsError :=
  {| name := "PrismaClientKnownRequestError";
     message := "Unique constraint failed on the fields: (`email`)";
     code := Some "P2002"; metadata := None; instanceofZodError := false;
     errors := None; issues := None; meta_target := Some ["email"] |}.

#[export] Instance messages : StudentStore.Constants :=
  {| StudentStore.REQUIRED_FIELD := fun f => f +:+ " is required";
     StudentStore.INVALID_EMAIL := "Please enter a valid email address";
     StudentStore.INVALID_PHONE := "Please enter a valid phone number";
     StudentStore.SUBMISSION_ERROR := "Failed to submit. Please try again." |}.

Definition blankForm : StudentStore.Store :=
  {| StudentStore.selectedClassType := Some "TYPE_1";
     StudentStore.formData_email := "  ";
     StudentStore.formData_phone := "";
     StudentStore.errors := ∅;
     StudentStore.isSubmitting := false;
     StudentStore.submitSuccess := false;
     StudentStore.submitError := None;
     StudentStore.signupResult := None;
     StudentStore.showConfirmation := false |}.

(** A server that accepts every signup. *)
Definition accepting (d : StudentStore.SignupData)
    : StudentStore.ApiError + StudentStore.ApiResponse :=
  inr {| StudentStore.data := Some "{}" |}.

(** A platform for the dashboard: timestamps written in decimal, ASCII
    lower-casing, code-unit order, and a stable sort. *)
Definition digitsValue (s : string) : Js.Date :=
  if Js.truthy s && Formatters.allChars Formatters.isDigit s
  then Some (fold_left (fun acc c => 10 * acc + Z.of_nat (Ascii.nat_of_ascii c) - 48)
               (String.list_ascii_of_string s) 0)
  else None.

Definition lowerAscii (c : Ascii.ascii) : Ascii.ascii :=
  let n := Ascii.nat_of_ascii c in
  if ((65 <=? n) && (n <=? 90))%nat then Ascii.ascii_of_nat (n + 32) else c.

Definition lower (s : string) : string :=
  String.string_of_list_ascii (lowerAscii <$> String.list_ascii_of_string s).

Definition codeUnitOrder (x y : string) : Z :=
  match String.compare x y with Lt => -1 | Eq => 0 | Gt => 1 end.

(** Insertion before the first element that does not sort before [x]. *)
Fixpoint insertSorted {A} (cmp : A -> A -> Z) (x : A) (l : list A) : list A :=
  match l with
  | [] => [x]
  | y :: rest =>
      if decide (cmp x y <= 0) then x :: y :: rest
      else y :: insertSorted cmp x rest
  end.

(** A stable sort, as [Array.prototype.sort] is: elements that compare
    equal keep their order. *)
Definition stableSort {A} (cmp : A -> A -> Z) (l : list A) : list A :=
  foldr (insertSorted cmp) [] l.

#[export] Instance platform : AdminStore.Platform :=
  {| AdminStore.newDate := digitsValue;
     AdminStore.toLowerCase := lower;
     AdminStore.localeCompare := codeUnitOrder;
     AdminStore.Array_sort := fun cmp l => stableSort cmp l;
     AdminStore.SIGNUP_STATUS_FAILED := "FAILED" |}.

Definition signup (i ty st created : string) (sent : option string) : AdminStore.Signup :=
  {| AdminStore.id := i; AdminStore.classType := ty; AdminStore.status := st;
     AdminStore.createdAt := created; AdminStore.reminderScheduledDate := "9000";
     AdminStore.reminderSentAt := sent;
     AdminStore.student := Some {| AdminStore.s_email := Some (i +:+ "@example.org");
                                   AdminStore.s_phone := None |} |}.

Definition dashboard : AdminStore.Store :=
  {| AdminStore.allSignups :=
       [ signup "u1" "TYPE_1" "PENDING" "100" None;
         signup "u2" "TYPE_2" "SENT" "200" (Some "250");
         signup "u3" "TYPE_1" "FAILED" "300" None;
         signup "u4" "TYPE_1" "PENDING" "400" None;
         signup "u5" "TYPE_1" "SENT" "500" (Some "550");
         signup "u6" "TYPE_1" "PENDING" "600" None ];
     AdminStore.currentPage := 1;
     AdminStore.pageSize := 2;
     AdminStore.filters :=
       {| AdminStore.f_classType := Some "TYPE_1"; AdminStore.f_status := None;
          AdminStore.dateRange := {| AdminStore.start := None; AdminStore.end_ := None |};
          AdminStore.reminderStatus := None |};
     AdminStore.searchQuery := "";
     AdminStore.sortConfig := {| AdminStore.field := "createdAt";
                                 AdminStore.direction := "desc" |} |}.

End Samples.

(** ** Further observations on the error codes *)
Module ErrorCodesSpec.
Import Errors.

(** The codes [transformPrismaError], [transformZodError] and the fallback
    of [transformError] put on their errors are all left to the
    custom-error branch. *)
Definition plainCodes (c : ErrorCodes) : Prop :=
  plainCode (VALIDATION_ERROR c) ∧ plainCode (UNIQUE_VIOLATION c)
  ∧ plainCode (RECORD_NOT_FOUND c) ∧ plainCode (BUSINESS_LOGIC_ERROR c)
  ∧ plainCode (DB_OPERATION_FAILED c).

End ErrorCodesSpec.

(** ** frontend/src/utils/formatters.js: display helpers *)
Module FormattersMore.
Import Formatters.

(** The quotation mark, code unit 34. *)
Definition dquote : Ascii.ascii := Ascii.ascii_of_nat 34.

Definition chars (s : string) : list Ascii.ascii := String.list_ascii_of_string s.

(** The single character of a one-character string. *)
Definition charOf (s : string) : Ascii.ascii :=
  match s with
  | String c _ => c
  | EmptyString => Ascii.zero
  end.

(** [phone.replace(/\D/g, '')]: the digits of the phone, in order. *)
Definition digitsOf (s : string) : list Ascii.ascii :=
  List.filter isDigit (String.list_ascii_of_string s).

(** [formatPhone(phone)]; [None] is [null] or [undefined]. *)
Definition formatPhone (phone : option string) : string :=
  match phone with
  | None => "-"
  | Some p =>
      if negb (Js.truthy p) then "-"
      else
        let cleaned := digitsOf p in
        if (length cleaned =? 10)%nat then
          (* `(${cleaned.slice(0, 3)}) ${cleaned.slice(3, 6)}-${cleaned.slice(6)}` *)
          String.string_of_list_ascii
            (chars "(" ++ take 3 cleaned
               ++ chars ") " ++ take 3 (drop 3 cleaned)
               ++ chars "-" ++ drop 6 cleaned)%list
        else p
  end.

(** [s.replace(/c/g, r)] for a single character [c]. *)
Fixpoint replaceAll (c : Ascii.ascii) (r : list Ascii.ascii) (l : list Ascii.ascii)
  : list Ascii.ascii :=
  match l with
  | [] => []
  | x :: rest =>
      if Ascii.eqb x c then (r ++ replaceAll c r rest)%list
      else x :: replaceAll c r rest
  end.

(** [sanitizeInput(input)]: the six replacements, in the order of the
    source. *)
Definition sanitizeInput (input : option string) : string :=
  match input with
  | None => ""
  | Some i =>
      if negb (Js.truthy i) then ""
      else
        String.string_of_list_ascii
          (replaceAll (charOf "/") (chars "&#x2F;")
             (replaceAll (charOf "'") (chars "&#x27;")
                (replaceAll dquote (chars "&quot;")
                   (replaceAll (charOf ">") (chars "&gt;")
                      (replaceAll (charOf "<") (chars "&lt;")
                         (replaceAll (charOf "&") (chars "&amp;") (chars i)))))))
  end.

(** The characters [sanitizeInput] is there to remove. *)
Definition isMarkupChar (c : Ascii.ascii) : bool :=
  let n := Ascii.nat_of_ascii c in
  ((n =? 60) || (n =? 62) || (n =? 34) || (n =? 39) || (n =? 47))%nat.

End FormattersMore.

(** ** The CSV export: [escapeCSVField] of [convertToCSV] *)
Module CsvExport.
Import FormattersMore.

Definition needsQuoting (stringField : string) : bool :=
  Js.includes stringField ","
  || Js.includes stringField (String dquote EmptyString)
  || Js.includes stringField (String (Ascii.ascii_of_nat 10) EmptyString).

Definition escapeCSVField (field : string) : string :=
  let stringField := field in
  if needsQuoting stringField then
    String.string_of_list_ascii
      (dquote :: replaceAll dquote [dquote; dquote] (chars stringField) ++ [dquote])%list
  else stringField.

End CsvExport.

(** ** frontend/src/services/api.js: the response interceptor *)
Module Api.
Import Utils StudentStore.

(** The error axios rejects with: the response of the server when there is
    one, and axios' own message and code. *)
Record AxiosError := {
  response : option Response;
  ax_message : option string;
  ax_code : option string;
}.

(** [a || b] on nullable strings. *)
Definition orElse (a b : option string) : option string :=
  if Js.truthy_opt a then a else b.

(** The rejection handler: the [errorResponse] it rejects with ([data] is
    left out). *)
Definition onRejected (error : AxiosError) : ApiError :=
  {| err_message :=
       orElse (orElse ((fun r => e_message (Utils.error (json r))) <$> response error)
                      (ax_message error))
              (Some "An error occurred");
     err_code := orElse (response error ≫= fun r => e_code (Utils.error (json r)))
                        (ax_code error);
     err_status := status <$> response error |}.

End Api.

(** ** frontend/src/store/studentStore.js: the form, observed *)
Module StudentStoreSpec.
Import StudentStore.

(** The test [validateForm] applies to a contact field:
    [field && field.trim() !== '']. *)
Definition provided (fieldValue : string) : bool :=
  Js.truthy fieldValue && negb (bool_decide (Js.trim fieldValue = "")).

End StudentStoreSpec.

(** ** frontend/src/store/studentStore.js: actions of the dashboard store *)
Module AdminStoreActions.
Import AdminStore.

(** [a < b] for an integer and a number. *)
Definition ltNumber (a : Z) (b : JsNumber) : bool :=
  match b with
  | Num n => a <? n
  | Infinity => true
  | NaN => false
  end.

Definition set_page (page : Z) (st : Store) : Store :=
  {| allSignups := allSignups st; currentPage := page; pageSize := pageSize st;
     filters := filters st; searchQuery := searchQuery st; sortConfig := sortConfig st |}.

Section Actions.
Context `{Platform}.

Definition nextPage (st : Store) : Store :=
  let totalPages := getTotalPages st in
  if ltNumber (currentPage st) totalPages then set_page (currentPage st + 1) st else st.

Definition previousPage (st : Store) : Store :=
  if 1 <? currentPage st then set_page (currentPage st - 1) st else st.

Definition setPageSize (size : Z) (st : Store) : Store :=
  {| allSignups := allSignups st; currentPage := 1; pageSize := size;
     filters := filters st; searchQuery := searchQuery st; sortConfig := sortConfig st |}.

Definition setSearchQuery (query : string) (st : Store) : Store :=
  {| allSignups := allSignups st; currentPage := 1; pageSize := pageSize st;
     filters := filters st; searchQuery := query; sortConfig := sortConfig st |}.

Definition clearFilters (st : Store) : Store :=
  {| allSignups := allSignups st; currentPage := 1; pageSize := pageSize st;
     filters := {| f_classType := None; f_status := None;
                   dateRange := {| start := None; end_ := None |};
                   reminderStatus := None |};
     searchQuery := searchQuery st; sortConfig := sortConfig st |}.

Definition getActiveFiltersCount (st : Store) : nat :=
  let count := 0%nat in
  let count := if Js.truthy_opt (f_classType (filters st)) then S count else count in
  let count := if Js.truthy_opt (f_status (filters st)) then S count else count in
  let count :=
    if Js.truthy_opt (start (dateRange (filters st)))
       || Js.truthy_opt (end_ (dateRange (filters st)))
    then S count else count in
  let count := if Js.truthy_opt (reminderStatus (filters st)) then S count else count in
  let count :=
    if Js.truthy (searchQuery st) && negb (bool_decide (Js.trim (searchQuery st) = ""))
    then S count else count in
  count.

(** [toggleSignupSelection(signupId)], on [selectedSignupIds]. *)
Definition toggleSignupSelection (signupId : string) (selectedSignupIds : list string)
  : list string :=
  let isSelected := bool_decide (signupId ∈ selectedSignupIds) in
  if isSelected then filter (fun i => i ≠ signupId) selectedSignupIds
  else (selectedSignupIds ++ [signupId])%list.

(** [selectAllSignups()]: the new [selectedSignupIds]. *)
Definition selectAllSignups (st : Store) : list string :=
  id <$> getFilteredAndSearchedSignups st.

End Actions.

End AdminStoreActions.

(** ** frontend/src/components/admin/Pagination.jsx: the computed values *)
Module PaginationComponent.
Import AdminStore AdminStoreActions.

Definition startIndex (currentPage pageSize : Z) : Z := (currentPage - 1) * pageSize + 1.

Definition endIndex (currentPage pageSize totalCount : Z) : Z :=
  Z.min (currentPage * pageSize) totalCount.

Definition canGoPrevious (currentPage : Z) : bool := 1 <? currentPage.

Definition canGoNext (currentPage : Z) (totalPages : JsNumber) : bool :=
  ltNumber currentPage totalPages.

End PaginationComponent.

(** ** frontend/src/store/studentStore.js: the reminder store *)
Module ReminderStore.

Record Scheduled := {
  sc_signupId : string;
  sc_scheduledDate : Z;
  sc_createdAt : Z;
}.

Record Sent := {
  se_signupId : string;
  se_sentAt : Z;
}.

Record Failed := {
  fa_signupId : string;
  fa_failedAt : Z;
  fa_error : string;
}.

Record Store := {
  scheduledReminders : list Scheduled;
  sendingReminders : list string;
  sentReminders : list Sent;
  failedReminders : list Failed;
}.

(** What [getReminderBySignupId] returns; the [status] property of the
    object is the constructor. *)
Inductive Reminder :=
| IsSending
| IsSent (r : Sent)
| IsFailed (r : Failed)
| IsScheduled (r : Scheduled).

(** [now] is the clock reading stored in [createdAt]. *)
Definition scheduleReminder (signupId : string) (reminderDate now : Z) (st : Store) : Store :=
  {| scheduledReminders :=
       (scheduledReminders st
        ++ [ {| sc_signupId := signupId; sc_scheduledDate := reminderDate;
                sc_createdAt := now |} ])%list;
     sendingReminders := sendingReminders st;
     sentReminders := sentReminders st;
     failedReminders := failedReminders st |}.

Definition markReminderAsSending (signupId : string) (st : Store) : Store :=
  {| scheduledReminders := scheduledReminders st;
     sendingReminders := (sendingReminders st ++ [signupId])%list;
     sentReminders := sentReminders st;
     failedReminders := failedReminders st |}.

(** [now] is the clock reading stored in [sentAt]. *)
Definition markReminderAsSent (signupId : string) (now : Z) (st : Store) : Store :=
  {| scheduledReminders := scheduledReminders st;
     sendingReminders := filter (fun i => i ≠ signupId) (sendingReminders st);
     sentReminders :=
       (sentReminders st ++ [ {| se_signupId := signupId; se_sentAt := now |} ])%list;
     failedReminders := failedReminders st |}.

(** [now] is the clock reading stored in [failedAt]. *)
Definition markReminderAsFailed (signupId error : string) (now : Z) (st : Store) : Store :=
  {| scheduledReminders := scheduledReminders st;
     sendingReminders := filter (fun i => i ≠ signupId) (sendingReminders st);
     sentReminders := sentReminders st;
     failedReminders :=
       (failedReminders st
        ++ [ {| fa_signupId := signupId; fa_failedAt := now; fa_error := error |} ])%list |}.

Definition retryFailedReminder (signupId : string) (st : Store) : Store :=
  {| scheduledReminders := scheduledReminders st;
     sendingReminders := (sendingReminders st ++ [signupId])%list;
     sentReminders := sentReminders st;
     failedReminders := filter (fun r => fa_signupId r ≠ signupId) (failedReminders st) |}.

Definition clearAllReminders (st : Store) : Store :=
  {| scheduledReminders := []; sendingReminders := [];
     sentReminders := []; failedReminders := [] |}.

(** [l.find(p)]. *)
Definition find {A} (P : A -> Prop) `{!∀ x, Decision (P x)} (l : list A) : option A :=
  head (filter P l).

Definition getReminderBySignupId (signupId : string) (st : Store) : option Reminder :=
  if bool_decide (signupId ∈ sendingReminders st) then Some IsSending
  else
    match find (fun r => se_signupId r = signupId) (sentReminders st) with
    | Some sent => Some (IsSent sent)
    | None =>
        match find (fun r => fa_signupId r = signupId) (failedReminders st) with
        | Some failed => Some (IsFailed failed)
        | None =>
            match find (fun r => sc_signupId r = signupId) (scheduledReminders st) with
            | Some scheduled => Some (IsScheduled scheduled)
            | None => None
            end
        end
    end.

Definition getScheduledRemindersCount (st : Store) : nat := length (scheduledReminders st).
Definition getSentRemindersCount (st : Store) : nat := length (sentReminders st).
Definition getFailedRemindersCount (st : Store) : nat := length (failedReminders st).
Definition getPendingRemindersCount (st : Store) : nat :=
  (length (scheduledReminders st) + length (sendingReminders st))%nat.

End ReminderStore.

(** ** More sample data *)
Module MoreSamples.
Import World Prisma Samples.

Definition loginData : SessionData :=
  {| d_adminId := alice; d_token := "access-new"; d_refreshToken := "refresh-new";
     d_expiresAt := 9000; d_ipAddress := None; d_userAgent := Some "curl" |}.

Definition aliceReset : PasswordReset :=
  reset "bbbbbbbb-bbbb-4bbb-8bbb-bbbbbbbbbbb1" alice "tok-a" 2500 false.

Definition resetRequest : ResetData :=
  {| rd_adminId := alice; rd_email := "alice@example.org"; rd_token := "tok-b";
     rd_expiresAt := 9000 |}.

(** A form with a class type and a well formed email. *)
Definition validForm : StudentStore.Store :=
  {| StudentStore.selectedClassType := Some "TYPE_1";
     StudentStore.formData_email := "alice@example.org";
     StudentStore.formData_phone := "";
     StudentStore.errors := ∅;
     StudentStore.isSubmitting := false;
     StudentStore.submitSuccess := false;
     StudentStore.submitError := None;
     StudentStore.signupResult := None;
     StudentStore.showConfirmation := false |}.

End MoreSamples.

(** * Properties *)

(** ** The error envelope *)
Section ErrorEnvelope.
Import Errors Utils SignupIngestion.
Context (ERROR_CODES : ErrorCodes).

Lemma transformError_custom (e : JsError) (c context : string) :
  isZodError e = false ->
  code e = Some c -> plainCode c ->
  Js.truthy (name e) = true -> Js.endsWith (name e) "Error" = true ->
  transformError ERROR_CODES e context = e.
Proof.
  intros Hz Hc [Ht Hp] Hn He. unfold transformError.
  rewrite Hz, Hc, Ht, Hp, Hn, He. simpl. now rewrite Ht.
Qed.





End ErrorEnvelope.


(** ** The world and the table operations *)
Section Calls.
Import Errors World Prisma.

Lemma dbCall_runs {A} (q : State -> Outcome A * State) (w : State) :
  nextCallRuns w -> dbCall q w = q (afterCall w).
Proof.
  unfold nextCallRuns, dbCall, afterCall.
  destruct (faults w) as [|[e|] rest]; intros Hn; [reflexivity | contradiction | reflexivity].
Qed.

Lemma dbCall_rejects {A} (q : State -> Outcome A * State) (w : State) e rest :
  faults w = Some e :: rest -> dbCall q w = (Thrown e, set_faults rest w).
Proof. unfold dbCall. now intros ->. Qed.

Lemma afterCall_adminSessions w : adminSessions (afterCall w) = adminSessions w.
Proof. unfold afterCall. now destruct (faults w). Qed.

Lemma afterCall_passwordResets w : passwordResets (afterCall w) = passwordResets w.
Proof. unfold afterCall. now destruct (faults w). Qed.

Lemma afterCall_admins w : admins (afterCall w) = admins w.
Proof. unfold afterCall. now destruct (faults w). Qed.

Lemma afterCall_log w : log (afterCall w) = log w.
Proof. unfold afterCall. now destruct (faults w). Qed.

(** What a [deleteMany] leaves: the rows that do not match, in order; the
    count is the number of rows that went away. *)
Lemma filter_split_length {A} (P : A -> Prop) `{!∀ x, Decision (P x)} (l : list A) :
  length l = (length (filter (fun x => ¬ P x) l) + length (filter P l))%nat.
Proof.
  induction l as [|x l IH]; [reflexivity|].
  rewrite !filter_cons. destruct (decide (P x)) as [Hp|Hp].
  - rewrite decide_False by tauto. simpl. lia.
  - rewrite decide_True by tauto. simpl. lia.
Qed.

Lemma filter_complement {A} (P Q : A -> Prop)
    `{!∀ x, Decision (P x)} `{!∀ x, Decision (Q x)} (l : list A) :
  (∀ x, x ∈ l -> (P x <-> ¬ Q x)) ->
  (length (filter P l) + length (filter Q l))%nat = length l.
Proof.
  induction l as [|x l IH]; intros Hx; [reflexivity|].
  rewrite !filter_cons.
  assert (Hl : ∀ y, y ∈ l -> (P y <-> ¬ Q y)) by (intros y Hy; apply Hx; now right).
  specialize (IH Hl). specialize (Hx x (list_elem_of_here _ _)).
  destruct (decide (P x)) as [Hp|Hp], (decide (Q x)) as [Hq|Hq]; simpl; try lia; tauto.
Qed.

(** With a primary key, the lookup by id finds the stored row. *)
Lemma findUnique_by_id (l : list AdminSession) (s : AdminSession) :
  NoDup (id <$> l) -> s ∈ l ->
  head (filter (fun r => id r = id s) l) = Some s.
Proof.
  induction l as [|x l IH]; intros Hnd Hin; [now apply elem_of_nil in Hin|].
  rewrite fmap_cons in Hnd. apply NoDup_cons in Hnd as [Hx Hnd].
  rewrite filter_cons. apply elem_of_cons in Hin as [->|Hin].
  - now rewrite decide_True.
  - rewrite decide_False; [now apply IH|].
    intros Heq. apply Hx. rewrite Heq. now apply list_elem_of_fmap_2.
Qed.

Lemma findUnique_none (l : list AdminSession) (i : string) :
  (∀ s, s ∈ l -> id s ≠ i) -> head (filter (fun r => id r = i) l) = None.
Proof.
  induction l as [|x l IH]; intros Hall; [reflexivity|].
  rewrite filter_cons, decide_False.
  - apply IH. intros s Hs. apply Hall. now right.
  - apply Hall. now left.
Qed.

End Calls.

(** ** The session repository *)
Section Sessions.
Import Errors World Prisma AdminSessionRepository.
Context `{Env}.

Ltac async_unfold :=
  unfold try_catch, rethrow, mbind, mret, async_bind, async_ret, bind, ret, lift,
    throw, logger.

Lemma findById_runs (w : State) (sessionId validId : string) :
  uuidSchema sessionId = Returned validId ->
  nextCallRuns w ->
  findById sessionId w
  = (Returned (select SESSION_FIELDS_withTokens
                 <$> head (filter (fun s => id s = validId) (adminSessions w))),
     afterCall w).
Proof.
  intros Hu Hn. unfold findById, session_findFirst. async_unfold.
  rewrite Hu, (dbCall_runs _ _ Hn), afterCall_adminSessions. reflexivity.
Qed.

Lemma isSessionValid_runs (w : State) (sessionId validId : string) (now : Z) :
  uuidSchema sessionId = Returned validId ->
  nextCallRuns w ->
  isSessionValid sessionId now w
  = (Returned
       match head (filter (fun s => id s = validId) (adminSessions w)) with
       | Some s => Js.date_gt (v_expiresAt (select SESSION_FIELDS_withTokens s)) (Some now)
       | None => false
       end,
     afterCall w).
Proof.
  intros Hu Hn. unfold isSessionValid.
  unfold try_catch at 1. unfold mbind, async_bind, bind.
  rewrite (findById_runs w sessionId validId Hu Hn).
  now destruct (head _).
Qed.

(** C1. For a stored session (found by its id, the primary key, through a
    lookup that is not rejected and selects [expiresAt]), [isSessionValid]
    returns [now < expiresAt]: true strictly before the expiry timestamp,
    false strictly after it; it returns false when no session has the id.
    The result is computed from [expiresAt] and the clock reading, and the
    call leaves the stored sessions as they are. *)
Theorem isSessionValid_by_expiry (w : State) (sessionId validId : string) (now : Z) :
  uuidSchema sessionId = Returned validId ->
  nextCallRuns w ->
  sel_expiresAt SESSION_FIELDS_withTokens = true ->
  NoDup (id <$> adminSessions w) ->
  (∀ s, s ∈ adminSessions w -> id s = validId ->
     (isSessionValid sessionId now w).1 = Returned (bool_decide (now < expiresAt s))
     ∧ (now < expiresAt s -> (isSessionValid sessionId now w).1 = Returned true)
     ∧ (expiresAt s < now -> (isSessionValid sessionId now w).1 = Returned false))
  ∧ ((∀ s, s ∈ adminSessions w -> id s ≠ validId) ->
     (isSessionValid sessionId now w).1 = Returned false)
  ∧ adminSessions (isSessionValid sessionId now w).2 = adminSessions w.
Proof.
  intros Hu Hn Hsel Hnd.
  rewrite (isSessionValid_runs w sessionId validId now Hu Hn). simpl.
  split; [|split].
  - intros s Hs Hid. subst validId.
    rewrite (findUnique_by_id _ s Hnd Hs). simpl. rewrite Hsel. simpl.
    assert (Hb : (now <? expiresAt s) = bool_decide (now < expiresAt s)).
    { destruct (Z.ltb_spec now (expiresAt s)).
      - now rewrite bool_decide_eq_true_2.
      - rewrite bool_decide_eq_false_2; [reflexivity | lia]. }
    rewrite Hb. split; [reflexivity|]. split; intros Hlt.
    + now rewrite bool_decide_eq_true_2.
    + rewrite bool_decide_eq_false_2; [reflexivity | lia].
  - intros Hnone. now rewrite (findUnique_none _ _ Hnone).
  - apply afterCall_adminSessions.
Qed.

Lemma session_deleteMany_runs (P : AdminSession -> Prop) `{!∀ s, Decision (P s)}
    (w : State) :
  nextCallRuns w ->
  session_deleteMany P w
  = (Returned (length (filter P (adminSessions w))),
     set_adminSessions (filter (fun s => ¬ P s) (adminSessions w)) (afterCall w)).
Proof.
  intros Hn. unfold session_deleteMany.
  rewrite (dbCall_runs _ _ Hn), afterCall_adminSessions. reflexivity.
Qed.

(** C2. A sweep that is not rejected deletes exactly the sessions with
    [expiresAt < now]: each of them is gone, every session with
    [now <= expiresAt] is kept, nothing else appears, and the returned
    [deletedCount] is the number of sessions that went away. *)
Theorem cleanupExpiredSessions_exact (w : State) (now : Z) :
  nextCallRuns w ->
  ∃ deletedCount w',
    cleanupExpiredSessions now w = (Returned deletedCount, w')
    ∧ adminSessions w' = filter (fun s => ¬ expiresAt s < now) (adminSessions w)
    ∧ (∀ s, s ∈ adminSessions w -> expiresAt s < now -> s ∉ adminSessions w')
    ∧ (∀ s, s ∈ adminSessions w -> now <= expiresAt s -> s ∈ adminSessions w')
    ∧ (∀ s, s ∈ adminSessions w' -> s ∈ adminSessions w ∧ now <= expiresAt s)
    ∧ deletedCount = length (filter (fun s => expiresAt s < now) (adminSessions w))
    ∧ length (adminSessions w) = (length (adminSessions w') + deletedCount)%nat.
Proof.
  intros Hn. unfold cleanupExpiredSessions. async_unfold.
  rewrite (session_deleteMany_runs _ w Hn). simpl.
  eexists _, _. split; [reflexivity|]. simpl.
  split; [reflexivity|]. split; [|split; [|split; [|split]]].
  - intros s _ Hlt Hin. apply list_elem_of_filter in Hin as [Hge _]. tauto.
  - intros s Hs Hge. apply list_elem_of_filter. split; [lia | assumption].
  - intros s Hin. apply list_elem_of_filter in Hin as [Hge Hs]. split; [assumption | lia].
  - reflexivity.
  - apply filter_split_length.
Qed.

(** C3. For an admin id that passes [uuidSchema] (as [validId]), a call that
    is not rejected deletes every session of that admin, whatever its
    expiry, and no session of another admin; the returned [deletedCount]
    is the number of sessions the admin had before the call. *)
Theorem invalidateAllSessions_exact (w : State) (adminId validId : string) :
  uuidSchema adminId = Returned validId ->
  nextCallRuns w ->
  ∃ deletedCount w',
    invalidateAllSessions adminId w = (Returned deletedCount, w')
    ∧ adminSessions w' = filter (fun s => World.adminId s ≠ validId) (adminSessions w)
    ∧ (∀ s, s ∈ adminSessions w -> World.adminId s = validId -> s ∉ adminSessions w')
    ∧ (∀ s, s ∈ adminSessions w -> World.adminId s ≠ validId -> s ∈ adminSessions w')
    ∧ (∀ s, s ∈ adminSessions w' -> s ∈ adminSessions w)
    ∧ deletedCount
      = length (filter (fun s => World.adminId s = validId) (adminSessions w))
    ∧ length (adminSessions w) = (length (adminSessions w') + deletedCount)%nat.
Proof.
  intros Hu Hn. unfold invalidateAllSessions. async_unfold.
  rewrite Hu, (session_deleteMany_runs _ w Hn). simpl.
  eexists _, _. split; [reflexivity|]. simpl.
  split; [reflexivity|]. split; [|split; [|split; [|split]]].
  - intros s _ Heq Hin. apply list_elem_of_filter in Hin as [Hne _]. tauto.
  - intros s Hs Hne. apply list_elem_of_filter. split; assumption.
  - intros s Hin. now apply list_elem_of_filter in Hin as [_ Hs].
  - reflexivity.
  - apply filter_split_length.
Qed.

Lemma session_findMany_desc_runs (P : AdminSession -> Prop) `{!∀ s, Decision (P s)}
  (w : State) :
  nextCallRuns w ->
  session_findMany_desc P w
  = (Returned (orderByCreatedAtDesc (filter P (adminSessions w))), afterCall w).
Proof.
  intros Hn. unfold session_findMany_desc.
  rewrite (dbCall_runs _ _ Hn), afterCall_adminSessions. reflexivity.
Qed.

Lemma orderByCreatedAtDesc_perm (l : list AdminSession) : orderByCreatedAtDesc l ≡ₚ l.
Proof. apply merge_sort_Permutation. Qed.

Lemma date_gt_spec (e t : Z) : Js.date_gt (Some e) (Some t) = bool_decide (t < e).
Proof.
  simpl. destruct (Z.ltb_spec t e).
  - now rewrite bool_decide_eq_true_2.
  - rewrite bool_decide_eq_false_2; [reflexivity | lia].
Qed.

Lemma date_le_spec (e t : Z) : Js.date_le (Some e) (Some t) = bool_decide (e <= t).
Proof.
  simpl. destruct (Z.leb_spec e t).
  - now rewrite bool_decide_eq_true_2.
  - rewrite bool_decide_eq_false_2; [reflexivity | lia].
Qed.

Lemma getAdminSessions_runs (w : State) (adminId validId : string)
  (includeExpired : bool) (now currentTime : Z) :
  uuidSchema adminId = Returned validId ->
  nextCallRuns w ->
  let rows :=
    if includeExpired then filter (fun s => World.adminId s = validId) (adminSessions w)
    else filter (fun s => World.adminId s = validId ∧ now < expiresAt s) (adminSessions w) in
  let sessions := select SESSION_FIELDS_public <$> orderByCreatedAtDesc rows in
  getAdminSessions adminId includeExpired now currentTime w
  = (Returned
       {| sessions := sessions;
          total := length sessions;
          active := length (filter (fun s => Js.date_gt (v_expiresAt s) (Some currentTime))
                              sessions);
          expired := length (filter (fun s => Js.date_le (v_expiresAt s) (Some currentTime))
                               sessions) |},
     afterCall w).
Proof.
  intros Hu Hn. unfold getAdminSessions. async_unfold. rewrite Hu.
  destruct includeExpired; simpl; now rewrite (session_findMany_desc_runs _ w Hn).
Qed.

(** C9. When the admin id passes [uuidSchema], the query is not rejected and
    [SESSION_FIELDS.public] selects [expiresAt], [getAdminSessions] returns
    the admin's sessions with counts that partition them: [total] is the
    length of the list, each session is either active ([expiresAt] strictly
    after the clock reading the counts are taken against) or expired (at or
    before it) and never both, [active] and [expired] count the two classes
    and [active + expired = total]; without [includeExpired] every returned
    session expires strictly after the clock reading of the query. *)
Theorem getAdminSessions_counts_partition (w : State) (adminId validId : string)
  (includeExpired : bool) (now currentTime : Z) :
  uuidSchema adminId = Returned validId ->
  nextCallRuns w ->
  sel_expiresAt SESSION_FIELDS_public = true ->
  ∃ r w',
    getAdminSessions adminId includeExpired now currentTime w = (Returned r, w')
    ∧ total r = length (sessions r)
    ∧ (∀ v, v ∈ sessions r ->
         ∃ e, v_expiresAt v = Some e
              ∧ Js.date_gt (v_expiresAt v) (Some currentTime) = bool_decide (currentTime < e)
              ∧ Js.date_le (v_expiresAt v) (Some currentTime) = bool_decide (e <= currentTime)
              ∧ Js.date_gt (v_expiresAt v) (Some currentTime)
                = negb (Js.date_le (v_expiresAt v) (Some currentTime)))
    ∧ active r
      = length (filter (fun v => Js.date_gt (v_expiresAt v) (Some currentTime)) (sessions r))
    ∧ expired r
      = length (filter (fun v => Js.date_le (v_expiresAt v) (Some currentTime)) (sessions r))
    ∧ (active r + expired r)%nat = total r
    ∧ (includeExpired = false ->
       ∀ v, v ∈ sessions r -> ∃ e, v_expiresAt v = Some e ∧ now < e)
    ∧ sessions r
      ≡ₚ select SESSION_FIELDS_public
           <$> (if includeExpired
                then filter (fun s => World.adminId s = validId) (adminSessions w)
                else filter (fun s => World.adminId s = validId ∧ now < expiresAt s)
                       (adminSessions w)).
Proof.
  intros Hu Hn Hsel.
  pose proof (getAdminSessions_runs w adminId validId includeExpired now currentTime Hu Hn)
    as Hrun. simpl in Hrun.
  eexists _, _. split; [exact Hrun|]. simpl.
  set (rows := if includeExpired then _ else _).
  assert (Hview : ∀ v, v ∈ select SESSION_FIELDS_public <$> orderByCreatedAtDesc rows ->
            ∃ s, s ∈ rows ∧ v_expiresAt v = Some (expiresAt s)).
  { intros v Hv. apply list_elem_of_fmap in Hv as (s & -> & Hs).
    exists s. split; [now rewrite <- (orderByCreatedAtDesc_perm rows)|].
    simpl. now rewrite Hsel. }
  assert (Hclass : ∀ v, v ∈ select SESSION_FIELDS_public <$> orderByCreatedAtDesc rows ->
            ∃ e, v_expiresAt v = Some e
              ∧ Js.date_gt (v_expiresAt v) (Some currentTime) = bool_decide (currentTime < e)
              ∧ Js.date_le (v_expiresAt v) (Some currentTime) = bool_decide (e <= currentTime)
              ∧ Js.date_gt (v_expiresAt v) (Some currentTime)
                = negb (Js.date_le (v_expiresAt v) (Some currentTime))).
  { intros v Hv. destruct (Hview v Hv) as (s & _ & He). exists (expiresAt s).
    rewrite He, date_gt_spec, date_le_spec. repeat split.
    destruct (decide (currentTime < expiresAt s)).
    - rewrite bool_decide_eq_true_2, bool_decide_eq_false_2 by lia. reflexivity.
    - rewrite bool_decide_eq_false_2, bool_decide_eq_true_2 by lia. reflexivity. }
  split; [reflexivity|]. split; [exact Hclass|].
  split; [reflexivity|]. split; [reflexivity|]. split; [|split].
  - apply filter_complement. intros v Hv.
    destruct (Hclass v Hv) as (e & _ & _ & _ & Hneg). rewrite Hneg.
    destruct (Js.date_le _ _); simpl; intuition.
  - intros -> v Hv. destruct (Hview v Hv) as (s & Hs & He).
    exists (expiresAt s). split; [assumption|].
    subst rows. apply list_elem_of_filter in Hs as [[_ Hlt] _]. exact Hlt.
  - now rewrite (orderByCreatedAtDesc_perm rows).
Qed.

(** *** Failure handling *)

Lemma unfailed_ret {A} (a : A) : returnsOnlyUnfailed (mret a : Async A).
Proof.
  intros w a' w' Hm. injection Hm as <- <-. split; [now exists 0%nat | reflexivity].
Qed.

Lemma unfailed_throw {A} (e : JsError) : returnsOnlyUnfailed (throw e : Async A).
Proof. intros w a w' Hm. discriminate. Qed.

Lemma unfailed_lift {A} (o : Outcome A) : returnsOnlyUnfailed (lift o).
Proof.
  intros w a w' Hm. unfold lift in Hm. injection Hm as -> <-.
  split; [now exists 0%nat | reflexivity].
Qed.

Lemma unfailed_logger (l : Level) (msg : string) :
  l ≠ LError -> returnsOnlyUnfailed (logger l msg).
Proof.
  intros Hl w a w' Hm. unfold logger in Hm. injection Hm as _ <-.
  split; [now exists 0%nat|]. simpl. unfold errorEntries.
  rewrite filter_app, filter_cons, decide_False by exact Hl.
  rewrite filter_nil. apply app_nil_r.
Qed.

Lemma unfailed_bind {A B} (m : Async A) (k : A -> Async B) :
  returnsOnlyUnfailed m -> (∀ a, returnsOnlyUnfailed (k a)) ->
  returnsOnlyUnfailed (m ≫= k).
Proof.
  intros Hm Hk w b w' Hrun. unfold mbind, async_bind, bind in Hrun.
  destruct (m w) as [[a|e] w1] eqn:Em; [|discriminate].
  destruct (Hm w a w1 Em) as [[k1 Hf1] Hl1].
  destruct (Hk a w1 b w' Hrun) as [[k2 Hf2] Hl2].
  split; [|congruence].
  exists (k1 + k2)%nat. rewrite Hf1, Hf2, replicate_add. now rewrite app_assoc.
Qed.

Lemma unfailed_dbCall {A} (q : State -> Outcome A * State) :
  (∀ w a w', q w = (Returned a, w') -> faults w' = faults w ∧ log w' = log w) ->
  returnsOnlyUnfailed (dbCall q).
Proof.
  intros Hq w a w' Hrun. unfold dbCall in Hrun.
  destruct (faults w) as [|[e|] rest] eqn:Ef.
  - destruct (Hq w a w' Hrun) as [Hf Hl].
    split; [exists 0%nat; simpl; congruence | now rewrite Hl].
  - discriminate.
  - destruct (Hq _ a w' Hrun) as [Hf Hl]. simpl in Hf, Hl.
    split; [exists 1%nat; simpl; congruence | now rewrite Hl].
Qed.

Lemma unfailed_promiseAll3 {A B C} (a : Async A) (b : Async B) (c : Async C) :
  returnsOnlyUnfailed a -> returnsOnlyUnfailed b -> returnsOnlyUnfailed c ->
  returnsOnlyUnfailed (promiseAll3 a b c).
Proof.
  intros Ha Hb Hc w r w' Hrun. unfold promiseAll3 in Hrun.
  destruct (a w) as [r1 w1] eqn:Ea. destruct (b w1) as [r2 w2] eqn:Eb.
  destruct (c w2) as [r3 w3] eqn:Ec.
  destruct r1 as [x|]; [|discriminate]. destruct r2 as [y|]; [|discriminate].
  destruct r3 as [z|]; [|discriminate]. injection Hrun as <- <-.
  destruct (Ha _ _ _ Ea) as [[k1 Hf1] Hl1]. destruct (Hb _ _ _ Eb) as [[k2 Hf2] Hl2].
  destruct (Hc _ _ _ Ec) as [[k3 Hf3] Hl3].
  split; [|congruence].
  exists (k1 + (k2 + k3))%nat. rewrite Hf1, Hf2, Hf3, !replicate_add.
  now rewrite <- !app_assoc.
Qed.

(** A [try] whose [catch] logs and re-throws. *)
Lemma try_rethrow {A} (body : Async A) (msg fn : string) :
  returnsOnlyUnfailed body ->
  logsAndRethrows (try_catch body (rethrow msg fn)).
Proof.
  intros Hb. split.
  - intros w a w' Hrun. unfold try_catch in Hrun.
    destruct (body w) as [[x|e] w1] eqn:Eb.
    + injection Hrun as <- <-. exact (Hb _ _ _ Eb).
    + discriminate.
  - intros w e w' Hrun. unfold try_catch in Hrun.
    destruct (body w) as [[x|e0] w1] eqn:Eb; [discriminate|].
    injection Hrun as <- <-.
    exists e0, fn, msg, (log w1). split; reflexivity.
Qed.

Lemma rethrows_unfailed {A} (m : Async A) : logsAndRethrows m -> returnsOnlyUnfailed m.
Proof. now intros [? _]. Qed.

Ltac db_quiet :=
  apply unfailed_dbCall; intros ??? Hq; simpl in Hq;
  repeat case_match; simplify_eq; simpl; done.

Ltac unfailed :=
  repeat first
    [ apply unfailed_ret
    | apply unfailed_throw
    | apply unfailed_lift
    | apply unfailed_logger; discriminate
    | apply unfailed_promiseAll3
    | apply unfailed_bind; [|intro]
    | db_quiet
    | match goal with
      | |- returnsOnlyUnfailed (match ?x with _ => _ end) => destruct x
      | |- returnsOnlyUnfailed (if ?x then _ else _) => destruct x
      | |- returnsOnlyUnfailed (let '(_, _) := ?x in _) => destruct x
      end ].

Lemma createSession_rethrows d i t : logsAndRethrows (createSession d i t).
Proof. apply try_rethrow. unfold session_create. unfailed. Qed.

Lemma findByAccessToken_rethrows t : logsAndRethrows (findByAccessToken t).
Proof. apply try_rethrow. unfold session_findFirst. unfailed. Qed.

Lemma findByRefreshToken_rethrows t : logsAndRethrows (findByRefreshToken t).
Proof. apply try_rethrow. unfold session_findFirst. unfailed. Qed.

Lemma findById_rethrows i : logsAndRethrows (findById i).
Proof. apply try_rethrow. unfold session_findFirst. unfailed. Qed.

Lemma updateSession_rethrows i d t : logsAndRethrows (updateSession i d t).
Proof.
  apply try_rethrow. unfold session_update.
  apply unfailed_bind; [unfailed | intro validId].
  destruct d as [[|kv entries]|]; [unfailed | | unfailed].
  match goal with |- returnsOnlyUnfailed (match ?x with _ => _ end) => destruct x end;
    unfailed.
Qed.

Lemma deleteSession_rethrows i : logsAndRethrows (deleteSession i).
Proof. apply try_rethrow. unfold session_delete. unfailed. Qed.

Lemma getAdminSessions_rethrows a b t1 t2 : logsAndRethrows (getAdminSessions a b t1 t2).
Proof. apply try_rethrow. unfold session_findMany_desc. unfailed. Qed.

Lemma invalidateAllSessions_rethrows a : logsAndRethrows (invalidateAllSessions a).
Proof. apply try_rethrow. unfold session_deleteMany. unfailed. Qed.

Lemma getSessionStats_rethrows a t : logsAndRethrows (getSessionStats a t).
Proof.
  apply try_rethrow. unfold session_count, session_findFirst_desc.
  apply unfailed_bind; [unfailed | intro validId].
  apply unfailed_bind; [unfailed | intros [[x y] z]]. unfailed.
Qed.

Lemma cleanupExpiredSessions_rethrows t : logsAndRethrows (cleanupExpiredSessions t).
Proof. apply try_rethrow. unfold session_deleteMany. unfailed. Qed.

(** From a re-throwing [try] to the account of every failure. *)
Lemma rethrowsEvery_intro {A} (m : Async A) (msg fn : string)
    (failure : State -> option JsError) :
  logsAndRethrows m ->
  (∀ w, match failure w with
        | Some e0 =>
            ∃ w' l,
              m w = (Thrown (transformError ERROR_CODES e0 fn), w')
              ∧ log w' = (log w ++ l ++ [ {| level := LError; text := msg |} ])%list
              ∧ errorEntries l = []
        | None => ∃ a w', m w = (Returned a, w')
        end) ->
  logsAndRethrowsEvery m msg fn failure.
Proof.
  intros [Hr _] Hc w. specialize (Hc w).
  destruct (failure w) as [e0|]; [exact Hc|].
  destruct Hc as (a & w' & Hrun). exists a, w'.
  split; [exact Hrun | exact (Hr _ _ _ Hrun)].
Qed.

Lemma rethrowsEvery_logsAndRethrows {A} (m : Async A) (msg fn : string)
    (failure : State -> option JsError) :
  logsAndRethrowsEvery m msg fn failure -> logsAndRethrows m.
Proof.
  intros He. split.
  - intros w a w' Hrun. specialize (He w). destruct (failure w) as [e0|].
    + destruct He as (w1 & l & Hthrow & _). congruence.
    + destruct He as (a1 & w1 & Hret & Hf & Hl).
      rewrite Hrun in Hret. injection Hret as <- <-. now split.
  - intros w e w' Hrun. specialize (He w). destruct (failure w) as [e0|].
    + destruct He as (w1 & l & Hthrow & Hlog & _).
      rewrite Hrun in Hthrow. injection Hthrow as -> <-.
      exists e0, fn, msg, (log w ++ l)%list. split; [reflexivity|].
      now rewrite Hlog, app_assoc.
    + destruct He as (a1 & w1 & Hret & _). congruence.
Qed.

Ltac thrown_logged :=
  first
    [ eexists _, []; split; [reflexivity|]; simpl; split; reflexivity
    | eexists _, [_]; split; [reflexivity|]; simpl; split;
        [rewrite <- ?app_assoc; reflexivity | reflexivity] ].

Ltac every_run :=
  simpl; repeat (case_match; simpl in *; simplify_eq);
  first [ thrown_logged | eauto ].

Lemma findById_every i :
  logsAndRethrowsEvery (findById i) "Failed to find session by ID" "findById"
    (firstFailure (uuidSchema i) (fun v => session_findFirst (fun s => id s = v))).
Proof.
  apply rethrowsEvery_intro; [apply findById_rethrows|].
  intros w. unfold firstFailure, thrownBy, findById, session_findFirst, dbCall.
  async_unfold. every_run.
Qed.


Lemma createSession_every d i t :
  logsAndRethrowsEvery (createSession d i t)
    "Failed to create admin session" "createSession"
    (firstFailure (createSessionSchema d) (fun v => session_create v i t)).
Proof.
  apply rethrowsEvery_intro; [apply createSession_rethrows|].
  intros w. unfold firstFailure, thrownBy, createSession, session_create, dbCall.
  async_unfold. every_run.
Qed.

Lemma findByAccessToken_every t :
  logsAndRethrowsEvery (findByAccessToken t)
    "Failed to find session by access token" "findByAccessToken"
    (firstFailure (tokenGuard "Token is required" t)
       (fun v => session_findFirst (fun s => World.token s = v))).
Proof.
  apply rethrowsEvery_intro; [apply findByAccessToken_rethrows|].
  intros w.
  unfold firstFailure, thrownBy, tokenGuard, findByAccessToken, session_findFirst, dbCall.
  async_unfold. every_run.
Qed.

Lemma findByRefreshToken_every t :
  logsAndRethrowsEvery (findByRefreshToken t)
    "Failed to find session by refresh token" "findByRefreshToken"
    (firstFailure (tokenGuard "Refresh token is required" t)
       (fun v => session_findFirst (fun s => World.refreshToken s = v))).
Proof.
  apply rethrowsEvery_intro; [apply findByRefreshToken_rethrows|].
  intros w.
  unfold firstFailure, thrownBy, tokenGuard, findByRefreshToken, session_findFirst, dbCall.
  async_unfold. every_run.
Qed.

Lemma updateSession_every i d t :
  logsAndRethrowsEvery (updateSession i d t) "Failed to update session" "updateSession"
    (firstFailure (updateGuards i d t)
       (fun p => session_update (fun s => id s = p.1)
                   (forallb validColumn p.2) (applyData p.2))).
Proof.
  apply rethrowsEvery_intro; [apply updateSession_rethrows|].
  intros w.
  unfold firstFailure, thrownBy, updateGuards, updateSession, session_update, dbCall.
  async_unfold. every_run.
Qed.

Lemma deleteSession_every i :
  logsAndRethrowsEvery (deleteSession i) "Failed to delete session" "deleteSession"
    (firstFailure (uuidSchema i) (fun v => session_delete (fun s => id s = v))).
Proof.
  apply rethrowsEvery_intro; [apply deleteSession_rethrows|].
  intros w. unfold firstFailure, thrownBy, deleteSession, session_delete, dbCall.
  async_unfold. every_run.
Qed.

Lemma getAdminSessions_every a b t1 t2 :
  logsAndRethrowsEvery (getAdminSessions a b t1 t2)
    "Failed to get admin sessions" "getAdminSessions"
    (firstFailure (uuidSchema a)
       (fun v => if negb b
                 then session_findMany_desc
                        (fun s => World.adminId s = v ∧ t1 < expiresAt s)
                 else session_findMany_desc (fun s => World.adminId s = v))).
Proof.
  apply rethrowsEvery_intro; [apply getAdminSessions_rethrows|].
  intros w.
  unfold firstFailure, thrownBy, getAdminSessions, session_findMany_desc, dbCall.
  async_unfold. every_run.
Qed.

Lemma invalidateAllSessions_every a :
  logsAndRethrowsEvery (invalidateAllSessions a)
    "Failed to invalidate all sessions" "invalidateAllSessions"
    (firstFailure (uuidSchema a)
       (fun v => session_deleteMany (fun s => World.adminId s = v))).
Proof.
  apply rethrowsEvery_intro; [apply invalidateAllSessions_rethrows|].
  intros w.
  unfold firstFailure, thrownBy, invalidateAllSessions, session_deleteMany, dbCall.
  async_unfold. every_run.
Qed.

Lemma cleanupExpiredSessions_every t :
  logsAndRethrowsEvery (cleanupExpiredSessions t)
    "Failed to cleanup expired sessions" "cleanupExpiredSessions"
    (thrownBy (session_deleteMany (fun s => expiresAt s < t))).
Proof.
  apply rethrowsEvery_intro; [apply cleanupExpiredSessions_rethrows|].
  intros w. unfold thrownBy, cleanupExpiredSessions, session_deleteMany, dbCall.
  async_unfold. every_run.
Qed.

Lemma dbCall_log {A} (q : State -> Outcome A * State) (w : State) :
  (∀ w0, log (q w0).2 = log w0) -> log (dbCall q w).2 = log w.
Proof.
  intros Hq. unfold dbCall. destruct (faults w) as [|[e|] rest]; simpl;
    [apply Hq | reflexivity | now rewrite Hq].
Qed.

Lemma promiseAll3_log {A B C} (a : Async A) (b : Async B) (c : Async C) (w : State) :
  (∀ w0, log (a w0).2 = log w0) -> (∀ w0, log (b w0).2 = log w0) ->
  (∀ w0, log (c w0).2 = log w0) ->
  log (promiseAll3 a b c w).2 = log w.
Proof.
  intros Ha Hb Hc. unfold promiseAll3.
  specialize (Ha w). destruct (a w) as [r1 w1]. specialize (Hb w1).
  destruct (b w1) as [r2 w2]. specialize (Hc w2). destruct (c w2) as [r3 w3].
  simpl in *. destruct r1, r2, r3; simpl; congruence.
Qed.

Lemma getSessionStats_every a t :
  logsAndRethrowsEvery (getSessionStats a t)
    "Failed to get session stats" "getSessionStats"
    (firstFailure (uuidSchema a)
       (fun v => promiseAll3
                   (session_count (fun s => World.adminId s = v ∧ t < expiresAt s))
                   (session_count (fun s => World.adminId s = v))
                   (session_findFirst_desc (fun s => World.adminId s = v)))).
Proof.
  apply rethrowsEvery_intro; [apply getSessionStats_rethrows|].
  intros w. unfold firstFailure, thrownBy, getSessionStats. async_unfold.
  destruct (uuidSchema a) as [v|e]; [|thrown_logged].
  match goal with
  | |- context [promiseAll3 ?x ?y ?z w] =>
      pose proof (promiseAll3_log x y z w) as Hlog;
      destruct (promiseAll3 x y z w) as [[[[n1 n2] last]|e] w1]
  end; simpl in *.
  - eauto.
  - eexists _, []. split; [reflexivity|]. simpl. split; [|reflexivity].
    rewrite Hlog; [reflexivity| | |]; intros w0;
      unfold session_count, session_findFirst_desc; now apply dbCall_log.
Qed.

(** A call the fault schedule rejects is a failure with the scheduled
    error, whatever the query. *)
Lemma thrownBy_rejected {A} (q : State -> Outcome A * State) (w : State) e rest :
  faults w = Some e :: rest -> thrownBy (dbCall q) w = Some e.
Proof. intros Hf. unfold thrownBy. now rewrite (dbCall_rejects _ _ _ _ Hf). Qed.

Lemma isSessionValid_neverThrows i t : neverThrows (isSessionValid i t).
Proof.
  intros w. unfold isSessionValid, try_catch at 1.
  unfold mbind, async_bind, bind.
  destruct (findById i w) as [[[v|]|e] w1]; simpl; eauto.
Qed.

Lemma validateSessionIP_neverThrows i ip : neverThrows (validateSessionIP i ip).
Proof.
  intros w. unfold validateSessionIP, try_catch, session_findFirst.
  unfold mbind, async_bind, bind, dbCall.
  destruct (faults w) as [|[e|] rest]; simpl; eauto;
    destruct (head _) as [s|]; simpl; eauto;
    destruct (negb _); simpl; eauto.
Qed.

Lemma findById_rejected (w : State) (sessionId validId : string) e rest :
  uuidSchema sessionId = Returned validId ->
  faults w = Some e :: rest ->
  findById sessionId w
  = (Thrown (transformError ERROR_CODES e "findById"),
     add_log {| level := LError; text := "Failed to find session by ID" |}
       (set_faults rest w)).
Proof.
  intros Hu Hf. unfold findById, session_findFirst. async_unfold.
  rewrite Hu, (dbCall_rejects _ _ _ _ Hf). reflexivity.
Qed.

Lemma isSessionValid_rejected (w : State) (sessionId validId : string) (now : Z) e rest :
  uuidSchema sessionId = Returned validId ->
  faults w = Some e :: rest ->
  isSessionValid sessionId now w
  = (Returned false,
     add_log {| level := LError; text := "Failed to check session validity" |}
       (add_log {| level := LError; text := "Failed to find session by ID" |}
          (set_faults rest w))).
Proof.
  intros Hu Hf. unfold isSessionValid, try_catch at 1.
  unfold mbind, async_bind, bind.
  rewrite (findById_rejected w sessionId validId e rest Hu Hf). reflexivity.
Qed.

Lemma isSessionValid_invalid_id (w : State) (sessionId : string) (now : Z) e :
  uuidSchema sessionId = Thrown e ->
  isSessionValid sessionId now w
  = (Returned false,
     add_log {| level := LError; text := "Failed to check session validity" |}
       (add_log {| level := LError; text := "Failed to find session by ID" |} w)).
Proof.
  intros Hu. unfold isSessionValid, findById. async_unfold. now rewrite Hu.
Qed.

Lemma validateSessionIP_rejected (w : State) (sessionId currentIP : string) e rest :
  faults w = Some e :: rest ->
  validateSessionIP sessionId currentIP w
  = (Returned false,
     add_log {| level := LError; text := "Failed to validate session IP" |}
       (set_faults rest w)).
Proof.
  intros Hf. unfold validateSessionIP, session_findFirst. async_unfold.
  rewrite (dbCall_rejects _ _ _ _ Hf). reflexivity.
Qed.

(** C7 (as amended). Every failure inside [createSession],
    [findByAccessToken], [findByRefreshToken], [findById], [updateSession],
    [deleteSession], [getAdminSessions], [invalidateAllSessions],
    [getSessionStats] and [cleanupExpiredSessions] is logged at error level
    and re-thrown as [transformError] renders it. A failure is an input
    that the operation's validation refuses (the schema, the token guard,
    the guards on the update object) or a database call that rejects (by
    the fault schedule, or as [delete] and [update] do for a missing row):
    whenever there is one, the operation throws [transformError] of that
    very error under its own name and its last log line, the only one at
    error level, is its failure message; it returns only when there is
    none. [isSessionValid] and [validateSessionIP] never throw: when the
    lookup is rejected (and, for [isSessionValid], when the id fails
    [uuidSchema]) they log the failure at error level and return false. *)
Theorem session_failures_logged_and_rethrown :
  (∀ d i t,
     logsAndRethrowsEvery (createSession d i t)
       "Failed to create admin session" "createSession"
       (firstFailure (createSessionSchema d) (fun v => session_create v i t)))
  ∧ (∀ t,
       logsAndRethrowsEvery (findByAccessToken t)
         "Failed to find session by access token" "findByAccessToken"
         (firstFailure (tokenGuard "Token is required" t)
            (fun v => session_findFirst (fun s => World.token s = v))))
  ∧ (∀ t,
       logsAndRethrowsEvery (findByRefreshToken t)
         "Failed to find session by refresh token" "findByRefreshToken"
         (firstFailure (tokenGuard "Refresh token is required" t)
            (fun v => session_findFirst (fun s => World.refreshToken s = v))))
  ∧ (∀ i,
       logsAndRethrowsEvery (findById i) "Failed to find session by ID" "findById"
         (firstFailure (uuidSchema i) (fun v => session_findFirst (fun s => id s = v))))
  ∧ (∀ i d t,
       logsAndRethrowsEvery (updateSession i d t)
         "Failed to update session" "updateSession"
         (firstFailure (updateGuards i d t)
            (fun p => session_update (fun s => id s = p.1)
                        (forallb validColumn p.2) (applyData p.2))))
  ∧ (∀ i,
       logsAndRethrowsEvery (deleteSession i) "Failed to delete session" "deleteSession"
         (firstFailure (uuidSchema i) (fun v => session_delete (fun s => id s = v))))
  ∧ (∀ a b t1 t2,
       logsAndRethrowsEvery (getAdminSessions a b t1 t2)
         "Failed to get admin sessions" "getAdminSessions"
         (firstFailure (uuidSchema a)
            (fun v => if negb b
                      then session_findMany_desc
                             (fun s => World.adminId s = v ∧ t1 < expiresAt s)
                      else session_findMany_desc (fun s => World.adminId s = v))))
  ∧ (∀ a,
       logsAndRethrowsEvery (invalidateAllSessions a)
         "Failed to invalidate all sessions" "invalidateAllSessions"
         (firstFailure (uuidSchema a)
            (fun v => session_deleteMany (fun s => World.adminId s = v))))
  ∧ (∀ a t,
       logsAndRethrowsEvery (getSessionStats a t)
         "Failed to get session stats" "getSessionStats"
         (firstFailure (uuidSchema a)
            (fun v => promiseAll3
                        (session_count (fun s => World.adminId s = v ∧ t < expiresAt s))
                        (session_count (fun s => World.adminId s = v))
                        (session_findFirst_desc (fun s => World.adminId s = v)))))
  ∧ (∀ t,
       logsAndRethrowsEvery (cleanupExpiredSessions t)
         "Failed to cleanup expired sessions" "cleanupExpiredSessions"
         (thrownBy (session_deleteMany (fun s => expiresAt s < t))))
  ∧ (∀ A (q : State -> Outcome A * State) w e rest,
       faults w = Some e :: rest -> thrownBy (dbCall q) w = Some e)
  ∧ (∀ i t, neverThrows (isSessionValid i t))
  ∧ (∀ i ip, neverThrows (validateSessionIP i ip))
  ∧ (∀ w i validId t e rest,
       uuidSchema i = Returned validId -> faults w = Some e :: rest ->
       isSessionValid i t w
       = (Returned false,
          add_log {| level := LError; text := "Failed to check session validity" |}
            (add_log {| level := LError; text := "Failed to find session by ID" |}
               (set_faults rest w))))
  ∧ (∀ w i t e,
       uuidSchema i = Thrown e ->
       isSessionValid i t w
       = (Returned false,
          add_log {| level := LError; text := "Failed to check session validity" |}
            (add_log {| level := LError; text := "Failed to find session by ID" |} w)))
  ∧ (∀ w i ip e rest,
       faults w = Some e :: rest ->
       validateSessionIP i ip w
       = (Returned false,
          add_log {| level := LError; text := "Failed to validate session IP" |}
            (set_faults rest w))).
Proof.
  repeat match goal with |- _ ∧ _ => split end.
  - exact createSession_every.
  - exact findByAccessToken_every.
  - exact findByRefreshToken_every.
  - exact findById_every.
  - exact updateSession_every.
  - exact deleteSession_every.
  - exact getAdminSessions_every.
  - exact invalidateAllSessions_every.
  - exact getSessionStats_every.
  - exact cleanupExpiredSessions_every.
  - intros A q w e rest. apply thrownBy_rejected.
  - exact isSessionValid_neverThrows.
  - exact validateSessionIP_neverThrows.
  - exact isSessionValid_rejected.
  - intros. now apply isSessionValid_invalid_id with (e := e).
  - exact validateSessionIP_rejected.
Qed.

End Sessions.

Section SessionExamples.
Import Samples.

(** The sessions of the sample world at time 2000: [s2] (expiry 3000) is
    valid, [s1] (expiry 1000) is not. *)
Lemma isSessionValid_by_expiry_witness :
  (AdminSessionRepository.isSessionValid (World.id Samples.s2) 2000 Samples.world).1
  = World.Returned true
  ∧ (AdminSessionRepository.isSessionValid (World.id Samples.s1) 2000 Samples.world).1
    = World.Returned false.
Proof.
  assert (Hnd : NoDup (World.id <$> World.adminSessions Samples.world)).
  { apply (bool_decide_unpack _). vm_compute. exact I. }
  split.
  - refine (proj1 (proj2 (proj1
      (@isSessionValid_by_expiry Samples.env Samples.world (World.id Samples.s2)
         (World.id Samples.s2) 2000 eq_refl I eq_refl Hnd) Samples.s2 _ eq_refl)) _).
    + simpl. set_solver.
    + vm_compute. reflexivity.
  - refine (proj2 (proj2 (proj1
      (@isSessionValid_by_expiry Samples.env Samples.world (World.id Samples.s1)
         (World.id Samples.s1) 2000 eq_refl I eq_refl Hnd) Samples.s1 _ eq_refl)) _).
    + simpl. set_solver.
    + vm_compute. reflexivity.
Defined.

(** The sweep of the sample world at time 2000 removes [s1] and [s3]. *)
Lemma cleanupExpiredSessions_exact_witness :
  ∃ w', AdminSessionRepository.cleanupExpiredSessions 2000 Samples.world
        = (World.Returned 2%nat, w')
        ∧ World.adminSessions w' = [Samples.s2; Samples.s4].
Proof.
  destruct (@cleanupExpiredSessions_exact Samples.env Samples.world 2000 I)
    as (n & w' & Hrun & Hrows & _ & _ & _ & Hn & _).
  exists w'. split.
  - rewrite Hrun, Hn. reflexivity.
  - rewrite Hrows. reflexivity.
Defined.

(** Logging out alice everywhere removes [s1] and [s2], expired or not. *)
Lemma invalidateAllSessions_exact_witness :
  ∃ w', AdminSessionRepository.invalidateAllSessions Samples.alice Samples.world
        = (World.Returned 2%nat, w')
        ∧ World.adminSessions w' = [Samples.s3; Samples.s4].
Proof.
  destruct (@invalidateAllSessions_exact Samples.env Samples.world Samples.alice
              Samples.alice eq_refl I)
    as (n & w' & Hrun & Hrows & _ & _ & _ & Hn & _).
  exists w'. split.
  - rewrite Hrun, Hn. reflexivity.
  - rewrite Hrows. reflexivity.
Defined.

(** Alice's sessions, expired ones included, counted at time 2000. *)
Lemma getAdminSessions_counts_partition_witness :
  ∃ r w', AdminSessionRepository.getAdminSessions Samples.alice true 2000 2000 Samples.world
          = (World.Returned r, w')
          ∧ (AdminSessionRepository.active r + AdminSessionRepository.expired r)%nat
            = AdminSessionRepository.total r.
Proof.
  destruct (@getAdminSessions_counts_partition Samples.env Samples.world Samples.alice
              Samples.alice true 2000 2000 eq_refl I eq_refl)
    as (r & w' & Hrun & _ & _ & _ & _ & Hsum & _).
  exists r, w'. split; assumption.
Defined.

(** With the database down, both checks answer false instead of throwing. *)
Lemma validity_checks_swallow_errors :
  Samples.brokenWorld.(World.faults)
  = [Some (World.prismaError "P1001" "Can't reach database server")]
  ∧ (AdminSessionRepository.isSessionValid (World.id Samples.s2) 2000 Samples.brokenWorld).1
    = World.Returned false
  ∧ (AdminSessionRepository.validateSessionIP (World.id Samples.s2) "10.0.0.1"
       Samples.brokenWorld).1
    = World.Returned false
  ∧ (∀ e, (AdminSessionRepository.isSessionValid (World.id Samples.s2) 2000
             Samples.brokenWorld).1 ≠ World.Thrown e)
  ∧ (∀ e, (AdminSessionRepository.validateSessionIP (World.id Samples.s2) "10.0.0.1"
             Samples.brokenWorld).1 ≠ World.Thrown e).
Proof.
  split; [reflexivity|]. split; [vm_compute; reflexivity|].
  split; [vm_compute; reflexivity|].
  split; intros e; vm_compute; discriminate.
Qed.

End SessionExamples.

(** ** The password reset repository *)
Section Resets.
Import Errors World Prisma PasswordResetRepository.
Context `{Env}.

Ltac async_unfold :=
  unfold try_catch, rethrow, mbind, mret, async_bind, async_ret, bind, ret, lift,
    throw, logger.

(** The row [createPasswordReset] inserts for validated data. *)
Lemma createPasswordReset_runs (w : State) (resetData v : ResetData)
  (newId : string) (dbNow : Z) :
  createPasswordResetSchema resetData = Returned v ->
  nextCallRuns w -> nextCallRuns (afterCall w) ->
  let newReset :=
    {| r_id := newId; r_adminId := rd_adminId v; r_email := rd_email v;
       r_token := rd_token v; r_expiresAt := rd_expiresAt v; r_isUsed := false;
       r_usedAt := None; r_attempts := 0; r_createdAt := dbNow |} in
  ∃ w', createPasswordReset resetData newId dbNow w = (Returned newReset, w')
        ∧ passwordResets w'
          = (filter (fun r => r_adminId r ≠ rd_adminId v) (passwordResets w) ++ [newReset])%list.
Proof.
  intros Hv Hn1 Hn2. unfold createPasswordReset, reset_deleteMany, reset_create.
  async_unfold. rewrite Hv, (dbCall_runs _ _ Hn1).
  unfold dbCall. simpl. unfold nextCallRuns in Hn2.
  destruct (faults (afterCall w)) as [|[e|] rest] eqn:Ef; [|contradiction|];
    simpl; rewrite ?Ef; simpl; eexists; (split; [reflexivity|]); simpl;
    now rewrite afterCall_passwordResets.
Qed.

(** Whatever happens, the table afterwards is the old one, the old one
    without the admin's rows, or that plus one new row of the admin. *)
Lemma createPasswordReset_table (w : State) (resetData : ResetData)
  (newId : string) (dbNow : Z) :
  let w' := (createPasswordReset resetData newId dbNow w).2 in
  passwordResets w' = passwordResets w
  ∨ ∃ v, createPasswordResetSchema resetData = Returned v
         ∧ (passwordResets w'
            = filter (fun r => r_adminId r ≠ rd_adminId v) (passwordResets w)
            ∨ ∃ newReset,
                r_adminId newReset = rd_adminId v
                ∧ passwordResets w'
                  = (filter (fun r => r_adminId r ≠ rd_adminId v) (passwordResets w)
                     ++ [newReset])%list).
Proof.
  unfold createPasswordReset, reset_deleteMany, reset_create. async_unfold.
  destruct (createPasswordResetSchema resetData) as [v|e] eqn:Hv; [|now left].
  unfold dbCall.
  destruct (faults w) as [|[e|] rest] eqn:Ef; simpl; rewrite ?Ef; simpl.
  - right. exists v. split; [reflexivity|]. right. eexists. split; [|reflexivity].
    reflexivity.
  - now left.
  - right. exists v. split; [reflexivity|].
    destruct rest as [|[e|] rest']; simpl.
    + right. eexists. split; [|reflexivity]. reflexivity.
    + now left.
    + right. eexists. split; [|reflexivity]. reflexivity.
Qed.

Lemma filter_admin_removed (a : string) (l : list PasswordReset) :
  filter (fun r => r_adminId r = a) (filter (fun r => r_adminId r ≠ a) l) = [].
Proof.
  induction l as [|x l IH]; [reflexivity|].
  rewrite (filter_cons (fun r => r_adminId r ≠ a)).
  destruct (decide (r_adminId x ≠ a)) as [Hne|Heq]; [|exact IH].
  rewrite filter_cons, decide_False by exact Hne. exact IH.
Qed.

Lemma filter_admin_other (a b : string) (l : list PasswordReset) :
  a ≠ b ->
  filter (fun r => r_adminId r = a) (filter (fun r => r_adminId r ≠ b) l)
  = filter (fun r => r_adminId r = a) l.
Proof.
  intros Hab. induction l as [|x l IH]; [reflexivity|].
  rewrite (filter_cons (fun r => r_adminId r ≠ b)).
  destruct (decide (r_adminId x ≠ b)) as [Hne|Heq].
  - rewrite !filter_cons. destruct (decide (r_adminId x = a)); now rewrite IH.
  - rewrite IH, filter_cons, decide_False; [reflexivity|].
    intros Hxa. apply Heq. congruence.
Qed.

Lemma findByToken_found (w w' : State) (token : option string) (now : Z)
  (r : PasswordReset) (adm : option Admin) :
  findByToken token now w = (Returned (Some (r, adm)), w') ->
  r ∈ passwordResets w ∧ token = Some (r_token r)
  ∧ r_isUsed r = false ∧ now < r_expiresAt r.
Proof.
  unfold findByToken, reset_findFirst. async_unfold.
  destruct token as [t|]; [|discriminate].
  destruct (Js.truthy t); [|discriminate].
  unfold dbCall.
  destruct (faults w) as [|[e|] rest] eqn:Ef; simpl; try discriminate;
    (destruct (head (filter _ (passwordResets w))) as [r0|] eqn:Eh; simpl;
     [|discriminate]);
    intros Hrun; injection Hrun as -> _ _;
    apply head_Some_elem_of, list_elem_of_filter in Eh as [(Ht & Hu & He) Hin];
    (split; [assumption|]); (split; [now rewrite Ht|]); split; assumption.
Qed.

Lemma findByToken_finds (w : State) (now : Z) (r : PasswordReset) :
  nextCallRuns w ->
  r ∈ passwordResets w -> Js.truthy (r_token r) = true ->
  r_isUsed r = false -> now < r_expiresAt r ->
  ∃ r' adm w', findByToken (Some (r_token r)) now w = (Returned (Some (r', adm)), w')
               ∧ r_token r' = r_token r.
Proof.
  intros Hn Hin Ht Hu He. unfold findByToken, reset_findFirst. async_unfold.
  rewrite Ht, (dbCall_runs _ _ Hn), afterCall_passwordResets.
  destruct (head (filter _ (passwordResets w))) as [r0|] eqn:Eh; simpl.
  - eexists _, _, _. split; [reflexivity|].
    apply head_Some_elem_of, list_elem_of_filter in Eh as [(Ht0 & _) _]. exact Ht0.
  - apply head_None in Eh.
    assert (Hr : r ∈ filter (fun r0 => r_token r0 = r_token r ∧ r_isUsed r0 = false
                                        ∧ now < r_expiresAt r0) (passwordResets w)).
    { apply list_elem_of_filter. auto. }
    rewrite Eh in Hr. now apply elem_of_nil in Hr.
Qed.

(** C8. [createPasswordReset] on data the schema accepts (as [v]), with
    neither of its two database calls rejected, first deletes every reset
    record of the admin and then appends one new record, which is then the
    admin's only one, the records of other admins being left alone.
    Whatever the outcome, if no admin had more than one record before, none
    has more than one after. [findByToken] returns a record only if it is
    stored under that token, unused and with [now < expiresAt], and it does
    return one when such a record exists and the query is not rejected. *)
Theorem createPasswordReset_supersedes (w : State) (resetData v : ResetData)
  (newId : string) (dbNow : Z) (token : option string) (now : Z) :
  createPasswordResetSchema resetData = Returned v ->
  (nextCallRuns w -> nextCallRuns (afterCall w) ->
   ∃ newReset w',
     createPasswordReset resetData newId dbNow w = (Returned newReset, w')
     ∧ r_adminId newReset = rd_adminId v
     ∧ r_token newReset = rd_token v
     ∧ r_isUsed newReset = false
     ∧ passwordResets w'
       = (filter (fun r => r_adminId r ≠ rd_adminId v) (passwordResets w) ++ [newReset])%list
     ∧ filter (fun r => r_adminId r = rd_adminId v) (passwordResets w') = [newReset]
     ∧ ∀ a, a ≠ rd_adminId v ->
         filter (fun r => r_adminId r = a) (passwordResets w')
         = filter (fun r => r_adminId r = a) (passwordResets w))
  ∧ ((∀ a, (length (filter (fun r => r_adminId r = a) (passwordResets w)) <= 1)%nat) ->
     ∀ a, (length (filter (fun r => r_adminId r = a)
                     (passwordResets (createPasswordReset resetData newId dbNow w).2))
           <= 1)%nat)
  ∧ (∀ r adm w',
       findByToken token now w = (Returned (Some (r, adm)), w') ->
       r ∈ passwordResets w ∧ token = Some (r_token r)
       ∧ r_isUsed r = false ∧ now < r_expiresAt r)
  ∧ (∀ r, nextCallRuns w ->
       r ∈ passwordResets w -> Js.truthy (r_token r) = true ->
       r_isUsed r = false -> now < r_expiresAt r ->
       ∃ r' adm w', findByToken (Some (r_token r)) now w = (Returned (Some (r', adm)), w')
                    ∧ r_token r' = r_token r).
Proof.
  intros Hv. split; [|split; [|split]].
  - intros Hn1 Hn2.
    destruct (createPasswordReset_runs w resetData v newId dbNow Hv Hn1 Hn2)
      as (w' & Hrun & Htab).
    eexists _, w'. split; [exact Hrun|]. simpl.
    split; [reflexivity|]. split; [reflexivity|]. split; [reflexivity|].
    split; [exact Htab|]. rewrite Htab. split.
    + rewrite filter_app, filter_admin_removed, filter_cons, decide_True by reflexivity.
      reflexivity.
    + intros a Ha. rewrite filter_app, (filter_admin_other a _ _ Ha).
      rewrite filter_cons, decide_False by (simpl; congruence).
      rewrite filter_nil. apply app_nil_r.
  - intros Hinv a.
    destruct (createPasswordReset_table w resetData newId dbNow)
      as [-> | (v' & Hv' & [-> | (nr & Hnr & ->)])]; [apply Hinv | |].
    + destruct (decide (a = rd_adminId v')) as [->|Hne].
      * rewrite filter_admin_removed. simpl. lia.
      * rewrite (filter_admin_other a _ _ Hne). apply Hinv.
    + rewrite filter_app. destruct (decide (a = rd_adminId v')) as [->|Hne].
      * rewrite filter_admin_removed, filter_cons, decide_True by exact Hnr.
        simpl. lia.
      * rewrite (filter_admin_other a _ _ Hne), filter_cons, decide_False by congruence.
        rewrite filter_nil, app_nil_r. apply Hinv.
  - intros r adm w'. apply findByToken_found.
  - intros r. apply findByToken_finds.
Qed.

End Resets.

Section ResetExamples.
Import Samples.

(** Alice asks for a new reset token: her old record goes, the new one is
    her only one. *)
Lemma createPasswordReset_supersedes_witness :
  let d := {| Prisma.rd_adminId := alice; Prisma.rd_email := "alice@example.org";
              Prisma.rd_token := "tok-b"; Prisma.rd_expiresAt := 9000 |} in
  ∃ newReset w',
    PasswordResetRepository.createPasswordReset d "bbbbbbbb-bbbb-4bbb-8bbb-bbbbbbbbbbb2"
      2000 world = (World.Returned newReset, w')
    ∧ World.passwordResets w' = [newReset].
Proof.
  intros d.
  destruct (proj1 (@createPasswordReset_supersedes env world d d
                     "bbbbbbbb-bbbb-4bbb-8bbb-bbbbbbbbbbb2" 2000 (Some "tok-a") 2000
                     eq_refl) I I)
    as (nr & w' & Hrun & _ & _ & _ & Htab & _).
  exists nr, w'. split; [exact Hrun|].
  rewrite Htab. injection Hrun as Hnr _. rewrite <- Hnr. reflexivity.
Defined.

End ResetExamples.

(** ** The signup form *)
Section SignupForm.
Import Formatters StudentStore.
Context `{Constants}.

Lemma trimStart_blank (s : string) :
  allChars Js.isWhiteSpace s = true -> Js.trimStart s = "".
Proof.
  unfold allChars. induction s as [|c s IH]; simpl; [reflexivity|].
  intros Hall. apply andb_true_iff in Hall as [Hc Hs]. rewrite Hc. now apply IH.
Qed.

Lemma trim_blank (s : string) : allChars Js.isWhiteSpace s = true -> Js.trim s = "".
Proof. intros Hall. unfold Js.trim. now rewrite (trimStart_blank s Hall). Qed.

Lemma formErrors_blank (st : Store) :
  allChars Js.isWhiteSpace (formData_email st) = true ->
  allChars Js.isWhiteSpace (formData_phone st) = true ->
  ∃ base : gmap string string,
    formErrors st
    = <["phone" := REQUIRED_FIELD "Email or Phone"]>
        (<["email" := REQUIRED_FIELD "Email or Phone"]>
           (<["contact" := "Please provide either email or phone number"]> base)).
Proof.
  intros He Hp. unfold formErrors.
  rewrite (trim_blank _ He), (trim_blank _ Hp).
  rewrite !bool_decide_eq_true_2 by reflexivity. simpl.
  rewrite !andb_false_r. simpl. eauto.
Qed.

(** C5. When the email and the phone fields are both empty or made of
    white space only, [validateForm] answers false and records the contact
    error, and [submitSignup] returns false with the validated store and
    without any call of [createSignup]. *)
Theorem blank_contact_rejected_before_post
  (post : SignupData -> ApiError + ApiResponse) (st : Store) :
  allChars Js.isWhiteSpace (formData_email st) = true ->
  allChars Js.isWhiteSpace (formData_phone st) = true ->
  (validateForm st).1 = false
  ∧ errors (validateForm st).2 !! "contact"
    = Some "Please provide either email or phone number"
  ∧ is_Some (errors (validateForm st).2 !! "email")
  ∧ is_Some (errors (validateForm st).2 !! "phone")
  ∧ submitSignup post st = (false, (validateForm st).2, []).
Proof.
  intros He Hp. destruct (formErrors_blank st He Hp) as [base Hbase].
  assert (Hv : (validateForm st).1 = false).
  { unfold validateForm. simpl. rewrite Hbase. apply bool_decide_eq_false_2.
    intros Hsz. apply map_size_empty_iff in Hsz. now apply insert_non_empty in Hsz. }
  split; [exact Hv|]. split; [|split; [|split]].
  - unfold validateForm. simpl. rewrite Hbase.
    rewrite lookup_insert_ne by discriminate. rewrite lookup_insert_ne by discriminate.
    apply lookup_insert_eq.
  - unfold validateForm. simpl. rewrite Hbase.
    rewrite lookup_insert_ne by discriminate. rewrite lookup_insert_eq. eauto.
  - unfold validateForm. simpl. rewrite Hbase. rewrite lookup_insert_eq. eauto.
  - unfold submitSignup. destruct (validateForm st) as [ok st'] eqn:Ev.
    simpl in Hv. subst ok. reflexivity.
Qed.

End SignupForm.

Section SignupFormExamples.
Import Samples.

(** A form with a class type, two blanks as email and no phone: rejected,
    nothing is posted even to a server that would accept. *)
Lemma blank_contact_rejected_before_post_witness :
  (StudentStore.submitSignup accepting blankForm).1.1 = false
  ∧ (StudentStore.submitSignup accepting blankForm).2 = [].
Proof.
  destruct (@blank_contact_rejected_before_post messages accepting blankForm
              eq_refl eq_refl) as (_ & _ & _ & _ & ->).
  split; reflexivity.
Defined.

End SignupFormExamples.

(** ** The dashboard listing *)
Section Dashboard.
Import AdminStore.
Context `{Platform}.

Lemma filter_all {A} (l : list A) : filter (fun _ => True) l = l.
Proof.
  induction l as [|x l IH]; [reflexivity|].
  rewrite filter_cons, decide_True by exact I. now rewrite IH.
Qed.

Lemma filter_commute {A} (P Q : A -> Prop)
  `{!∀ x, Decision (P x)} `{!∀ x, Decision (Q x)} (l : list A) :
  filter P (filter Q l) = filter Q (filter P l).
Proof.
  rewrite !list_filter_filter. apply list_filter_iff. intros x. tauto.
Qed.

Lemma keeps_if (c : bool) (P : Signup -> Prop) `{!∀ s, Decision (P s)} :
  Keeps (fun l => if c then filter P l else l).
Proof.
  destruct c.
  - now apply (keeps _ P _).
  - apply (keeps _ (fun _ => True) _). intros l. now rewrite filter_all.
Qed.

Lemma applyFilter_keeps (k : FilterKind) (f : Filters) : Keeps (applyFilter k f).
Proof.
  destruct k; simpl.
  - apply (keeps_if _ (fun signup => Some (classType signup) = f_classType f)).
  - apply (keeps_if _ (fun signup => Some (status signup) = f_status f)).
  - apply (keeps_if _ (fun signup => inDateRange f signup)).
  - apply (keeps_if _ (fun signup => matchesReminderStatus f signup)).
Qed.

Lemma applyFilter_commute (k1 k2 : FilterKind) (f1 f2 : Filters) (l : list Signup) :
  applyFilter k1 f1 (applyFilter k2 f2 l) = applyFilter k2 f2 (applyFilter k1 f1 l).
Proof.
  destruct (applyFilter_keeps k1 f1) as [P1 d1 H1].
  destruct (applyFilter_keeps k2 f2) as [P2 d2 H2].
  rewrite !H1, !H2. apply filter_commute.
Qed.

Lemma applyFilters_permutation (f : Filters) (ks ks' : list FilterKind) (l : list Signup) :
  ks ≡ₚ ks' ->
  foldr (fun k acc => applyFilter k f acc) l ks
  = foldr (fun k acc => applyFilter k f acc) l ks'.
Proof.
  intros Hp. induction Hp as [|k ks1 ks2 _ IH|k1 k2 ks1|ks1 ks2 ks3 _ IH1 _ IH2]; simpl.
  - reflexivity.
  - now rewrite IH.
  - apply applyFilter_commute.
  - now rewrite IH1.
Qed.

(** C4. Any two of the four filters (class type, status, date range,
    reminder status) commute on every list of signups: applying them in
    either order keeps the same signups in the same order; in particular
    class type then status equals status then class type. Hence the four
    filters, applied in any order before the search and the sort, give what
    [getFilteredAndSearchedSignups] returns. *)
Theorem filters_commute (k1 k2 : FilterKind) (f1 f2 : Filters) (l : list Signup) :
  applyFilter k1 f1 (applyFilter k2 f2 l) = applyFilter k2 f2 (applyFilter k1 f1 l)
  ∧ applyStatusFilter f1 (applyClassTypeFilter f1 l)
    = applyClassTypeFilter f1 (applyStatusFilter f1 l)
  ∧ ∀ (st : Store) (ks : list FilterKind),
      ks ≡ₚ [ByClassType; ByStatus; ByDateRange; ByReminderStatus] ->
      getFilteredAndSearchedSignups st
      = Array_sort (compareSignups (sortConfig st))
          (applySearch (searchQuery st)
             (foldr (fun k acc => applyFilter k (filters st) acc) (allSignups st) ks)).
Proof.
  split; [apply applyFilter_commute|]. split.
  - exact (applyFilter_commute ByStatus ByClassType f1 f1 l).
  - intros st ks Hks.
    rewrite (applyFilters_permutation (filters st) ks
               [ByReminderStatus; ByDateRange; ByStatus; ByClassType] (allSignups st)).
    + reflexivity.
    + rewrite Hks.
      exact (symmetry (reverse_Permutation
                         [ByClassType; ByStatus; ByDateRange; ByReminderStatus])).
Qed.

(** *** Pagination *)

Lemma slice_window {A} (l : list A) (a c : Z) :
  0 <= a -> 0 <= c ->
  slice l a (a + c) = take (Z.to_nat c) (drop (Z.to_nat a) l).
Proof.
  intros Ha Hc. unfold slice.
  destruct (Z.ltb_spec a 0) as [|_]; [lia|].
  destruct (Z.ltb_spec (a + c) 0) as [|_]; [lia|].
  destruct (decide (Z.of_nat (length l) <= a)) as [Hge|Hlt].
  - rewrite (drop_ge l (Z.to_nat a)) by lia.
    rewrite Z.min_r by lia. rewrite drop_ge by lia. now rewrite !take_nil.
  - rewrite (Z.min_l a) by lia.
    destruct (decide (a + c <= Z.of_nat (length l))) as [Hin|Hout].
    + rewrite Z.min_l by lia. f_equal. lia.
    + rewrite Z.min_r by lia.
      rewrite !take_ge; [reflexivity | | ]; rewrite length_drop; lia.
Qed.

Lemma slice_length {A} (l : list A) (a c : Z) :
  0 < c -> Z.of_nat (length (slice l a (a + c))) <= c.
Proof.
  intros Hc. unfold slice. rewrite length_take, length_drop.
  destruct (Z.ltb_spec a 0), (Z.ltb_spec (a + c) 0); lia.
Qed.

Lemma windows_concat {A} (l : list A) (c m : nat) :
  concat ((fun i : nat => take c (drop (i * c) l)) <$> seq 0 m) = take (m * c) l.
Proof.
  induction m as [|m IH]; [now rewrite take_0|].
  rewrite seq_S, fmap_app, concat_app, IH. simpl.
  rewrite app_nil_r, take_take_drop. f_equal. lia.
Qed.

Lemma ceil_div_bounds (n c : Z) :
  0 <= n -> 0 < c ->
  let t := - ((- n) / c) in
  0 <= t ∧ (t - 1) * c < n ∧ n <= t * c.
Proof.
  intros Hn Hc t. subst t.
  pose proof (Z.mul_div_le (- n) c Hc) as Hle.
  pose proof (Z.mul_succ_div_gt (- n) c Hc) as Hgt.
  assert ((- n) / c <= 0) by (apply Z.div_le_upper_bound; lia).
  nia.
Qed.

(** C10. For a page size greater than zero, [getTotalPages] is the ceiling
    [n] of the filtered count divided by the page size; the pages 1 to [n]
    of [getPaginatedSignups], concatenated, are exactly the list
    [getFilteredAndSearchedSignups] returns, in order; and every page, for
    any page number, has at most [pageSize] elements. *)
Theorem pagination_covers (st : Store) :
  0 < pageSize st ->
  let filtered := getFilteredAndSearchedSignups st in
  ∃ n,
    getTotalPages st = Num n
    ∧ 0 <= n
    ∧ (n - 1) * pageSize st < Z.of_nat (length filtered) <= n * pageSize st
    ∧ concat ((fun p => getPaginatedSignups (setCurrentPage p st)) <$> seqZ 1 n) = filtered
    ∧ ∀ p, Z.of_nat (length (getPaginatedSignups (setCurrentPage p st))) <= pageSize st.
Proof.
  intros Hps filtered.
  set (len := Z.of_nat (length filtered)).
  destruct (ceil_div_bounds len (pageSize st) ltac:(lia) Hps) as (Hn0 & Hlo & Hhi).
  exists (- ((- len) / pageSize st)).
  split.
  { unfold getTotalPages, Math_ceil_div. fold filtered. fold len.
    destruct (Z.eqb_spec (pageSize st) 0); [lia | reflexivity]. }
  split; [exact Hn0|]. split; [lia|]. split.
  - set (n := - ((- len) / pageSize st)) in *.
    unfold seqZ. rewrite <- list_fmap_compose.
    rewrite (list_fmap_ext _ (fun i : nat => take (Z.to_nat (pageSize st))
                                (drop (i * Z.to_nat (pageSize st)) filtered))).
    + rewrite windows_concat. apply take_ge. nia.
    + intros i j _. simpl. unfold getPaginatedSignups. simpl.
      change (getFilteredAndSearchedSignups (setCurrentPage (Z.of_nat j + 1) st))
        with filtered.
      rewrite slice_window by nia. f_equal. f_equal. nia.
  - intros p. unfold getPaginatedSignups. simpl. apply slice_length. exact Hps.
Qed.

End Dashboard.

Section DashboardExamples.
Import Samples AdminStore.

(** Five signups of TYPE_1, newest first, in pages of two. *)
Example dashboard_listing :
  AdminStore.id <$> getFilteredAndSearchedSignups dashboard = ["u6"; "u5"; "u4"; "u3"; "u1"]
  ∧ AdminStore.id <$> getPaginatedSignups (setCurrentPage 3 dashboard) = ["u1"]
  ∧ getTotalPages dashboard = Num 3.
Proof. vm_compute. repeat split. Qed.

(** Signups whose sort key ties keep the order they had: by class type,
    the five of TYPE_1 stay in the order of [allSignups]. *)
Lemma sort_keeps_ties :
  AdminStore.id <$>
    AdminStore.Array_sort
      (compareSignups {| AdminStore.field := "classType"; AdminStore.direction := "asc" |})
      (allSignups dashboard)
  = ["u1"; "u3"; "u4"; "u5"; "u6"; "u2"].
Proof. vm_compute. reflexivity. Qed.

Lemma pagination_covers_witness :
  getTotalPages dashboard = Num 3
  ∧ concat ((fun p => getPaginatedSignups (setCurrentPage p dashboard)) <$> seqZ 1 3)
    = getFilteredAndSearchedSignups dashboard.
Proof.
  destruct (@pagination_covers platform dashboard ltac:(simpl; lia))
    as (n & Hn & _ & _ & Hcat & _).
  assert (Hthree : getTotalPages dashboard = Num 3) by (vm_compute; reflexivity).
  rewrite Hthree in Hn. injection Hn as <-.
  split; [exact Hthree | exact Hcat].
Defined.

End DashboardExamples.

(** ** The primitives and validators on concrete inputs *)
Section Examples.
Import Formatters.

Example trim_example : Js.trim "  a b  " = "a b" ∧ Js.trim "   " = "".
Proof. vm_compute. split; reflexivity. Qed.

Example endsWith_example :
  Js.endsWith "ConflictError" "Error" = true ∧ Js.endsWith "Error" "ConflictError" = false.
Proof. vm_compute. split; reflexivity. Qed.

Example includes_example :
  Js.includes "type_1" "pe_" = true ∧ Js.includes "type_1" "x" = false
  ∧ Js.includes "" "" = true.
Proof. vm_compute. repeat split. Qed.

Example isValidEmail_examples :
  isValidEmail "a@b.co" = true ∧ isValidEmail "a@b.c.d" = true
  ∧ isValidEmail "a@b" = false ∧ isValidEmail "a b@c.d" = false
  ∧ isValidEmail "@b.c" = false ∧ isValidEmail "a@.c" = false
  ∧ isValidEmail "a@b." = false ∧ isValidEmail "a@b@c.d" = false
  ∧ isValidEmail "" = false.
Proof. vm_compute. repeat split. Qed.

Example isValidPhone_examples :
  isValidPhone "+1 (555) 123-4567" = true ∧ isValidPhone "5551234567" = true
  ∧ isValidPhone "12345" = false ∧ isValidPhone "555-123-456a" = false
  ∧ isValidPhone "(((((((((((" = false.
Proof. vm_compute. repeat split. Qed.

Example slice_examples :
  AdminStore.slice [1; 2; 3; 4; 5] 2 4 = [3; 4]
  ∧ AdminStore.slice [1; 2; 3; 4; 5] (-2) 9 = [4; 5]
  ∧ AdminStore.slice [1; 2; 3; 4; 5] 4 2 = []
  ∧ AdminStore.slice [1; 2; 3; 4; 5] 6 8 = [].
Proof. vm_compute. repeat split. Qed.

Example ceil_examples :
  AdminStore.Math_ceil_div 5 2 = AdminStore.Num 3
  ∧ AdminStore.Math_ceil_div 4 2 = AdminStore.Num 2
  ∧ AdminStore.Math_ceil_div 0 2 = AdminStore.Num 0
  ∧ AdminStore.Math_ceil_div 5 0 = AdminStore.Infinity
  ∧ AdminStore.Math_ceil_div 0 0 = AdminStore.NaN.
Proof. vm_compute. repeat split. Qed.

(** A zod error, a Prisma error, a custom error and a plain error through
    [transformError]. *)
Example transformError_examples :
  Errors.name (Errors.transformError Samples.codes (Samples.zodError "Invalid uuid") "findById")
  = "ValidationError"
  ∧ Errors.message
      (Errors.transformError Samples.codes (Samples.zodError "Invalid uuid") "findById")
    = "findById - : Invalid uuid"
  ∧ Errors.name (Errors.transformError Samples.codes Samples.p2002 "createSignup")
    = "ConflictError"
  ∧ Errors.message (Errors.transformError Samples.codes Samples.p2002 "createSignup")
    = "email already exists"
  ∧ Errors.name (Errors.transformError Samples.codes
                   (World.prismaError "P2025" "Record to delete does not exist.") "deleteSession")
    = "NotFoundError"
  ∧ Errors.transformError Samples.codes
      (Errors.NotFoundError Samples.codes "Admin not found" None None) "getProfile"
    = Errors.NotFoundError Samples.codes "Admin not found" None None
  ∧ Errors.name (Errors.transformError Samples.codes (Errors.newError "boom") "login")
    = "BusinessLogicError".
Proof. vm_compute. repeat split. Qed.

End Examples.

(** ** The error translation, beyond conflicts *)
Section ErrorKinds.
Import Errors Utils ErrorCodesSpec.
Context (ERROR_CODES : ErrorCodes).

Lemma transformPrismaError_shape (e : JsError) (operation : string) :
  ∃ nm dflt msg c md,
    transformPrismaError ERROR_CODES e operation
    = createErrorFactory nm dflt msg (Some c) md
    ∧ (nm = "ConflictError" ∧ c = UNIQUE_VIOLATION ERROR_CODES
       ∨ nm = "NotFoundError" ∧ c = RECORD_NOT_FOUND ERROR_CODES
       ∨ nm = "BusinessLogicError" ∧ c = BUSINESS_LOGIC_ERROR ERROR_CODES
       ∨ nm = "DatabaseError" ∧ c = DB_OPERATION_FAILED ERROR_CODES).
Proof.
  unfold transformPrismaError, ConflictError, NotFoundError, BusinessLogicError,
    DatabaseError.
  repeat case_match; eexists _, _, _, _, _; (split; [reflexivity|]); tauto.
Qed.

Lemma transformPrismaError_other (e : JsError) (operation c : string) :
  code e = Some c -> c ≠ "P2002" -> c ≠ "P2025" ->
  name (transformPrismaError ERROR_CODES e operation) = "BusinessLogicError"
  ∨ name (transformPrismaError ERROR_CODES e operation) = "DatabaseError".
Proof.
  intros Hc H1 H2. unfold transformPrismaError. rewrite Hc.
  repeat case_match; subst; simpl; try tauto;
    first [exfalso; apply H1; reflexivity | exfalso; apply H2; reflexivity].
Qed.

Lemma transformError_factory (nm dflt msg c : string) (md : option Metadata)
  (context : string) :
  nm ≠ "ZodError" -> Js.truthy nm = true -> Js.endsWith nm "Error" = true ->
  plainCode c ->
  transformError ERROR_CODES (createErrorFactory nm dflt msg (Some c) md) context
  = createErrorFactory nm dflt msg (Some c) md.
Proof.
  intros Hz Ht He Hp. apply (transformError_custom ERROR_CODES _ c); try assumption.
  - unfold isZodError. simpl. now rewrite bool_decide_eq_false_2.
  - reflexivity.
Qed.

Lemma transformZodError_shape (e : JsError) (context : string) :
  isZodError e = true ->
  ∃ msg md, transformZodError ERROR_CODES e context
            = createErrorFactory "ValidationError" (VALIDATION_ERROR ERROR_CODES) msg
                (Some (VALIDATION_ERROR ERROR_CODES)) md.
Proof.
  intros Hz. unfold transformZodError. rewrite Hz. simpl.
  destruct (match errors e with Some l => l | None => default [] (issues e) end);
    eexists _, _; reflexivity.
Qed.

(** What [transformError] returns is left alone by a second
    [transformError]. *)
Lemma transformError_stable (e : JsError) (c1 c2 : string) :
  plainCodes ERROR_CODES ->
  transformError ERROR_CODES (transformError ERROR_CODES e c1) c2
  = transformError ERROR_CODES e c1.
Proof.
  intros (Hv & Hu & Hr & Hb & Hd).
  assert (Hshape :
    (∃ nm dflt msg c md,
       transformError ERROR_CODES e c1 = createErrorFactory nm dflt msg (Some c) md
       ∧ nm ≠ "ZodError" ∧ Js.truthy nm = true ∧ Js.endsWith nm "Error" = true
       ∧ plainCode c)
    ∨ (transformError ERROR_CODES e c1 = e
       ∧ transformError ERROR_CODES e c2 = e)).
  { unfold transformError.
    destruct (isZodError e) eqn:Hz.
    - left. destruct (transformZodError_shape e c1 Hz) as (msg & md & ->).
      eexists _, _, _, _, _. split; [reflexivity|]. repeat split; try done; apply Hv.
    - destruct (match code e with Some c => _ | None => false end) eqn:Hp.
      + left. destruct (transformPrismaError_shape e c1)
          as (nm & dflt & msg & c & md & -> & [[-> ->]|[[-> ->]|[[-> ->]|[-> ->]]]]);
          eexists _, _, _, _, _; (split; [reflexivity|]); repeat split; try done;
          first [apply Hu | apply Hr | apply Hb | apply Hd].
      + destruct (Js.truthy (name e) && Js.endsWith (name e) "Error"
                  && Js.truthy_opt (code e)) eqn:Hc.
        * right. split; reflexivity.
        * left. eexists _, _, _, _, _. split; [reflexivity|].
          repeat split; try done; apply Hb. }
  destruct Hshape as [(nm & dflt & msg & c & md & -> & Hn & Ht & He & Hp) | [-> ->]].
  - now apply transformError_factory.
  - reflexivity.
Qed.

(** X1. When the codes the translation hands out are non-empty and do not
    start with "P", translating twice is translating once: an error that a
    repository has re-thrown through [transformError] gets from
    [createErrorResponse] the very response the original error would get. *)
Theorem rethrown_error_same_response (e : JsError) (fn context : string) (now : Z) :
  plainCodes ERROR_CODES ->
  transformError ERROR_CODES (transformError ERROR_CODES e fn) context
  = transformError ERROR_CODES e fn
  ∧ createErrorResponse ERROR_CODES (transformError ERROR_CODES e fn) context now
    = createErrorResponse ERROR_CODES e fn now.
Proof.
  intros Hp. split; [now apply transformError_stable|].
  unfold createErrorResponse. now rewrite transformError_stable.
Qed.

(** X2. The status follows the kind of the error: a zod error is answered
    with 400, a Prisma error with code P2002 with 409, with code P2025 with
    404, with any other code that starts with "P" with 500, and an error
    without code with 500; whatever the error, the status is one of the
    four and [success] is false. *)
Theorem status_by_error_kind (e : JsError) (context : string) (now : Z) :
  (isZodError e = true -> status (createErrorResponse ERROR_CODES e context now) = 400)
  ∧ (isZodError e = false -> code e = Some "P2002" ->
     status (createErrorResponse ERROR_CODES e context now) = 409)
  ∧ (isZodError e = false -> code e = Some "P2025" ->
     status (createErrorResponse ERROR_CODES e context now) = 404)
  ∧ (isZodError e = false ->
     ∀ c, code e = Some c -> Js.startsWith c "P" = true ->
          c ≠ "P2002" -> c ≠ "P2025" ->
          status (createErrorResponse ERROR_CODES e context now) = 500)
  ∧ (isZodError e = false -> code e = None ->
     status (createErrorResponse ERROR_CODES e context now) = 500)
  ∧ status (createErrorResponse ERROR_CODES e context now) ∈ [400; 404; 409; 500]
  ∧ success (json (createErrorResponse ERROR_CODES e context now)) = false.
Proof.
  split; [|split; [|split; [|split; [|split; [|split]]]]].
  - intros Hz. unfold createErrorResponse, transformError. rewrite Hz.
    destruct (transformZodError_shape e context Hz) as (msg & md & ->). reflexivity.
  - intros Hz Hc. unfold createErrorResponse, transformError, transformPrismaError.
    now rewrite Hz, Hc.
  - intros Hz Hc. unfold createErrorResponse, transformError, transformPrismaError.
    now rewrite Hz, Hc.
  - intros Hz c Hc Hp H1 H2. unfold createErrorResponse, transformError.
    rewrite Hz, Hc, Hp.
    assert (Ht : Js.truthy c = true) by (destruct c; [discriminate | reflexivity]).
    rewrite Ht. simpl.
    unfold isValidationError, isConflictError, isNotFoundError.
    destruct (transformPrismaError_other e context c Hc H1 H2) as [-> | ->]; reflexivity.
  - intros Hz Hc. unfold createErrorResponse, transformError. rewrite Hz, Hc. simpl.
    rewrite andb_false_r. reflexivity.
  - unfold createErrorResponse. simpl.
    repeat case_match; set_solver.
  - reflexivity.
Qed.

End ErrorKinds.

Section ErrorKindsExamples.
Import Errors Utils.

Lemma rethrown_error_same_response_witness :
  createErrorResponse Samples.codes
    (transformError Samples.codes Samples.p2002 "createSession") "login" 0
  = createErrorResponse Samples.codes Samples.p2002 "createSession" 0.
Proof.
  refine (proj2 (rethrown_error_same_response Samples.codes Samples.p2002
                   "createSession" "login" 0 _)).
  repeat split.
Defined.

End ErrorKindsExamples.

(** ** More of the session repository *)
Section SessionsMore.
Import Errors World Prisma AdminSessionRepository.
Context `{Env}.

Ltac async_unfold :=
  unfold try_catch, rethrow, mbind, mret, async_bind, async_ret, bind, ret, lift,
    throw, logger.

Lemma filter_id_singleton (l : list AdminSession) (s : AdminSession) :
  NoDup (id <$> l) -> s ∈ l -> filter (fun r => id r = id s) l = [s].
Proof.
  induction l as [|x l IH]; intros Hnd Hin; [now apply elem_of_nil in Hin|].
  rewrite fmap_cons in Hnd. apply NoDup_cons in Hnd as [Hx Hnd].
  rewrite filter_cons. apply elem_of_cons in Hin as [->|Hin].
  - rewrite decide_True by reflexivity. f_equal.
    clear IH Hnd. induction l as [|y l IH]; [reflexivity|].
    rewrite filter_cons, decide_False.
    + apply IH. intros Hy. apply Hx. rewrite fmap_cons. now right.
    + intros Hy. apply Hx. rewrite fmap_cons, Hy. now left.
  - rewrite decide_False; [now apply IH|].
    intros Heq. apply Hx. rewrite Heq. now apply list_elem_of_fmap_2.
Qed.

Lemma nextCallRuns_add_log e w : nextCallRuns (add_log e w) <-> nextCallRuns w.
Proof. reflexivity. Qed.

Lemma nextCallRuns_set_adminSessions l w :
  nextCallRuns (set_adminSessions l w) <-> nextCallRuns w.
Proof. reflexivity. Qed.

Lemma deleteSession_runs (w : State) (sessionId validId : string) (s : AdminSession) :
  uuidSchema sessionId = Returned validId ->
  nextCallRuns w ->
  head (filter (fun r => id r = validId) (adminSessions w)) = Some s ->
  deleteSession sessionId w
  = (Returned (true, id s),
     add_log {| level := LInfo; text := "Session deleted" |}
       (set_adminSessions (filter (fun r => id r ≠ validId) (adminSessions w))
          (afterCall w))).
Proof.
  intros Hu Hn Hh. unfold deleteSession, session_delete. async_unfold.
  rewrite Hu, (dbCall_runs _ _ Hn), afterCall_adminSessions, Hh. reflexivity.
Qed.

(** X3. Deleting a stored session (by its id, the primary key, through a
    call that is not rejected) removes that row and no other: the table
    afterwards is the old one without it, one row shorter, and the result
    names the deleted id. *)
Theorem deleteSession_removes_one (w : State) (sessionId validId : string)
  (s : AdminSession) :
  uuidSchema sessionId = Returned validId ->
  nextCallRuns w ->
  NoDup (id <$> adminSessions w) ->
  s ∈ adminSessions w -> id s = validId ->
  ∃ w',
    deleteSession sessionId w = (Returned (true, validId), w')
    ∧ adminSessions w' = filter (fun r => id r ≠ validId) (adminSessions w)
    ∧ (s ∉ adminSessions w')
    ∧ (∀ r, r ∈ adminSessions w -> r ≠ s -> r ∈ adminSessions w')
    ∧ length (adminSessions w) = S (length (adminSessions w')).
Proof.
  intros Hu Hn Hnd Hs Hid. subst validId.
  rewrite (deleteSession_runs w sessionId (id s) s Hu Hn (findUnique_by_id _ s Hnd Hs)).
  eexists. split; [reflexivity|]. simpl. split; [reflexivity|].
  split; [|split].
  - intros Hin. apply list_elem_of_filter in Hin as [Hne _]. now apply Hne.
  - intros r Hr Hne. apply list_elem_of_filter. split; [|assumption].
    intros Heq. apply Hne.
    pose proof (findUnique_by_id _ r Hnd Hr) as H1.
    pose proof (findUnique_by_id _ s Hnd Hs) as H2.
    rewrite Heq in H1. congruence.
  - rewrite (filter_split_length (fun r => id r = id s) (adminSessions w)).
    rewrite (filter_id_singleton _ s Hnd Hs). simpl. lia.
Qed.

(** X4. Deleting a session that is not stored throws: Prisma's P2025 comes
    out of the repository as a NotFoundError with
    [ERROR_CODES.RECORD_NOT_FOUND], an error is logged, and the table is
    left as it was. *)
Theorem deleteSession_missing (w : State) (sessionId validId : string) :
  uuidSchema sessionId = Returned validId ->
  nextCallRuns w ->
  (∀ s, s ∈ adminSessions w -> id s ≠ validId) ->
  ∃ e w',
    deleteSession sessionId w = (Thrown e, w')
    ∧ name e = "NotFoundError"
    ∧ code e = Some (RECORD_NOT_FOUND ERROR_CODES)
    ∧ adminSessions w' = adminSessions w
    ∧ log w' = (log w ++ [ {| level := LError; text := "Failed to delete session" |} ])%list.
Proof.
  intros Hu Hn Hnone. unfold deleteSession, session_delete. async_unfold.
  rewrite Hu, (dbCall_runs _ _ Hn), afterCall_adminSessions.
  rewrite (findUnique_none _ _ Hnone). simpl.
  eexists _, _. split; [reflexivity|]. simpl.
  split; [reflexivity|]. split; [reflexivity|].
  split; [apply afterCall_adminSessions|]. now rewrite afterCall_log.
Qed.

(** X5. Logout invalidates: once [deleteSession] has removed a session,
    [isSessionValid] for its id answers false at every time, also before
    the expiry the session had. *)
Theorem deleted_session_is_invalid (w : State) (sessionId validId : string)
  (s : AdminSession) (now : Z) :
  uuidSchema sessionId = Returned validId ->
  nextCallRuns w -> nextCallRuns (afterCall w) ->
  NoDup (id <$> adminSessions w) ->
  s ∈ adminSessions w -> id s = validId ->
  ∃ w',
    deleteSession sessionId w = (Returned (true, validId), w')
    ∧ (isSessionValid sessionId now w').1 = Returned false.
Proof.
  intros Hu Hn Hn2 Hnd Hs Hid. subst validId.
  rewrite (deleteSession_runs w sessionId (id s) s Hu Hn (findUnique_by_id _ s Hnd Hs)).
  eexists. split; [reflexivity|].
  rewrite (isSessionValid_runs _ sessionId (id s) now Hu); [|exact Hn2].
  simpl. rewrite findUnique_none; [reflexivity|].
  intros r Hr. now apply list_elem_of_filter in Hr as [Hne _].
Qed.

Lemma head_filter_snoc_fresh {A} (P : A -> Prop) `{!∀ x, Decision (P x)}
  (l : list A) (x : A) :
  (∀ y, y ∈ l -> ¬ P y) -> P x -> head (filter P (l ++ [x])%list) = Some x.
Proof.
  intros Hl Hx. rewrite filter_app.
  assert (Hnil : filter P l = []).
  { induction l as [|y l IH]; [reflexivity|].
    rewrite filter_cons, decide_False by (apply Hl; now left).
    apply IH. intros z Hz. apply Hl. now right. }
  rewrite Hnil, filter_cons, decide_True by exact Hx. reflexivity.
Qed.

(** X6. Round trip of a login: when [createSession] stores a session whose
    access and refresh tokens are non-empty and not yet in use,
    [findByAccessToken] and [findByRefreshToken] with those tokens both
    return the very session object [createSession] returned, and nothing
    else was added to the table. *)
Theorem created_session_is_found (w : State) (d v : SessionData)
  (newId : string) (dbNow : Z) :
  createSessionSchema d = Returned v ->
  Js.truthy (d_token v) = true -> Js.truthy (d_refreshToken v) = true ->
  nextCallRuns w -> nextCallRuns (afterCall w) ->
  (∀ s, s ∈ adminSessions w ->
        token s ≠ d_token v ∧ refreshToken s ≠ d_refreshToken v) ->
  ∃ view w1,
    createSession d newId dbNow w = (Returned view, w1)
    ∧ v_id view = pick (sel_id SESSION_FIELDS_withTokens) newId
    ∧ (∃ row, adminSessions w1 = (adminSessions w ++ [row])%list
              ∧ view = select SESSION_FIELDS_withTokens row)
    ∧ (findByAccessToken (Some (d_token v)) w1).1 = Returned (Some view)
    ∧ (findByRefreshToken (Some (d_refreshToken v)) w1).1 = Returned (Some view).
Proof.
  intros Hv Ht Hr Hn1 Hn2 Hfresh.
  unfold createSession, findByAccessToken, findByRefreshToken, session_create,
    session_findFirst.
  async_unfold. rewrite Hv, Ht, Hr. unfold dbCall, nextCallRuns, afterCall in *.
  destruct (faults w) as [|[e|] rest] eqn:Ef; simpl in *; rewrite ?Ef; simpl;
    try contradiction.
  - eexists _, _. split; [reflexivity|]. simpl. rewrite Ef. simpl.
    split; [reflexivity|]. split; [eexists; split; reflexivity|].
    rewrite !head_filter_snoc_fresh; try reflexivity;
      [now split | intros y Hy; apply (Hfresh y Hy) ..].
  - eexists _, _. split; [reflexivity|]. simpl.
    split; [reflexivity|]. split; [eexists; split; reflexivity|].
    destruct rest as [|[e|] rest']; simpl in *; try contradiction;
      (rewrite !head_filter_snoc_fresh; try reflexivity;
       [now split | intros y Hy; apply (Hfresh y Hy) ..]).
Qed.

(** X7. A lookup without a token never reaches the database: for a
    missing or empty token, [findByAccessToken] and [findByRefreshToken]
    throw a ValidationError and only add the error to the log (given that
    [ERROR_CODES.VALIDATION_ERROR] is a non-empty code that does not start
    with "P"). *)
Theorem token_lookup_requires_token (w : State) (t : option string) :
  plainCode (VALIDATION_ERROR ERROR_CODES) ->
  Js.truthy_opt t = false ->
  findByAccessToken t w
  = (Thrown (ValidationError ERROR_CODES "Token is required" None None),
     add_log {| level := LError; text := "Failed to find session by access token" |} w)
  ∧ findByRefreshToken t w
    = (Thrown (ValidationError ERROR_CODES "Refresh token is required" None None),
       add_log {| level := LError; text := "Failed to find session by refresh token" |} w).
Proof.
  intros Hp Ht. unfold findByAccessToken, findByRefreshToken. async_unfold.
  assert (Hstable : ∀ msg fn,
    transformError ERROR_CODES (ValidationError ERROR_CODES msg None None) fn
    = ValidationError ERROR_CODES msg None None).
  { intros msg fn.
    apply (transformError_custom ERROR_CODES _ (VALIDATION_ERROR ERROR_CODES));
      try reflexivity; exact Hp. }
  destruct t as [s|]; simpl in Ht; [rewrite Ht|]; simpl; now rewrite !Hstable.
Qed.

Lemma omap_nothing_allowed (entries : list (string * option FieldValue)) :
  Forall (fun kv => kv.1 ∉ ALLOWED_SESSION_UPDATE_FIELDS ∨ kv.2 = None) entries ->
  omap (fun kv : string * option FieldValue =>
          if bool_decide (kv.1 ∈ ALLOWED_SESSION_UPDATE_FIELDS)
          then (fun v => (kv.1, v)) <$> kv.2 else None) entries = [].
Proof.
  intros Hall. apply elem_of_nil_inv. intros y Hy.
  apply list_elem_of_omap in Hy as ([k v] & Hin & Hf).
  rewrite Forall_forall in Hall. destruct (Hall _ Hin) as [Hk | Hv]; simpl in *.
  - now rewrite bool_decide_eq_false_2 in Hf.
  - subst v. now destruct (bool_decide _).
Qed.

(** X8. [updateSession] refuses an update that would write nothing: no
    update object, an empty one, or one whose fields are all outside
    [ALLOWED_SESSION_UPDATE_FIELDS] or null. It throws a ValidationError
    before any database call: no row changes and no entry of the fault
    schedule is taken. *)
Theorem updateSession_rejects_empty_update (w : State) (sessionId validId : string)
  (updateData : option (list (string * option FieldValue))) (now : Z) :
  uuidSchema sessionId = Returned validId ->
  plainCode (VALIDATION_ERROR ERROR_CODES) ->
  (∀ entries, updateData = Some entries ->
     Forall (fun kv => kv.1 ∉ ALLOWED_SESSION_UPDATE_FIELDS ∨ kv.2 = None) entries) ->
  ∃ e,
    updateSession sessionId updateData now w
    = (Thrown e, add_log {| level := LError; text := "Failed to update session" |} w)
    ∧ name e = "ValidationError"
    ∧ (message e = "Update data cannot be empty"
       ∨ message e = "No valid fields to update").
Proof.
  intros Hu Hp Hnone. unfold updateSession. async_unfold. rewrite Hu.
  assert (Hstable : ∀ msg fn,
    transformError ERROR_CODES (ValidationError ERROR_CODES msg None None) fn
    = ValidationError ERROR_CODES msg None None).
  { intros msg fn.
    apply (transformError_custom ERROR_CODES _ (VALIDATION_ERROR ERROR_CODES));
      try reflexivity; exact Hp. }
  destruct updateData as [[|kv entries]|].
  - simpl. rewrite Hstable. eexists. split; [reflexivity|]. simpl. tauto.
  - rewrite (omap_nothing_allowed _ (Hnone _ eq_refl)). simpl. rewrite Hstable.
    eexists. split; [reflexivity|]. simpl. tauto.
  - simpl. rewrite Hstable. eexists. split; [reflexivity|]. simpl. tauto.
Qed.

Lemma filter_keeps_all {A} (P : A -> Prop) `{!∀ x, Decision (P x)} (l : list A) :
  (∀ x, x ∈ l -> P x) -> filter P l = l.
Proof.
  induction l as [|x l IH]; intros Hall; [reflexivity|].
  rewrite filter_cons, decide_True by (apply Hall; now left).
  f_equal. apply IH. intros y Hy. apply Hall. now right.
Qed.

Lemma session_count_runs (P : AdminSession -> Prop) `{!∀ s, Decision (P s)} (w : State) :
  nextCallRuns w ->
  session_count P w = (Returned (length (filter P (adminSessions w))), afterCall w).
Proof.
  intros Hn. unfold session_count.
  rewrite (dbCall_runs _ _ Hn), afterCall_adminSessions. reflexivity.
Qed.

Lemma session_findFirst_desc_runs (P : AdminSession -> Prop) `{!∀ s, Decision (P s)}
  (w : State) :
  nextCallRuns w ->
  session_findFirst_desc P w
  = (Returned (head (orderByCreatedAtDesc (filter P (adminSessions w)))), afterCall w).
Proof.
  intros Hn. unfold session_findFirst_desc.
  rewrite (dbCall_runs _ _ Hn), afterCall_adminSessions. reflexivity.
Qed.

Lemma createdAt_desc_sorted (l : list AdminSession) :
  StronglySorted createdAt_desc (orderByCreatedAtDesc l).
Proof.
  assert (Transitive createdAt_desc) by (intros x y z; unfold createdAt_desc; lia).
  assert (Total createdAt_desc) by (intros x y; unfold createdAt_desc; lia).
  apply StronglySorted_merge_sort; assumption.
Qed.

Lemma sorted_lookup_pair {A} (R : relation A) (l : list A) (i j : nat) (x y : A) :
  StronglySorted R l -> (i < j)%nat -> l !! i = Some x -> l !! j = Some y -> R x y.
Proof.
  intros Hs. revert i j. induction Hs as [|a l Hs IH Hall]; intros i j Hij Hi Hj.
  - discriminate.
  - destruct j as [|j]; [lia|]. simpl in Hj. destruct i as [|i]; simpl in Hi.
    + injection Hi as <-. rewrite Forall_forall in Hall. apply Hall.
      now apply list_elem_of_lookup_2 in Hj.
    + apply (IH i j); [lia | assumption | assumption].
Qed.

Lemma filter_and_length {A} (P Q : A -> Prop)
  `{!∀ x, Decision (P x)} `{!∀ x, Decision (Q x)} (l : list A) :
  (length (filter (fun x => P x ∧ Q x) l) <= length (filter P l))%nat.
Proof.
  induction l as [|x l IH]; [reflexivity|].
  rewrite !filter_cons.
  destruct (decide (P x)), (decide (P x ∧ Q x)); simpl; try lia; tauto.
Qed.

(** X9. [getSessionStats], with none of its three queries rejected: the
    total is the number of the admin's sessions, the active count is the
    number of those that expire after [now] and never exceeds the total,
    there is a last session exactly when the total is not zero, and it is
    one created no earlier than any other session of the admin; the table
    is only read. *)
Theorem getSessionStats_consistent (w : State) (adminId validId : string) (now : Z) :
  uuidSchema adminId = Returned validId ->
  nextCallRuns w -> nextCallRuns (afterCall w) ->
  nextCallRuns (afterCall (afterCall w)) ->
  ∃ activeSessions totalSessions lastSession w',
    getSessionStats adminId now w
    = (Returned (activeSessions, totalSessions, lastSession), w')
    ∧ totalSessions
      = length (filter (fun s => World.adminId s = validId) (adminSessions w))
    ∧ activeSessions
      = length (filter (fun s => World.adminId s = validId ∧ now < expiresAt s)
                  (adminSessions w))
    ∧ (activeSessions <= totalSessions)%nat
    ∧ (lastSession = None <-> totalSessions = 0%nat)
    ∧ (∀ c ip ua, lastSession = Some (c, ip, ua) ->
         (∃ s, s ∈ adminSessions w ∧ World.adminId s = validId ∧ createdAt s = c)
         ∧ ∀ s, s ∈ adminSessions w -> World.adminId s = validId -> createdAt s <= c)
    ∧ adminSessions w' = adminSessions w.
Proof.
  intros Hu Hn1 Hn2 Hn3. unfold getSessionStats. async_unfold. rewrite Hu.
  unfold promiseAll3.
  rewrite (session_count_runs _ w Hn1), (session_count_runs _ _ Hn2),
    (session_findFirst_desc_runs _ _ Hn3).
  rewrite !afterCall_adminSessions.
  set (rows := filter (fun s => World.adminId s = validId) (adminSessions w)).
  eexists _, _, _, _. split; [reflexivity|]. simpl.
  split; [reflexivity|]. split; [reflexivity|].
  split; [apply filter_and_length|]. split; [|split].
  - pose proof (orderByCreatedAtDesc_perm rows) as Hp.
    destruct (orderByCreatedAtDesc rows) as [|x l] eqn:Es; simpl.
    + apply Permutation_nil in Hp. rewrite Hp. simpl. tauto.
    + apply Permutation_length in Hp. simpl in Hp. split; [discriminate | lia].
  - intros c ip ua Hlast.
    pose proof (orderByCreatedAtDesc_perm rows) as Hp.
    pose proof (createdAt_desc_sorted rows) as Hs.
    destruct (orderByCreatedAtDesc rows) as [|x l] eqn:Es; [discriminate|].
    simpl in Hlast. injection Hlast as <- _ _.
    assert (Hx : x ∈ rows) by (rewrite <- Hp; now left).
    apply list_elem_of_filter in Hx as [Hxa Hxin].
    split; [now exists x|].
    intros s Hsin Hsa.
    assert (Hsr : s ∈ x :: l).
    { rewrite Hp. apply list_elem_of_filter. now split. }
    apply elem_of_cons in Hsr as [->|Hsl]; [lia|].
    inversion Hs as [|? ? _ Hall]; subst. rewrite Forall_forall in Hall.
    exact (Hall s Hsl).
  - now rewrite !afterCall_adminSessions.
Qed.

(** X10. After logout-all, the admin has no sessions to list:
    [getAdminSessions] returns the empty list with all three counts zero,
    with or without expired sessions. *)
Theorem no_sessions_after_logout_all (w : State) (adminId validId : string)
  (includeExpired : bool) (now currentTime : Z) :
  uuidSchema adminId = Returned validId ->
  nextCallRuns w -> nextCallRuns (afterCall w) ->
  ∃ deletedCount w1 w2,
    invalidateAllSessions adminId w = (Returned deletedCount, w1)
    ∧ getAdminSessions adminId includeExpired now currentTime w1
      = (Returned {| sessions := []; total := 0; active := 0; expired := 0 |}, w2).
Proof.
  intros Hu Hn1 Hn2. unfold invalidateAllSessions at 1. async_unfold.
  rewrite Hu, (session_deleteMany_runs _ w Hn1). simpl.
  eexists _, _, _. split; [reflexivity|].
  rewrite (getAdminSessions_runs _ adminId validId includeExpired now currentTime Hu);
    [|exact Hn2].
  simpl.
  assert (Hnil : ∀ (Q : AdminSession -> Prop) `{!∀ s, Decision (Q s)},
            (∀ s, Q s -> World.adminId s = validId) ->
            orderByCreatedAtDesc
              (filter Q (filter (fun s => World.adminId s ≠ validId) (adminSessions w)))
            = []).
  { intros Q ? HQ.
    assert (Hf : filter Q (filter (fun s => World.adminId s ≠ validId) (adminSessions w))
                 = []).
    { apply elem_of_nil_inv. intros s Hs.
      apply list_elem_of_filter in Hs as [Hq Hs].
      apply list_elem_of_filter in Hs as [Hne _]. apply Hne. now apply HQ. }
    rewrite Hf. reflexivity. }
  destruct includeExpired; rewrite Hnil; try reflexivity; tauto.
Qed.

(** X11. The sweep is idempotent: a second [cleanupExpiredSessions] at the
    same clock reading (or an earlier one) deletes nothing and leaves the
    table as the first sweep left it. *)
Theorem cleanupExpiredSessions_twice (w : State) (now now' : Z) :
  now' <= now ->
  nextCallRuns w -> nextCallRuns (afterCall w) ->
  ∃ n w1 w2,
    cleanupExpiredSessions now w = (Returned n, w1)
    ∧ cleanupExpiredSessions now' w1 = (Returned 0%nat, w2)
    ∧ adminSessions w2 = adminSessions w1.
Proof.
  intros Hle Hn1 Hn2. unfold cleanupExpiredSessions. async_unfold.
  rewrite (session_deleteMany_runs _ w Hn1). simpl.
  eexists _, _, _. split; [reflexivity|].
  rewrite session_deleteMany_runs by exact Hn2. simpl.
  set (kept := filter (fun s => ¬ expiresAt s < now) (adminSessions w)).
  assert (Hnone : filter (fun s => expiresAt s < now') kept = []).
  { apply elem_of_nil_inv. intros s Hs.
    apply list_elem_of_filter in Hs as [Hlt Hs].
    apply list_elem_of_filter in Hs as [Hge _]. lia. }
  assert (Hall : filter (fun s => ¬ expiresAt s < now') kept = kept).
  { apply filter_keeps_all. intros s Hs.
    apply list_elem_of_filter in Hs as [Hge _]. lia. }
  rewrite Hnone, Hall. split; reflexivity.
Qed.

(** X12. [getAdminSessions] lists newest first: when
    [SESSION_FIELDS.public] selects [createdAt], a session that comes
    earlier in the returned list was created no earlier than one that comes
    later. *)
Theorem getAdminSessions_newest_first (w : State) (adminId validId : string)
  (includeExpired : bool) (now currentTime : Z) :
  uuidSchema adminId = Returned validId ->
  nextCallRuns w ->
  sel_createdAt SESSION_FIELDS_public = true ->
  ∃ r w',
    getAdminSessions adminId includeExpired now currentTime w = (Returned r, w')
    ∧ ∀ i j vi vj, (i < j)%nat ->
        sessions r !! i = Some vi -> sessions r !! j = Some vj ->
        ∃ ci cj, v_createdAt vi = Some ci ∧ v_createdAt vj = Some cj ∧ cj <= ci.
Proof.
  intros Hu Hn Hsel.
  rewrite (getAdminSessions_runs w adminId validId includeExpired now currentTime Hu Hn).
  eexists _, _. split; [reflexivity|]. simpl.
  set (rows := if includeExpired then _ else _).
  intros i j vi vj Hij Hi Hj.
  rewrite list_lookup_fmap in Hi, Hj.
  destruct (orderByCreatedAtDesc rows !! i) as [si|] eqn:Ei; [|discriminate].
  destruct (orderByCreatedAtDesc rows !! j) as [sj|] eqn:Ej; [|discriminate].
  simpl in Hi, Hj. injection Hi as <-. injection Hj as <-.
  exists (createdAt si), (createdAt sj). simpl. rewrite Hsel. simpl.
  split; [reflexivity|]. split; [reflexivity|].
  exact (sorted_lookup_pair _ _ i j si sj (createdAt_desc_sorted rows) Hij Ei Ej).
Qed.

End SessionsMore.

Section SessionsMoreExamples.
Import Samples MoreSamples Errors World Prisma AdminSessionRepository.

Lemma sample_ids_distinct : NoDup (id <$> adminSessions world).
Proof. apply (bool_decide_unpack _). vm_compute. exact I. Qed.

Lemma deleteSession_removes_one_witness :
  ∃ w', deleteSession (id s2) world = (Returned (true, id s2), w')
        ∧ adminSessions w' = [s1; s3; s4].
Proof.
  destruct (@deleteSession_removes_one env world (id s2) (id s2) s2 eq_refl I
              sample_ids_distinct ltac:(simpl; set_solver) eq_refl)
    as (w' & Hrun & Htab & _).
  exists w'. split; [exact Hrun|]. rewrite Htab. reflexivity.
Defined.

Lemma deleteSession_missing_witness :
  ∃ e w', deleteSession "cccccccc-cccc-4ccc-8ccc-ccccccccccc1" world = (Thrown e, w')
          ∧ name e = "NotFoundError".
Proof.
  destruct (@deleteSession_missing env world "cccccccc-cccc-4ccc-8ccc-ccccccccccc1"
              "cccccccc-cccc-4ccc-8ccc-ccccccccccc1" eq_refl I)
    as (e & w' & Hrun & Hname & _).
  - intros s Hs. simpl in Hs.
    repeat (apply elem_of_cons in Hs as [->|Hs]; [discriminate|]).
    now apply elem_of_nil in Hs.
  - exists e, w'. split; assumption.
Defined.

Lemma deleted_session_is_invalid_witness :
  ∃ w', deleteSession (id s2) world = (Returned (true, id s2), w')
        ∧ (isSessionValid (id s2) 2000 w').1 = Returned false.
Proof.
  exact (@deleted_session_is_invalid env world (id s2) (id s2) s2 2000 eq_refl I I
           sample_ids_distinct ltac:(simpl; set_solver) eq_refl).
Defined.

Lemma created_session_is_found_witness :
  ∃ view w1,
    createSession loginData "aaaaaaaa-aaaa-4aaa-8aaa-aaaaaaaaaaa5" 2000 world
    = (Returned view, w1)
    ∧ (findByAccessToken (Some "access-new") w1).1 = Returned (Some view).
Proof.
  destruct (@created_session_is_found env world loginData loginData
              "aaaaaaaa-aaaa-4aaa-8aaa-aaaaaaaaaaa5" 2000 eq_refl eq_refl eq_refl I I)
    as (view & w1 & Hrun & _ & _ & Hfind & _).
  - intros s Hs. simpl in Hs.
    repeat (apply elem_of_cons in Hs as [->|Hs]; [split; discriminate|]).
    now apply elem_of_nil in Hs.
  - exists view, w1. split; assumption.
Defined.

Lemma token_lookup_requires_token_witness :
  (findByAccessToken None brokenWorld).1
  = Thrown (ValidationError codes "Token is required" None None)
  ∧ faults (findByAccessToken None brokenWorld).2 = faults brokenWorld.
Proof.
  destruct (@token_lookup_requires_token env brokenWorld None
              ltac:(split; reflexivity) eq_refl) as [-> _].
  split; reflexivity.
Defined.

Lemma updateSession_rejects_empty_update_witness :
  ∃ e, (updateSession (id s1)
          (Some [("id", Some (VString "x")); ("token", None)]) 2000 world).1 = Thrown e
       ∧ name e = "ValidationError".
Proof.
  destruct (@updateSession_rejects_empty_update env world (id s1) (id s1)
              (Some [("id", Some (VString "x")); ("token", None)]) 2000 eq_refl
              ltac:(split; reflexivity))
    as (e & Hrun & Hname & _).
  - intros entries Heq. injection Heq as <-.
    apply List.Forall_cons.
    { left. simpl. intros Hin.
      repeat (apply elem_of_cons in Hin as [Hin|Hin]; [discriminate|]).
      now apply elem_of_nil in Hin. }
    apply List.Forall_cons; [right; reflexivity|]. apply List.Forall_nil.
  - exists e. rewrite Hrun. split; [reflexivity | exact Hname].
Defined.

Lemma getSessionStats_consistent_witness :
  ∃ last w', getSessionStats alice 2000 world = (Returned (1%nat, 2%nat, last), w').
Proof.
  destruct (@getSessionStats_consistent env world alice alice 2000 eq_refl I I I)
    as (a & t & l & w' & Hrun & Ht & Ha & _).
  exists l, w'. rewrite Hrun, Ht, Ha. reflexivity.
Defined.

Lemma no_sessions_after_logout_all_witness :
  ∃ n w1 w2,
    invalidateAllSessions alice world = (Returned n, w1)
    ∧ getAdminSessions alice true 2000 2000 w1
      = (Returned {| sessions := []; total := 0; active := 0; expired := 0 |}, w2).
Proof.
  exact (@no_sessions_after_logout_all env world alice alice true 2000 2000 eq_refl I I).
Defined.

Lemma cleanupExpiredSessions_twice_witness :
  ∃ n w1 w2,
    cleanupExpiredSessions 2000 world = (Returned n, w1)
    ∧ cleanupExpiredSessions 2000 w1 = (Returned 0%nat, w2)
    ∧ adminSessions w2 = adminSessions w1.
Proof.
  exact (@cleanupExpiredSessions_twice env world 2000 2000 ltac:(lia) I I).
Defined.

Lemma getAdminSessions_newest_first_witness :
  ∃ r w', getAdminSessions alice true 2000 2000 world = (Returned r, w')
          ∧ ∀ vi vj, sessions r !! 0%nat = Some vi -> sessions r !! 1%nat = Some vj ->
              ∃ ci cj, v_createdAt vi = Some ci ∧ v_createdAt vj = Some cj ∧ cj <= ci.
Proof.
  destruct (@getAdminSessions_newest_first env world alice alice true 2000 2000
              eq_refl I eq_refl) as (r & w' & Hrun & Hord).
  exists r, w'. split; [exact Hrun|].
  intros vi vj. apply (Hord 0%nat 1%nat). lia.
Defined.

End SessionsMoreExamples.

(** ** More of the password reset repository *)
Section ResetsMore.
Import Errors World Prisma PasswordResetRepository.
Context `{Env}.

Ltac async_unfold :=
  unfold try_catch, rethrow, mbind, mret, async_bind, async_ret, bind, ret, lift,
    throw, logger.

Lemma findReset_by_id (l : list PasswordReset) (r : PasswordReset) :
  NoDup (r_id <$> l) -> r ∈ l ->
  head (filter (fun x => r_id x = r_id r) l) = Some r.
Proof.
  induction l as [|x l IH]; intros Hnd Hin; [now apply elem_of_nil in Hin|].
  rewrite fmap_cons in Hnd. apply NoDup_cons in Hnd as [Hx Hnd].
  rewrite filter_cons. apply elem_of_cons in Hin as [->|Hin].
  - now rewrite decide_True.
  - rewrite decide_False; [now apply IH|].
    intros Heq. apply Hx. rewrite Heq. now apply list_elem_of_fmap_2.
Qed.

Lemma findByToken_result (w : State) (t : string) (now : Z) :
  Js.truthy t = true -> nextCallRuns w ->
  (findByToken (Some t) now w).1
  = Returned ((fun r => (r, adminOf w r))
              <$> head (filter (fun r => r_token r = t ∧ r_isUsed r = false
                                         ∧ now < r_expiresAt r) (passwordResets w))).
Proof.
  intros Ht Hn. unfold findByToken, reset_findFirst. async_unfold.
  rewrite Ht, (dbCall_runs _ _ Hn), afterCall_passwordResets.
  unfold adminOf. rewrite afterCall_admins.
  now destruct (head _).
Qed.

(** X13. A reset token is single-use: once [markAsUsed] has marked a
    record, [findByToken] never again returns the record with that id,
    whatever the token and the time asked for. *)
Theorem used_token_is_not_found (w : State) (resetId validId : string)
  (r : PasswordReset) (usedAt : Z) :
  uuidSchema resetId = Returned validId ->
  nextCallRuns w ->
  NoDup (r_id <$> passwordResets w) ->
  r ∈ passwordResets w -> r_id r = validId ->
  ∃ updated w1,
    markAsUsed resetId usedAt w = (Returned updated, w1)
    ∧ r_isUsed updated = true ∧ r_usedAt updated = Some usedAt
    ∧ r_id updated = validId ∧ r_token updated = r_token r
    ∧ ∀ token now found adm w2,
        findByToken token now w1 = (Returned (Some (found, adm)), w2) ->
        r_id found ≠ validId.
Proof.
  intros Hu Hn Hnd Hr Hid. subst validId.
  unfold markAsUsed, reset_update. async_unfold.
  rewrite Hu, (dbCall_runs _ _ Hn), afterCall_passwordResets.
  rewrite (findReset_by_id _ r Hnd Hr). simpl.
  eexists _, _. split; [reflexivity|]. simpl.
  repeat (split; [reflexivity|]).
  intros token now found adm w2 Hfind.
  apply findByToken_found in Hfind as (Hin & _ & Hunused & _).
  simpl in Hin. apply list_elem_of_fmap in Hin as (x & -> & _).
  intros Hfid. destruct (decide (r_id x = r_id r)) as [Heq|Hne]; simpl in *.
  - discriminate.
  - contradiction.
Qed.

(** X14. Round trip of a reset request: the record [createPasswordReset]
    has just stored is what [findByToken] returns for its token at any time
    before its expiry, provided the token is non-empty and no record of
    another admin carries the same token. *)
Theorem new_reset_token_is_found (w : State) (resetData v : ResetData)
  (newId : string) (dbNow now : Z) :
  createPasswordResetSchema resetData = Returned v ->
  Js.truthy (rd_token v) = true ->
  now < rd_expiresAt v ->
  nextCallRuns w -> nextCallRuns (afterCall w) ->
  nextCallRuns (afterCall (afterCall w)) ->
  (∀ r, r ∈ passwordResets w -> r_adminId r ≠ rd_adminId v -> r_token r ≠ rd_token v) ->
  ∃ newReset w1,
    createPasswordReset resetData newId dbNow w = (Returned newReset, w1)
    ∧ r_token newReset = rd_token v
    ∧ (findByToken (Some (rd_token v)) now w1).1
      = Returned (Some (newReset, adminOf w newReset)).
Proof.
  intros Hv Ht Hlt Hn1 Hn2 Hn3 Hfresh.
  unfold createPasswordReset, reset_deleteMany, reset_create. async_unfold.
  rewrite Hv. unfold dbCall, nextCallRuns, afterCall in *.
  assert (Hhead : ∀ row,
            r_token row = rd_token v -> r_isUsed row = false -> now < r_expiresAt row ->
            head (filter (fun r => r_token r = rd_token v ∧ r_isUsed r = false
                                   ∧ now < r_expiresAt r)
                    (filter (fun r => r_adminId r ≠ rd_adminId v) (passwordResets w)
                     ++ [row])%list) = Some row).
  { intros row H1 H2 H3. apply head_filter_snoc_fresh; [|auto].
    intros y Hy (Hty & _). apply list_elem_of_filter in Hy as [Hne Hy].
    exact (Hfresh y Hy Hne Hty). }
  destruct (faults w) as [|[e|] rest] eqn:Ef; simpl in *; rewrite ?Ef; simpl;
    try contradiction.
  - eexists _, _. split; [reflexivity|]. split; [reflexivity|].
    rewrite findByToken_result; [|exact Ht | unfold nextCallRuns; simpl; now rewrite Ef].
    simpl. rewrite Hhead by (simpl; auto). reflexivity.
  - destruct rest as [|[e|] rest']; simpl in *; try contradiction.
    + eexists _, _. split; [reflexivity|]. split; [reflexivity|].
      rewrite findByToken_result; [|exact Ht | exact I].
      simpl. rewrite Hhead by (simpl; auto). reflexivity.
    + eexists _, _. split; [reflexivity|]. split; [reflexivity|].
      rewrite findByToken_result; [|exact Ht | unfold nextCallRuns; simpl; exact Hn3].
      simpl. rewrite Hhead by (simpl; auto). reflexivity.
Qed.

Lemma findByToken_no_token (w : State) (t : option string) (now : Z) :
  Js.truthy_opt t = false ->
  findByToken t now w
  = (Thrown (transformError ERROR_CODES
               (ValidationError ERROR_CODES "Reset token is required" None None)
               "findByToken"),
     add_log {| level := LError; text := "Failed to find password reset by token" |} w).
Proof.
  intros Ht. unfold findByToken. async_unfold.
  destruct t as [s|]; simpl in Ht; [rewrite Ht|]; reflexivity.
Qed.

(** X15. The reset sweep removes exactly the records that are used or
    expired, so what is left is unused and not expired, and it never
    removes a findable token: at the sweep's clock reading or later,
    [findByToken] answers after the sweep what it would have answered
    before. *)
Theorem cleanupExpired_keeps_findable (w : State) (now now' : Z) (t : option string) :
  now <= now' ->
  nextCallRuns w -> nextCallRuns (afterCall w) ->
  ∃ deletedCount w1,
    cleanupExpired now w = (Returned deletedCount, w1)
    ∧ passwordResets w1
      = filter (fun r => ¬ (r_expiresAt r < now ∨ r_isUsed r = true)) (passwordResets w)
    ∧ (∀ r, r ∈ passwordResets w1 -> r_isUsed r = false ∧ now <= r_expiresAt r)
    ∧ deletedCount
      = length (filter (fun r => r_expiresAt r < now ∨ r_isUsed r = true) (passwordResets w))
    ∧ (findByToken t now' w1).1 = (findByToken t now' w).1.
Proof.
  intros Hle Hn1 Hn2. unfold cleanupExpired, reset_deleteMany. async_unfold.
  rewrite (dbCall_runs _ _ Hn1), afterCall_passwordResets. simpl.
  eexists _, _. split; [reflexivity|]. simpl.
  split; [reflexivity|]. split; [|split; [reflexivity|]].
  - intros r Hr. apply list_elem_of_filter in Hr as [Hkeep _].
    destruct (r_isUsed r); [exfalso; apply Hkeep; now right|].
    split; [reflexivity|]. lia.
  - destruct (Js.truthy_opt t) eqn:Ht.
    + destruct t as [s|]; [|discriminate]. simpl in Ht.
      rewrite !findByToken_result by (first [assumption | exact Hn2]).
      simpl. unfold adminOf. simpl. rewrite afterCall_admins.
      rewrite list_filter_filter. do 3 f_equal.
      apply list_filter_iff. intros r. split; [tauto|].
      intros (Htok & Hun & Hexp). repeat split; try assumption.
      intros [Hlt | Hused]; [lia | congruence].
    + now rewrite !findByToken_no_token.
Qed.

Lemma reset_update_runs (P : PasswordReset -> Prop) `{!∀ r, Decision (P r)}
  (f : PasswordReset -> PasswordReset) (w : State) (r : PasswordReset) :
  nextCallRuns w ->
  head (filter P (passwordResets w)) = Some r ->
  reset_update P f w
  = (Returned (f r),
     set_passwordResets ((fun x => if decide (P x) then f x else x) <$> passwordResets w)
       (afterCall w)).
Proof.
  intros Hn Hh. unfold reset_update.
  rewrite (dbCall_runs _ _ Hn), afterCall_passwordResets, Hh. reflexivity.
Qed.

(** X16. [incrementAttempts] on a stored record adds exactly one to its
    [attempts] and changes nothing else: the other columns of the record,
    the other records and the number of records stay as they were; in
    particular the record is not marked used, whatever the count. *)
Theorem incrementAttempts_only_counts (w : State) (resetId validId : string)
  (r : PasswordReset) :
  uuidSchema resetId = Returned validId ->
  nextCallRuns w ->
  NoDup (r_id <$> passwordResets w) ->
  r ∈ passwordResets w -> r_id r = validId ->
  ∃ updated w1,
    incrementAttempts resetId w = (Returned updated, w1)
    ∧ r_attempts updated = r_attempts r + 1
    ∧ r_id updated = r_id r ∧ r_adminId updated = r_adminId r
    ∧ r_email updated = r_email r ∧ r_token updated = r_token r
    ∧ r_expiresAt updated = r_expiresAt r ∧ r_isUsed updated = r_isUsed r
    ∧ r_usedAt updated = r_usedAt r ∧ r_createdAt updated = r_createdAt r
    ∧ updated ∈ passwordResets w1
    ∧ (∀ x, x ∈ passwordResets w -> r_id x ≠ validId -> x ∈ passwordResets w1)
    ∧ length (passwordResets w1) = length (passwordResets w).
Proof.
  intros Hu Hn Hnd Hr Hid. subst validId.
  unfold incrementAttempts. async_unfold. rewrite Hu.
  rewrite (reset_update_runs _ _ w r Hn (findReset_by_id _ r Hnd Hr)). simpl.
  eexists _, _. split; [reflexivity|]. simpl.
  repeat (split; [reflexivity|]). split; [|split].
  - apply list_elem_of_fmap. exists r. split; [|assumption].
    now rewrite decide_True.
  - intros x Hx Hne. apply list_elem_of_fmap. exists x. split; [|assumption].
    now rewrite decide_False.
  - apply length_fmap.
Qed.

Lemma r_createdAt_desc_sorted (l : list PasswordReset) :
  StronglySorted r_createdAt_desc (orderByResetCreatedAtDesc l).
Proof.
  assert (Transitive r_createdAt_desc) by (intros x y z; unfold r_createdAt_desc; lia).
  assert (Total r_createdAt_desc) by (intros x y; unfold r_createdAt_desc; lia).
  apply StronglySorted_merge_sort; assumption.
Qed.

(** X17. [findActiveByAdminId] returns the newest active reset of the
    admin: a record of that admin that is unused and not yet expired, with
    no other such record created later; and it returns none only when the
    admin has no such record. *)
Theorem findActiveByAdminId_newest (w : State) (adminId validId : string) (now : Z) :
  uuidSchema adminId = Returned validId ->
  nextCallRuns w ->
  ∃ result w',
    findActiveByAdminId adminId now w = (Returned result, w')
    ∧ (∀ r, result = Some r ->
         r ∈ passwordResets w ∧ r_adminId r = validId
         ∧ r_isUsed r = false ∧ now < r_expiresAt r
         ∧ ∀ r', r' ∈ passwordResets w -> r_adminId r' = validId ->
                 r_isUsed r' = false -> now < r_expiresAt r' ->
                 r_createdAt r' <= r_createdAt r)
    ∧ (result = None ->
       ∀ r', r' ∈ passwordResets w -> r_adminId r' = validId ->
             r_isUsed r' = false -> ¬ now < r_expiresAt r')
    ∧ passwordResets w' = passwordResets w.
Proof.
  intros Hu Hn. unfold findActiveByAdminId, reset_findFirst_desc. async_unfold.
  rewrite Hu, (dbCall_runs _ _ Hn), afterCall_passwordResets.
  set (rows := filter _ (passwordResets w)).
  eexists _, _. split; [reflexivity|].
  pose proof (merge_sort_Permutation r_createdAt_desc rows) as Hp.
  pose proof (r_createdAt_desc_sorted rows) as Hs.
  unfold orderByResetCreatedAtDesc in *.
  destruct (merge_sort r_createdAt_desc rows) as [|x l] eqn:Es; simpl.
  - split; [discriminate|]. split; [|apply afterCall_passwordResets].
    intros _ r' Hin Ha Hu' Hlt.
    apply Permutation_nil in Hp.
    assert (Hr : r' ∈ rows) by (apply list_elem_of_filter; auto).
    rewrite Hp in Hr. now apply elem_of_nil in Hr.
  - split; [|split; [discriminate | apply afterCall_passwordResets]].
    intros r Hr. injection Hr as <-.
    assert (Hx : x ∈ rows) by (rewrite <- Hp; now left).
    apply list_elem_of_filter in Hx as [(Ha & Hu' & Hlt) Hin].
    repeat (split; [assumption|]).
    intros r' Hin' Ha' Hu'' Hlt'.
    assert (Hr : r' ∈ x :: l) by (rewrite Hp; apply list_elem_of_filter; auto).
    apply elem_of_cons in Hr as [->|Hl]; [lia|].
    inversion Hs as [|? ? _ Hall]; subst. rewrite Forall_forall in Hall.
    exact (Hall r' Hl).
Qed.

End ResetsMore.

Section ResetsMoreExamples.
Import Samples MoreSamples Errors World Prisma PasswordResetRepository.

Lemma sample_reset_ids_distinct : NoDup (r_id <$> passwordResets world).
Proof. apply (bool_decide_unpack _). vm_compute. exact I. Qed.

Lemma used_token_is_not_found_witness :
  ∃ updated w1,
    markAsUsed "bbbbbbbb-bbbb-4bbb-8bbb-bbbbbbbbbbb1" 2000 world = (Returned updated, w1)
    ∧ (findByToken (Some "tok-a") 2000 w1).1 = Returned None.
Proof.
  destruct (@used_token_is_not_found env world "bbbbbbbb-bbbb-4bbb-8bbb-bbbbbbbbbbb1"
              "bbbbbbbb-bbbb-4bbb-8bbb-bbbbbbbbbbb1" aliceReset 2000 eq_refl I
              sample_reset_ids_distinct ltac:(simpl; now left) eq_refl)
    as (u & w1 & Hrun & _).
  exists u, w1. split; [exact Hrun|].
  injection Hrun as _ <-. vm_compute. reflexivity.
Defined.

Lemma new_reset_token_is_found_witness :
  ∃ newReset w1,
    createPasswordReset resetRequest "bbbbbbbb-bbbb-4bbb-8bbb-bbbbbbbbbbb2" 2000 world
    = (Returned newReset, w1)
    ∧ (findByToken (Some "tok-b") 2100 w1).1
      = Returned (Some (newReset, adminOf world newReset)).
Proof.
  destruct (@new_reset_token_is_found env world resetRequest resetRequest
              "bbbbbbbb-bbbb-4bbb-8bbb-bbbbbbbbbbb2" 2000 2100 eq_refl eq_refl
              ltac:(simpl; lia) I I I)
    as (nr & w1 & Hrun & _ & Hfind).
  - intros r Hr. simpl in Hr. apply elem_of_cons in Hr as [->|Hr].
    + intros _. discriminate.
    + now apply elem_of_nil in Hr.
  - exists nr, w1. split; assumption.
Defined.

Lemma cleanupExpired_keeps_findable_witness :
  ∃ n w1, cleanupExpired 2000 world = (Returned n, w1)
          ∧ (findByToken (Some "tok-a") 2000 w1).1
            = (findByToken (Some "tok-a") 2000 world).1.
Proof.
  destruct (@cleanupExpired_keeps_findable env world 2000 2000 (Some "tok-a")
              ltac:(lia) I I) as (n & w1 & Hrun & _ & _ & _ & Hfind).
  exists n, w1. split; assumption.
Defined.

Lemma incrementAttempts_only_counts_witness :
  ∃ updated w1,
    incrementAttempts "bbbbbbbb-bbbb-4bbb-8bbb-bbbbbbbbbbb1" world = (Returned updated, w1)
    ∧ r_attempts updated = 1 ∧ r_isUsed updated = false.
Proof.
  destruct (@incrementAttempts_only_counts env world "bbbbbbbb-bbbb-4bbb-8bbb-bbbbbbbbbbb1"
              "bbbbbbbb-bbbb-4bbb-8bbb-bbbbbbbbbbb1" aliceReset eq_refl I
              sample_reset_ids_distinct ltac:(simpl; now left) eq_refl)
    as (u & w1 & Hrun & Hatt & _ & _ & _ & _ & _ & Hused & _).
  exists u, w1. split; [exact Hrun|]. rewrite Hatt, Hused. split; reflexivity.
Defined.

Lemma findActiveByAdminId_newest_witness :
  ∃ w', findActiveByAdminId alice 2000 world = (Returned (Some aliceReset), w').
Proof.
  destruct (@findActiveByAdminId_newest env world alice alice 2000 eq_refl I)
    as (res & w' & Hrun & _).
  exists w'. rewrite Hrun. f_equal. f_equal.
  injection Hrun as <- _. vm_compute. reflexivity.
Defined.

End ResetsMoreExamples.

(** ** More of the signup form *)
Section SignupFormMore.
Import Formatters StudentStore StudentStoreSpec.
Context `{Constants}.

Lemma no_errors_empty : bool_decide (size (∅ : gmap string string) = 0%nat) = true.
Proof. apply bool_decide_eq_true_2. apply map_size_empty. Qed.

Lemma some_error (k v : string) (m : gmap string string) :
  bool_decide (size (<[k := v]> m) = 0%nat) = false.
Proof.
  apply bool_decide_eq_false_2. intros Hs.
  apply map_size_empty_iff in Hs. now apply insert_non_empty in Hs.
Qed.

Lemma validateForm_accepts (st : Store) :
  (validateForm st).1 = true
  <-> Js.truthy_opt (selectedClassType st) = true
      ∧ (provided (formData_email st) = true ∨ provided (formData_phone st) = true)
      ∧ (provided (formData_email st) = true -> isValidEmail (formData_email st) = true)
      ∧ (provided (formData_phone st) = true -> isValidPhone (formData_phone st) = true).
Proof.
  unfold validateForm, formErrors, provided. simpl.
  destruct (Js.truthy_opt (selectedClassType st));
    destruct (Js.truthy (formData_email st)
              && negb (bool_decide (Js.trim (formData_email st) = "")));
    destruct (Js.truthy (formData_phone st)
              && negb (bool_decide (Js.trim (formData_phone st) = "")));
    destruct (isValidEmail (formData_email st));
    destruct (isValidPhone (formData_phone st));
    simpl; rewrite ?some_error, ?no_errors_empty; intuition congruence.
Qed.

(** X18. [validateForm] accepts exactly the forms that have a class type
    selected, at least one contact field that is not blank, and a well
    formed value in every contact field that is not blank; whatever the
    answer, it replaces the stored errors and touches nothing else. *)
Theorem validateForm_accepts_iff (st : Store) :
  ((validateForm st).1 = true
   <-> Js.truthy_opt (selectedClassType st) = true
       ∧ (provided (formData_email st) = true ∨ provided (formData_phone st) = true)
       ∧ (provided (formData_email st) = true -> isValidEmail (formData_email st) = true)
       ∧ (provided (formData_phone st) = true -> isValidPhone (formData_phone st) = true))
  ∧ ((validateForm st).1 = true <-> errors (validateForm st).2 = ∅)
  ∧ (validateForm st).2 = set_errors (errors (validateForm st).2) st.
Proof.
  split; [apply validateForm_accepts|]. split; [|reflexivity].
  unfold validateForm. simpl. rewrite bool_decide_eq_true. apply map_size_empty_iff.
Qed.

(** X19. [submitSignup] calls [createSignup] at most once, and only for a
    form that [validateForm] accepts: what it posts carries the selected
    class type and at least one contact that is well formed; it returns
    true exactly when that call succeeded. *)
Theorem submitSignup_posts_valid_contact
  (post : SignupData -> ApiError + ApiResponse) (st : Store) :
  let '(ok, st', calls) := submitSignup post st in
  (calls = [] ∧ ok = false ∧ (validateForm st).1 = false)
  ∨ ∃ d, calls = [d]
         ∧ (validateForm st).1 = true
         ∧ sd_classType d = selectedClassType st
         ∧ Js.truthy_opt (sd_classType d) = true
         ∧ (sd_email d = Some (formData_email st) ∧ isValidEmail (formData_email st) = true
            ∨ sd_phone d = Some (formData_phone st)
              ∧ isValidPhone (formData_phone st) = true)
         ∧ (ok = true <-> ∃ result, post d = inr result)
         ∧ isSubmitting st' = false.
Proof.
  unfold submitSignup.
  destruct (validateForm st) as [ok0 st0] eqn:Ev.
  assert (Hok : (validateForm st).1 = ok0) by now rewrite Ev.
  destruct ok0; simpl.
  - apply validateForm_accepts in Hok as (Hct & Hany & He & Hp).
    assert (Hcontact :
      orNull (formData_email st) = Some (formData_email st)
        ∧ isValidEmail (formData_email st) = true
      ∨ orNull (formData_phone st) = Some (formData_phone st)
        ∧ isValidPhone (formData_phone st) = true).
    { unfold provided, orNull in *.
      destruct Hany as [Hy|Hy]; [left | right];
        (split; [apply andb_true_iff in Hy as [-> _]; reflexivity | auto]). }
    destruct (post _) as [err|res] eqn:Ep; right; eexists; (split; [reflexivity|]);
      simpl; rewrite Ep; repeat (split; [first [reflexivity | assumption]|]);
      (split; [|reflexivity]).
    + split; [discriminate | intros [r Hr]; discriminate].
    + split; [eauto | reflexivity].
  - left. auto.
Qed.

End SignupFormMore.

(** ** From the rejected insert to the message on the form *)
Section ConflictEndToEnd.
Import Errors Utils StudentStore Api.
Context (ERROR_CODES : ErrorCodes) `{Constants}.

(** X20. A duplicate contact, end to end: when the backend answers a
    Prisma unique-constraint error (P2002) through [createErrorResponse],
    the response interceptor turns the answer into an error with status
    409, and [submitSignup] on a valid form returns false and stores the
    already-registered message as [submitError]. *)
Theorem duplicate_contact_message (prismaError : JsError) (context : string)
  (now : Z) (axiosMessage axiosCode : option string) (st : Store) :
  code prismaError = Some "P2002" ->
  isZodError prismaError = false ->
  (validateForm st).1 = true ->
  let rejection :=
    onRejected {| response := Some (createErrorResponse ERROR_CODES prismaError context now);
                  ax_message := axiosMessage; ax_code := axiosCode |} in
  err_status rejection = Some 409
  ∧ submitErrorMessage rejection = alreadyRegistered
  ∧ ∃ st' calls,
      submitSignup (fun _ => inl rejection) st = (false, st', calls)
      ∧ submitError st' = Some alreadyRegistered
      ∧ submitSuccess st' = false ∧ isSubmitting st' = false.
Proof.
  intros Hc Hz Hvalid rejection.
  assert (Hstatus : err_status rejection = Some 409).
  { unfold rejection, onRejected. simpl.
    unfold createErrorResponse, transformError, transformPrismaError.
    now rewrite Hz, Hc. }
  assert (Hmsg : submitErrorMessage rejection = alreadyRegistered).
  { unfold submitErrorMessage. rewrite Hstatus.
    destruct (bool_decide (err_code rejection = Some "P2002")
              || includesOpt (err_message rejection) "Unique constraint");
      [reflexivity|].
    rewrite bool_decide_eq_true_2 by reflexivity. reflexivity. }
  split; [exact Hstatus|]. split; [exact Hmsg|].
  unfold submitSignup. destruct (validateForm st) as [ok st0]. simpl in Hvalid.
  subst ok. simpl. eexists _, _. split; [reflexivity|]. simpl.
  rewrite Hmsg. repeat split.
Qed.

End ConflictEndToEnd.

(** ** Display helpers and the CSV export *)
Section DisplayHelpers.
Import Formatters FormattersMore CsvExport.

Lemma chars_of_list (l : list Ascii.ascii) : chars (String.string_of_list_ascii l) = l.
Proof. apply String.list_ascii_of_string_of_list_ascii. Qed.

Lemma digitsOf_all_digits (s : string) :
  List.Forall (fun c => isDigit c = true) (digitsOf s).
Proof.
  apply List.Forall_forall. intros c Hc. unfold digitsOf in Hc.
  now apply List.filter_In in Hc as [_ ?].
Qed.

(** X21. [formatPhone] is idempotent: formatting what it returned changes
    nothing, for a missing phone, for ten digits and for anything else. *)
Theorem formatPhone_idempotent (phone : option string) :
  formatPhone (Some (formatPhone phone)) = formatPhone phone.
Proof.
  destruct phone as [p|]; [|reflexivity].
  destruct (Js.truthy p) eqn:Ht.
  2: { unfold formatPhone at 2 3. rewrite Ht. reflexivity. }
  destruct (length (digitsOf p) =? 10)%nat eqn:Hlen.
  2: { assert (Hp : formatPhone (Some p) = p)
         by (unfold formatPhone; now rewrite Ht, Hlen).
       now rewrite !Hp. }
  assert (Hp : formatPhone (Some p)
               = String.string_of_list_ascii
                   (chars "(" ++ take 3 (digitsOf p) ++ chars ") "
                    ++ take 3 (drop 3 (digitsOf p)) ++ chars "-"
                    ++ drop 6 (digitsOf p))%list)
    by (unfold formatPhone; now rewrite Ht, Hlen).
  rewrite Hp. clear Hp.
  pose proof (digitsOf_all_digits p) as Hd.
  apply Nat.eqb_eq in Hlen.
  destruct (digitsOf p) as [|d0 [|d1 [|d2 [|d3 [|d4 [|d5 [|d6 [|d7 [|d8 [|d9 [|]]]]]]]]]]];
    try discriminate.
  repeat match goal with
         | Hf : List.Forall _ (_ :: _) |- _ => inversion_clear Hf
         end.
  unfold formatPhone, digitsOf. simpl.
  repeat match goal with Hx : isDigit _ = true |- _ => rewrite Hx; clear Hx end.
  reflexivity.
Qed.

Lemma replaceAll_removes (c : Ascii.ascii) (r l : list Ascii.ascii) :
  List.Forall (fun x => x ≠ c) r -> List.Forall (fun x => x ≠ c) (replaceAll c r l).
Proof.
  intros Hr. induction l as [|x l IH]; simpl; [constructor|].
  destruct (Ascii.eqb_spec x c).
  - apply List.Forall_app. now split.
  - now constructor.
Qed.

Lemma replaceAll_preserves (Q : Ascii.ascii -> Prop) (c : Ascii.ascii)
  (r l : list Ascii.ascii) :
  List.Forall Q r -> List.Forall Q l -> List.Forall Q (replaceAll c r l).
Proof.
  intros Hr Hl. induction Hl as [|x l Hx Hl IH]; simpl; [constructor|].
  destruct (Ascii.eqb x c).
  - apply List.Forall_app. now split.
  - now constructor.
Qed.

Lemma replaceAll_absent (c : Ascii.ascii) (r l : list Ascii.ascii) :
  List.Forall (fun x => x ≠ c) l -> replaceAll c r l = l.
Proof.
  induction 1 as [|x l Hx Hl IH]; simpl; [reflexivity|].
  apply Ascii.eqb_neq in Hx. now rewrite Hx, IH.
Qed.

Lemma isMarkupChar_cases (x : Ascii.ascii) :
  isMarkupChar x = false
  <-> x ≠ charOf "<" ∧ x ≠ charOf ">" ∧ x ≠ dquote ∧ x ≠ charOf "'" ∧ x ≠ charOf "/".
Proof.
  destruct x as [[|] [|] [|] [|] [|] [|] [|] [|]]; vm_compute;
    (split; [intros Hm; try discriminate; repeat split; discriminate
            | intros (H1 & H2 & H3 & H4 & H5); try reflexivity;
              first [now destruct H1 | now destruct H2 | now destruct H3
                    | now destruct H4 | now destruct H5]]).
Qed.

Ltac no_char := repeat constructor; discriminate.

Ltac absent_char :=
  first [ apply replaceAll_removes; no_char
        | apply replaceAll_preserves; [no_char | absent_char] ].

(** X22. What [sanitizeInput] returns contains none of the characters
    [<], [>], the quotation mark, the apostrophe and [/]; and an input that
    has none of them and no [&] comes back unchanged. *)
Theorem sanitizeInput_removes_markup (input : option string) :
  List.Forall (fun c => isMarkupChar c = false) (chars (sanitizeInput input))
  ∧ ∀ i, input = Some i ->
         List.Forall (fun c => isMarkupChar c = false ∧ c ≠ charOf "&") (chars i) ->
         sanitizeInput input = i.
Proof.
  split.
  - destruct input as [i|]; [|constructor]. unfold sanitizeInput.
    destruct (Js.truthy i); unfold negb; [|constructor].
    rewrite chars_of_list.
    apply List.Forall_forall. intros x Hx. apply isMarkupChar_cases.
    repeat split;
      match goal with
      | |- x ≠ ?c =>
          revert x Hx; apply List.Forall_forall;
          change (List.Forall (fun y => y ≠ c)
                    (replaceAll (charOf "/") (chars "&#x2F;")
                       (replaceAll (charOf "'") (chars "&#x27;")
                          (replaceAll dquote (chars "&quot;")
                             (replaceAll (charOf ">") (chars "&gt;")
                                (replaceAll (charOf "<") (chars "&lt;")
                                   (replaceAll (charOf "&") (chars "&amp;") (chars i))))))));
          absent_char
      end.
  - intros i -> Hsafe. unfold sanitizeInput.
    destruct (Js.truthy i) eqn:Ht; simpl.
    + assert (Hc : ∀ c, (c = charOf "&" ∨ isMarkupChar c = true) ->
                        List.Forall (fun x => x ≠ c) (chars i)).
      { intros c Hc. eapply List.Forall_impl; [|exact Hsafe].
        intros x [Hm Ha] ->. destruct Hc as [-> | Hc]; [now apply Ha | congruence]. }
      rewrite (replaceAll_absent (charOf "&") _ (chars i)) by (apply Hc; now left).
      rewrite (replaceAll_absent (charOf "<") _ (chars i)) by (apply Hc; now right).
      rewrite (replaceAll_absent (charOf ">") _ (chars i)) by (apply Hc; now right).
      rewrite (replaceAll_absent dquote _ (chars i)) by (apply Hc; now right).
      rewrite (replaceAll_absent (charOf "'") _ (chars i)) by (apply Hc; now right).
      rewrite (replaceAll_absent (charOf "/") _ (chars i)) by (apply Hc; now right).
      apply String.string_of_list_ascii_of_string.
    + now destruct i.
Qed.

Lemma includes_char (s : string) (c : Ascii.ascii) :
  Js.includes s (String c EmptyString) = true <-> List.In c (chars s).
Proof.
  induction s as [|x s IH]; simpl.
  - split; [discriminate | contradiction].
  - destruct (Ascii.ascii_dec c x) as [->|Hne].
    + replace (String.prefix EmptyString s) with true by (now destruct s).
      simpl. tauto.
    + simpl. rewrite IH. unfold chars. split; [tauto|].
      intros [Hx|Hin]; [congruence | exact Hin].
Qed.

Lemma doubling_injective (l1 l2 : list Ascii.ascii) :
  replaceAll dquote [dquote; dquote] l1 = replaceAll dquote [dquote; dquote] l2 ->
  l1 = l2.
Proof.
  revert l2. induction l1 as [|x l1 IH]; intros [|y l2]; simpl.
  - reflexivity.
  - destruct (Ascii.eqb y dquote); discriminate.
  - destruct (Ascii.eqb x dquote); discriminate.
  - destruct (Ascii.eqb_spec x dquote) as [->|Hx];
      destruct (Ascii.eqb_spec y dquote) as [->|Hy]; simpl; intros Heq.
    + injection Heq as Heq. f_equal. now apply IH.
    + injection Heq as Hq _. congruence.
    + injection Heq as Hq _. congruence.
    + injection Heq as -> Heq. f_equal. now apply IH.
Qed.

(** X23. [escapeCSVField] loses nothing: two different fields never get
    the same escaped text; a field without comma, quotation mark and line
    feed is written as it is, and every other field is written between
    quotation marks. *)
Theorem escapeCSVField_injective (a b : string) :
  (escapeCSVField a = escapeCSVField b -> a = b)
  ∧ (needsQuoting a = false -> escapeCSVField a = a)
  ∧ (needsQuoting a = true ->
     ∃ inner, chars (escapeCSVField a) = (dquote :: inner ++ [dquote])%list).
Proof.
  assert (Hplain : ∀ s, needsQuoting s = false -> ¬ List.In dquote (chars s)).
  { intros s Hs Hin. apply includes_char in Hin.
    unfold needsQuoting in Hs. rewrite Hin in Hs.
    now destruct (Js.includes s ","). }
  assert (Hquoted : ∀ s rest,
            chars s = dquote :: rest -> needsQuoting s = true).
  { intros s rest Hs. destruct (needsQuoting s) eqn:Hn; [reflexivity|].
    exfalso. apply (Hplain s Hn). rewrite Hs. now left. }
  split; [|split].
  - unfold escapeCSVField.
    destruct (needsQuoting a) eqn:Ha, (needsQuoting b) eqn:Hb; intros Heq.
    + apply (f_equal chars) in Heq. rewrite !chars_of_list in Heq.
      injection Heq as Heq. apply app_inj_tail in Heq as [Heq _].
      apply doubling_injective in Heq.
      rewrite <- (String.string_of_list_ascii_of_string a),
              <- (String.string_of_list_ascii_of_string b).
      unfold chars in Heq. now rewrite Heq.
    + apply (f_equal chars) in Heq. rewrite chars_of_list in Heq.
      symmetry in Heq. apply Hquoted in Heq. congruence.
    + apply (f_equal chars) in Heq. rewrite chars_of_list in Heq.
      apply Hquoted in Heq. congruence.
    + exact Heq.
  - intros Ha. unfold escapeCSVField. now rewrite Ha.
  - intros Ha. unfold escapeCSVField. rewrite Ha, chars_of_list. eauto.
Qed.

Lemma isAt_iff (c : Ascii.ascii) : isAt c = true <-> c = charOf "@".
Proof.
  destruct c as [[|] [|] [|] [|] [|] [|] [|] [|]]; vm_compute;
    split; intros Hc; first [discriminate | reflexivity].
Qed.

Lemma isDot_iff (c : Ascii.ascii) : isDot c = true <-> c = charOf ".".
Proof.
  destruct c as [[|] [|] [|] [|] [|] [|] [|] [|]]; vm_compute;
    split; intros Hc; first [discriminate | reflexivity].
Qed.

Lemma plain_not_at (c : Ascii.ascii) : isPlain c = true -> isAt c = false.
Proof. unfold isPlain. destruct (isAt c); [now rewrite andb_false_r | reflexivity]. Qed.

Lemma forallb_plain (l : list Ascii.ascii) :
  forallb isPlain l = true <-> List.Forall (fun c => isPlain c = true) l.
Proof. rewrite List.forallb_forall, List.Forall_forall. reflexivity. Qed.

Lemma domainMatches_iff (seen : bool) (l : list Ascii.ascii) :
  domainMatches seen l = true
  <-> ∃ b c, l = (b ++ charOf "." :: c)%list
             ∧ (seen = true ∨ b ≠ []) ∧ c ≠ []
             ∧ List.Forall (fun x => isPlain x = true) b
             ∧ List.Forall (fun x => isPlain x = true) c.
Proof.
  revert seen. induction l as [|x rest IH]; intros seen.
  - simpl. split; [discriminate|]. intros (b & c & Hl & _). now destruct b.
  - simpl. split.
    + intros Hm. apply andb_true_iff in Hm as [Hx Hm].
      apply orb_true_iff in Hm as [Hm | Hm].
      * apply andb_true_iff in Hm as [Hm Hall]. apply andb_true_iff in Hm as [Hm Hne].
        apply andb_true_iff in Hm as [Hs Hd]. apply isDot_iff in Hd. subst x.
        exists [], rest. simpl. split; [reflexivity|]. split; [now left|].
        split; [intros ->; now rewrite bool_decide_eq_true_2 in Hne|].
        split; [constructor | now apply forallb_plain].
      * apply IH in Hm as (b & c & -> & _ & Hc & Hb & Hcs).
        exists (x :: b), c. simpl. split; [reflexivity|]. split; [right; discriminate|].
        split; [assumption|]. split; [now constructor | assumption].
    + intros ([|y b] & c & Hl & Hs & Hc & Hb & Hcs); simpl in Hl; injection Hl as -> ->.
      * destruct Hs as [-> | Hs]; [|congruence].
        replace (isPlain (charOf ".")) with true by reflexivity.
        replace (isDot (charOf ".")) with true by reflexivity.
        rewrite bool_decide_eq_false_2 by exact Hc. simpl.
        apply forallb_plain in Hcs. now rewrite Hcs.
      * inversion Hb as [|? ? Hy Hb']; subst. rewrite Hy. simpl.
        apply orb_true_iff. right. apply IH. exists b, c.
        split; [reflexivity|]. split; [now left|]. auto.
Qed.

Lemma emailMatches_iff (seen : bool) (l : list Ascii.ascii) :
  emailMatches seen l = true
  <-> ∃ a rest, l = (a ++ charOf "@" :: rest)%list
                ∧ (seen = true ∨ a ≠ [])
                ∧ List.Forall (fun x => isPlain x = true) a
                ∧ domainMatches false rest = true.
Proof.
  revert seen. induction l as [|x r IH]; intros seen.
  - simpl. split; [discriminate|]. intros (a & rest & Hl & _). now destruct a.
  - simpl. destruct (isAt x) eqn:Hat.
    + apply isAt_iff in Hat. subst x. split.
      * intros Hm. apply andb_true_iff in Hm as [-> Hd].
        exists [], r. simpl. split; [reflexivity|]. split; [now left|].
        split; [constructor | assumption].
      * intros ([|y a] & rest & Hl & Hs & Ha & Hd); simpl in Hl.
        -- injection Hl as Hr. subst rest.
           destruct Hs as [-> | Hs]; [exact Hd | congruence].
        -- injection Hl as Hy Hr.
           inversion Ha as [|? ? Hp _]; subst. apply plain_not_at in Hp. discriminate.
    + split.
      * intros Hm. apply andb_true_iff in Hm as [Hx Hm].
        apply IH in Hm as (a & rest & -> & _ & Ha & Hd).
        exists (x :: a), rest. simpl. split; [reflexivity|]. split; [right; discriminate|].
        split; [now constructor | assumption].
      * intros ([|y a] & rest & Hl & Hs & Ha & Hd); simpl in Hl; injection Hl as Hy Hr.
        -- subst x. discriminate.
        -- subst y r. inversion Ha as [|? ? Hp Ha']; subst. rewrite Hp. simpl.
           apply IH. exists a, rest.
           split; [reflexivity|]. split; [now left|]. auto.
Qed.

(** X24. [isValidEmail] accepts exactly the strings of the form
    [local@domain.tld] in which the three parts are non-empty and contain
    neither white space nor [@] (the domain and the ending may contain
    further dots). *)
Theorem isValidEmail_shape (email : string) :
  isValidEmail email = true
  <-> ∃ a b c, chars email = (a ++ charOf "@" :: b ++ charOf "." :: c)%list
               ∧ a ≠ [] ∧ b ≠ [] ∧ c ≠ []
               ∧ List.Forall (fun x => isPlain x = true) a
               ∧ List.Forall (fun x => isPlain x = true) b
               ∧ List.Forall (fun x => isPlain x = true) c.
Proof.
  unfold isValidEmail. split.
  - destruct (Js.truthy email); simpl; [|discriminate].
    intros Hm. apply emailMatches_iff in Hm as (a & rest & Hl & Hs & Ha & Hd).
    apply domainMatches_iff in Hd as (b & c & -> & Hsb & Hc & Hb & Hcs).
    exists a, b, c. split; [exact Hl|].
    split; [destruct Hs; [discriminate | assumption]|].
    split; [destruct Hsb; [discriminate | assumption]|]. auto.
  - intros (a & b & c & Hl & Ha & Hb & Hc & Hpa & Hpb & Hpc).
    assert (Ht : Js.truthy email = true).
    { destruct email; [|reflexivity]. simpl in Hl. now destruct a. }
    rewrite Ht. simpl. apply emailMatches_iff.
    exists a, (b ++ charOf "." :: c)%list.
    split; [exact Hl|]. split; [now right|]. split; [exact Hpa|].
    apply domainMatches_iff. exists b, c.
    split; [reflexivity|]. split; [now right|]. auto.
Qed.

End DisplayHelpers.

(** ** More of the dashboard *)
Section DashboardMore.
Import AdminStore AdminStoreActions PaginationComponent.
Context `{Platform}.

Lemma totalPages_bounds (st : Store) :
  0 < pageSize st ->
  ∃ n, getTotalPages st = Num n ∧ 0 <= n
       ∧ (n - 1) * pageSize st < Z.of_nat (length (getFilteredAndSearchedSignups st))
       ∧ Z.of_nat (length (getFilteredAndSearchedSignups st)) <= n * pageSize st.
Proof.
  intros Hps.
  destruct (ceil_div_bounds (Z.of_nat (length (getFilteredAndSearchedSignups st)))
              (pageSize st) ltac:(lia) Hps) as (H0 & Hlo & Hhi).
  eexists. split; [|split; [exact H0|split; [exact Hlo | exact Hhi]]].
  unfold getTotalPages, Math_ceil_div.
  destruct (Z.eqb_spec (pageSize st) 0); [lia | reflexivity].
Qed.

Lemma page_length (st : Store) :
  0 < pageSize st -> 1 <= currentPage st ->
  Z.of_nat (length (getPaginatedSignups st))
  = Z.max 0 (Z.min (pageSize st)
               (Z.of_nat (length (getFilteredAndSearchedSignups st))
                - (currentPage st - 1) * pageSize st)).
Proof.
  intros Hps Hcp. unfold getPaginatedSignups.
  rewrite slice_window by nia. rewrite length_take, length_drop. nia.
Qed.

Lemma page_nonempty (st : Store) (n : Z) :
  0 < pageSize st -> getTotalPages st = Num n -> 1 <= currentPage st <= n ->
  getPaginatedSignups st ≠ [].
Proof.
  intros Hps Hn Hcp.
  destruct (totalPages_bounds st Hps) as (n' & Hn' & H0 & Hlo & Hhi).
  rewrite Hn in Hn'. injection Hn' as <-.
  pose proof (page_length st Hps ltac:(lia)) as Hlen.
  intros Hnil. rewrite Hnil in Hlen. simpl in Hlen. nia.
Qed.

(** X25. The line "Showing a to b of c" of the pagination component
    agrees with the page shown: for a page size greater than zero and a
    current page between 1 and the number of pages, [b - a + 1] is the
    number of signups on the page, and [1 <= a <= b <= c]. *)
Theorem showing_range_matches_page (st : Store) (n : Z) :
  0 < pageSize st ->
  getTotalPages st = Num n ->
  1 <= currentPage st <= n ->
  let totalCount := Z.of_nat (getTotalCount st) in
  let a := startIndex (currentPage st) (pageSize st) in
  let b := endIndex (currentPage st) (pageSize st) totalCount in
  b - a + 1 = Z.of_nat (length (getPaginatedSignups st))
  ∧ 1 <= a ∧ a <= b ∧ b <= totalCount
  ∧ getPaginatedSignups st ≠ [].
Proof.
  intros Hps Hn Hcp. simpl.
  destruct (totalPages_bounds st Hps) as (n' & Hn' & H0 & Hlo & Hhi).
  rewrite Hn in Hn'. injection Hn' as <-.
  pose proof (page_length st Hps ltac:(lia)) as Hlen.
  unfold startIndex, endIndex, getTotalCount.
  assert (Hnonempty : 0 < Z.of_nat (length (getPaginatedSignups st))) by nia.
  split; [nia|]. split; [nia|]. split; [nia|]. split; [nia|].
  intros Hnil. rewrite Hnil in Hnonempty. simpl in Hnonempty. lia.
Qed.

Lemma listing_ignores_page (p : Z) (st : Store) :
  getFilteredAndSearchedSignups (set_page p st) = getFilteredAndSearchedSignups st.
Proof. reflexivity. Qed.

(** X26. Paging stays on pages that exist: for a page size greater than
    zero, from a current page between 1 and the number of pages,
    [nextPage] and [previousPage] lead to a page in the same range, which
    therefore shows at least one signup; [nextPage] on the last page and
    [previousPage] on the first change nothing. *)
Theorem paging_stays_in_range (st : Store) (n : Z) :
  0 < pageSize st ->
  getTotalPages st = Num n ->
  1 <= currentPage st <= n ->
  1 <= currentPage (nextPage st) <= n
  ∧ 1 <= currentPage (previousPage st) <= n
  ∧ getPaginatedSignups (nextPage st) ≠ []
  ∧ getPaginatedSignups (previousPage st) ≠ []
  ∧ (currentPage st < n -> currentPage (nextPage st) = currentPage st + 1)
  ∧ (currentPage st = n -> nextPage st = st)
  ∧ (1 < currentPage st -> currentPage (previousPage st) = currentPage st - 1)
  ∧ (currentPage st = 1 -> previousPage st = st).
Proof.
  intros Hps Hn Hcp.
  assert (Hnext : 1 <= currentPage (nextPage st) <= n
                  ∧ pageSize (nextPage st) = pageSize st
                  ∧ getTotalPages (nextPage st) = Num n).
  { unfold nextPage. rewrite Hn. simpl.
    destruct (Z.ltb_spec (currentPage st) n); simpl; repeat split; try lia; assumption. }
  assert (Hprev : 1 <= currentPage (previousPage st) <= n
                  ∧ pageSize (previousPage st) = pageSize st
                  ∧ getTotalPages (previousPage st) = Num n).
  { unfold previousPage.
    destruct (Z.ltb_spec 1 (currentPage st)); simpl; repeat split; try lia; assumption. }
  destruct Hnext as (Hn1 & Hn2 & Hn3). destruct Hprev as (Hp1 & Hp2 & Hp3).
  split; [exact Hn1|]. split; [exact Hp1|].
  split; [apply (page_nonempty (nextPage st) n); [lia | assumption..]|].
  split; [apply (page_nonempty (previousPage st) n); [lia | assumption..]|].
  unfold nextPage, previousPage. rewrite Hn. simpl.
  split; [|split; [|split]].
  - intros Hlt. destruct (Z.ltb_spec (currentPage st) n); [reflexivity | lia].
  - intros Heq. destruct (Z.ltb_spec (currentPage st) n); [lia | reflexivity].
  - intros Hlt. destruct (Z.ltb_spec 1 (currentPage st)); [reflexivity | lia].
  - intros Heq. destruct (Z.ltb_spec 1 (currentPage st)); [lia | reflexivity].
Qed.

Lemma stage_subset (k : FilterKind) (f : Filters) (l : list Signup) (s : Signup) :
  s ∈ applyFilter k f l -> s ∈ l.
Proof.
  destruct (applyFilter_keeps k f) as [P d HP]. rewrite HP.
  intros Hs. now apply list_elem_of_filter in Hs as [_ ?].
Qed.

Lemma search_subset (q : string) (l : list Signup) (s : Signup) :
  s ∈ applySearch q l -> s ∈ l.
Proof.
  unfold applySearch. destruct (_ && _); [|tauto].
  intros Hs. now apply list_elem_of_filter in Hs as [_ ?].
Qed.

(** X27. Given that [Array.prototype.sort] returns a permutation of its
    argument, the listing only narrows: every listed signup is one of
    [allSignups], the count is at most their number, an active class type
    or status filter is matched by every listed signup, and under the
    reminder filter "sent" (resp. "pending") every listed signup has
    (resp. has no) [reminderSentAt]. *)
Theorem listing_only_narrows (st : Store) :
  (∀ cmp l, Array_sort cmp l ≡ₚ l) ->
  (∀ s, s ∈ getFilteredAndSearchedSignups st -> s ∈ allSignups st)
  ∧ (getTotalCount st <= length (allSignups st))%nat
  ∧ (∀ c s, f_classType (filters st) = Some c -> c ≠ "" ->
            s ∈ getFilteredAndSearchedSignups st -> classType s = c)
  ∧ (∀ c s, f_status (filters st) = Some c -> c ≠ "" ->
            s ∈ getFilteredAndSearchedSignups st -> status s = c)
  ∧ (∀ s, reminderStatus (filters st) = Some "sent" ->
          s ∈ getFilteredAndSearchedSignups st -> reminderSentAt s ≠ None)
  ∧ (∀ s, reminderStatus (filters st) = Some "pending" ->
          s ∈ getFilteredAndSearchedSignups st -> reminderSentAt s = None).
Proof.
  intros Hsort.
  assert (Hin : ∀ s, s ∈ getFilteredAndSearchedSignups st ->
            s ∈ applyReminderStatusFilter (filters st)
                  (applyDateRangeFilter (filters st)
                     (applyStatusFilter (filters st)
                        (applyClassTypeFilter (filters st) (allSignups st))))).
  { intros s Hs. unfold getFilteredAndSearchedSignups in Hs.
    rewrite Hsort in Hs. now apply search_subset in Hs. }
  assert (Htruthy : ∀ c, c ≠ "" -> Js.truthy c = true) by (intros [|]; [congruence | reflexivity]).
  split; [|split; [|split; [|split; [|split]]]].
  - intros s Hs. apply Hin in Hs.
    apply (stage_subset ByReminderStatus), (stage_subset ByDateRange),
      (stage_subset ByStatus), (stage_subset ByClassType) in Hs. exact Hs.
  - unfold getTotalCount, getFilteredAndSearchedSignups. rewrite Hsort.
    destruct (applyFilter_keeps ByReminderStatus (filters st)) as [P4 d4 H4].
    destruct (applyFilter_keeps ByDateRange (filters st)) as [P3 d3 H3].
    destruct (applyFilter_keeps ByStatus (filters st)) as [P2 d2 H2].
    destruct (applyFilter_keeps ByClassType (filters st)) as [P1 d1 H1].
    simpl in H1, H2, H3, H4. rewrite H4, H3, H2, H1.
    unfold applySearch.
    destruct (_ && _); repeat (etransitivity; [apply length_filter|]); reflexivity.
  - intros c s Hc Hne Hs. apply Hin in Hs.
    apply (stage_subset ByReminderStatus), (stage_subset ByDateRange),
      (stage_subset ByStatus) in Hs.
    unfold applyClassTypeFilter in Hs. rewrite Hc in Hs. simpl in Hs.
    rewrite (Htruthy c Hne) in Hs.
    apply list_elem_of_filter in Hs as [Heq _]. congruence.
  - intros c s Hc Hne Hs. apply Hin in Hs.
    apply (stage_subset ByReminderStatus), (stage_subset ByDateRange) in Hs.
    simpl in Hs. unfold applyStatusFilter in Hs. rewrite Hc in Hs. simpl in Hs.
    rewrite (Htruthy c Hne) in Hs.
    apply list_elem_of_filter in Hs as [Heq _]. congruence.
  - intros s Hr Hs. apply Hin in Hs.
    unfold applyReminderStatusFilter, matchesReminderStatus in Hs.
    rewrite Hr in Hs. simpl in Hs.
    apply list_elem_of_filter in Hs as [Hm _].
    intros Hnone. rewrite Hnone in Hm. exact Hm.
  - intros s Hr Hs. apply Hin in Hs.
    unfold applyReminderStatusFilter, matchesReminderStatus in Hs.
    rewrite Hr in Hs. simpl in Hs.
    apply list_elem_of_filter in Hs as [Hm _].
    destruct (reminderSentAt s); [contradiction | reflexivity].
Qed.

(** X28. The count of active filters tells whether the listing is
    narrowed: when [getActiveFiltersCount] is zero, the listing is the
    sorted [allSignups]. [clearFilters] switches the four filters off but
    keeps the search: afterwards the count is that of the search alone, the
    page is 1, and the listing is the sorted result of the search. *)
Theorem no_active_filter_shows_all (st : Store) :
  (getActiveFiltersCount st = 0%nat ->
   getFilteredAndSearchedSignups st
   = Array_sort (compareSignups (sortConfig st)) (allSignups st))
  ∧ getActiveFiltersCount (clearFilters st)
    = (if Js.truthy (searchQuery st) && negb (bool_decide (Js.trim (searchQuery st) = ""))
       then 1%nat else 0%nat)
  ∧ currentPage (clearFilters st) = 1
  ∧ getFilteredAndSearchedSignups (clearFilters st)
    = Array_sort (compareSignups (sortConfig st))
        (applySearch (searchQuery st) (allSignups st)).
Proof.
  split; [|split; [|split]]; try reflexivity.
  unfold getActiveFiltersCount, getFilteredAndSearchedSignups, applyClassTypeFilter,
    applyStatusFilter, applyDateRangeFilter, applyReminderStatusFilter, applySearch.
  destruct (Js.truthy_opt (f_classType (filters st)));
    destruct (Js.truthy_opt (f_status (filters st)));
    destruct (Js.truthy_opt (start (dateRange (filters st)))
              || Js.truthy_opt (end_ (dateRange (filters st))));
    destruct (Js.truthy_opt (reminderStatus (filters st)));
    destruct (Js.truthy (searchQuery st)
              && negb (bool_decide (Js.trim (searchQuery st) = "")));
    simpl; intros Hc; first [discriminate | reflexivity].
Qed.

End DashboardMore.

(** ** The reminder store *)
Section Reminders.
Import ReminderStore.

Lemma find_snoc_fresh {A} (P : A -> Prop) `{!∀ x, Decision (P x)} (l : list A) (x : A) :
  P x -> ∃ y, find P (l ++ [x])%list = Some y ∧ P y.
Proof.
  intros Hx. unfold find. rewrite filter_app, filter_cons, decide_True by exact Hx.
  destruct (filter P l) as [|y l'] eqn:Ef; simpl.
  - now exists x.
  - exists y. split; [reflexivity|].
    assert (Hy : y ∈ filter P l) by (rewrite Ef; now left).
    now apply list_elem_of_filter in Hy as [? _].
Qed.

Lemma find_snoc_other {A} (P : A -> Prop) `{!∀ x, Decision (P x)} (l : list A) (x : A) :
  ¬ P x -> find P (l ++ [x])%list = find P l.
Proof.
  intros Hx. unfold find.
  rewrite filter_app, filter_cons, decide_False by exact Hx.
  rewrite filter_nil. now rewrite app_nil_r.
Qed.

Lemma find_filter_other {A} (P Q : A -> Prop)
  `{!∀ x, Decision (P x)} `{!∀ x, Decision (Q x)} (l : list A) :
  (∀ x, P x -> Q x) -> find P (filter Q l) = find P l.
Proof.
  intros Hpq. unfold find. rewrite list_filter_filter. f_equal.
  apply list_filter_iff. intros x. split; [tauto | auto].
Qed.

Lemma sent_lookup (signupId : string) (now : Z) (st : Store) :
  ∃ r, getReminderBySignupId signupId (markReminderAsSent signupId now st)
       = Some (IsSent r) ∧ se_signupId r = signupId.
Proof.
  unfold getReminderBySignupId. simpl.
  rewrite bool_decide_eq_false_2.
  - destruct (find_snoc_fresh (fun r => se_signupId r = signupId) (sentReminders st)
                {| se_signupId := signupId; se_sentAt := now |} eq_refl)
      as (y & -> & Hy).
    now exists y.
  - intros Hin. apply list_elem_of_filter in Hin as [Hne _]. now apply Hne.
Qed.

(** X29. Marking a reminder as sent settles its status: whatever the
    store held, [getReminderBySignupId] then returns a sent record of that
    signup and the signup is no longer among the sending ones; the status
    of every other signup is untouched, the sent count grows by one and
    the scheduled count stays (a sent reminder remains scheduled). *)
Theorem sent_reminder_status (signupId : string) (now : Z) (st : Store) :
  let st' := markReminderAsSent signupId now st in
  (∃ r, getReminderBySignupId signupId st' = Some (IsSent r) ∧ se_signupId r = signupId)
  ∧ (signupId ∉ sendingReminders st')
  ∧ (∀ other, other ≠ signupId ->
       getReminderBySignupId other st' = getReminderBySignupId other st)
  ∧ getSentRemindersCount st' = S (getSentRemindersCount st)
  ∧ getScheduledRemindersCount st' = getScheduledRemindersCount st.
Proof.
  simpl. split; [|split; [|split; [|split]]].
  - apply sent_lookup.
  - intros Hin. apply list_elem_of_filter in Hin as [Hne _]. now apply Hne.
  - intros other Hne. unfold getReminderBySignupId. simpl.
    rewrite find_snoc_other by (simpl; congruence).
    assert (Hmem : bool_decide (other ∈ filter (fun i => i ≠ signupId) (sendingReminders st))
                   = bool_decide (other ∈ sendingReminders st)).
    { apply bool_decide_ext. rewrite list_elem_of_filter. tauto. }
    now rewrite Hmem.
  - unfold getSentRemindersCount. simpl. rewrite length_app. simpl. lia.
  - reflexivity.
Qed.

(** X30. Retrying a failed reminder puts it back in flight:
    [getReminderBySignupId] then answers "sending" for that signup, no
    failure record of the signup is left, the failure records of other
    signups are kept, and the pending count grows by one. *)
Theorem retried_reminder_status (signupId : string) (st : Store) :
  let st' := retryFailedReminder signupId st in
  getReminderBySignupId signupId st' = Some IsSending
  ∧ (∀ r, r ∈ failedReminders st' -> fa_signupId r ≠ signupId)
  ∧ (∀ r, r ∈ failedReminders st -> fa_signupId r ≠ signupId -> r ∈ failedReminders st')
  ∧ getPendingRemindersCount st' = S (getPendingRemindersCount st)
  ∧ (∀ error now,
       getReminderBySignupId signupId
         (markReminderAsSent signupId now
            (retryFailedReminder signupId (markReminderAsFailed signupId error now st)))
       ≠ Some IsSending).
Proof.
  simpl. split; [|split; [|split; [|split]]].
  - unfold getReminderBySignupId. simpl.
    rewrite bool_decide_eq_true_2; [reflexivity|].
    apply elem_of_app. right. now left.
  - intros r Hr. now apply list_elem_of_filter in Hr as [? _].
  - intros r Hr Hne. apply list_elem_of_filter. now split.
  - unfold getPendingRemindersCount. simpl. rewrite length_app. simpl. lia.
  - intros error now.
    destruct (sent_lookup signupId now
                (retryFailedReminder signupId (markReminderAsFailed signupId error now st)))
      as (r & -> & _).
    discriminate.
Qed.

End Reminders.

Section FrontendExamples.
Import Samples MoreSamples AdminStore AdminStoreActions PaginationComponent.

Lemma duplicate_contact_message_witness :
  ∃ st' calls,
    StudentStore.submitSignup
      (fun _ => inl (Api.onRejected
                       {| Api.response :=
                            Some (Utils.createErrorResponse codes p2002 "createSignup" 0);
                          Api.ax_message := Some "Request failed with status code 409";
                          Api.ax_code := Some "ERR_BAD_REQUEST" |}))
      validForm
    = (false, st', calls)
    ∧ StudentStore.submitError st' = Some StudentStore.alreadyRegistered.
Proof.
  destruct (@duplicate_contact_message codes messages p2002 "createSignup" 0
              (Some "Request failed with status code 409") (Some "ERR_BAD_REQUEST")
              validForm eq_refl eq_refl ltac:(vm_compute; reflexivity))
    as (_ & _ & st' & calls & Hrun & Herr & _).
  exists st', calls. split; assumption.
Defined.

Lemma showing_range_matches_page_witness :
  endIndex 3 2 5 - startIndex 3 2 + 1
  = Z.of_nat (length (getPaginatedSignups (setCurrentPage 3 dashboard))).
Proof.
  exact (proj1 (@showing_range_matches_page platform (setCurrentPage 3 dashboard) 3
                  ltac:(simpl; lia) ltac:(vm_compute; reflexivity) ltac:(simpl; lia))).
Defined.

Lemma paging_stays_in_range_witness :
  currentPage (nextPage (setCurrentPage 3 dashboard)) = 3
  ∧ currentPage (nextPage dashboard) = 2.
Proof.
  pose proof (@paging_stays_in_range platform (setCurrentPage 3 dashboard) 3
                ltac:(simpl; lia) ltac:(vm_compute; reflexivity) ltac:(simpl; lia))
    as (_ & _ & _ & _ & _ & Hlast & _).
  pose proof (@paging_stays_in_range platform dashboard 3
                ltac:(simpl; lia) ltac:(vm_compute; reflexivity) ltac:(simpl; lia))
    as (_ & _ & _ & _ & Hnext & _).
  split.
  - now rewrite Hlast.
  - rewrite Hnext; [reflexivity | simpl; lia].
Defined.

Lemma stableSort_Permutation {A} (cmp : A -> A -> Z) (l : list A) :
  Samples.stableSort cmp l ≡ₚ l.
Proof.
  assert (Hins : ∀ x l0, Samples.insertSorted cmp x l0 ≡ₚ x :: l0).
  { intros x l0. induction l0 as [|y l0 IH]; [reflexivity|]. simpl.
    destruct (decide (cmp x y <= 0)); [reflexivity|].
    rewrite IH. apply Permutation_swap. }
  induction l as [|x l IH]; [reflexivity|].
  unfold Samples.stableSort in *. simpl. now rewrite Hins, IH.
Qed.

Lemma listing_only_narrows_witness :
  (getTotalCount dashboard <= 6)%nat
  ∧ ∀ s, s ∈ getFilteredAndSearchedSignups dashboard -> classType s = "TYPE_1".
Proof.
  destruct (@listing_only_narrows platform dashboard
              ltac:(intros cmp l; apply stableSort_Permutation))
    as (_ & Hcount & Hclass & _).
  split; [exact Hcount|].
  intros s. apply (Hclass "TYPE_1"); [reflexivity | discriminate].
Defined.

End FrontendExamples.
